(** * RobertaRoyale: the Euchre rules engine and its AI, embedded in Rocq

    The development follows [backend/game_logic.py] (the [EuchreGame] class),
    [backend/ai_player.py] (the [EuchreAI] class) and the rooms of
    [backend/main.py] (the [ConnectionManager] class).  Python dictionaries
    are finite maps, lists are lists, enumerations are inductive types, a
    method that mutates [self] is a computation in a state monad whose
    outcome is either a returned value or a raised exception; the state
    reached so far is kept in both cases, as in Python. *)

From Stdlib Require Import PrimFloat.
From stdpp Require Import base decidable option numbers list gmap strings sorting relations.

Set Warnings "-inexact-float,-register-all".
Local Open Scope nat_scope.

(** ** Cards *)

Inductive Suit := HEARTS | DIAMONDS | CLUBS | SPADES.

Inductive Rank := NINE | TEN | JACK | QUEEN | KING | ACE.

#[global] Instance Suit_eq_dec : EqDecision Suit.
Proof. solve_decision. Defined.

#[global] Instance Rank_eq_dec : EqDecision Rank.
Proof. solve_decision. Defined.

(** [Rank.value] *)
Definition rank_value (r : Rank) : nat :=
  match r with
  | NINE => 9 | TEN => 10 | JACK => 11 | QUEEN => 12 | KING => 13 | ACE => 14
  end.

(** Iteration order of [for suit in Suit] and [for rank in Rank]. *)
Definition all_suits : list Suit := [HEARTS; DIAMONDS; CLUBS; SPADES].
Definition all_ranks : list Rank := [NINE; TEN; JACK; QUEEN; KING; ACE].

Record Card := mkCard { suit : Suit; rank : Rank }.

#[global] Instance Card_eq_dec : EqDecision Card.
Proof. solve_decision. Defined.

(** [trump_suit in [HEARTS, DIAMONDS] and card.suit in [HEARTS, DIAMONDS]
    or trump_suit in [CLUBS, SPADES] and card.suit in [CLUBS, SPADES]] *)
Definition is_red (s : Suit) : bool :=
  match s with HEARTS | DIAMONDS => true | _ => false end.

Definition is_black (s : Suit) : bool :=
  match s with CLUBS | SPADES => true | _ => false end.

Definition same_color (trump s : Suit) : bool :=
  (is_red trump && is_red s) || (is_black trump && is_black s).

(** ** The engine's pure card functions ([game_logic.py]) *)

(** [EuchreGame.get_card_value] *)
Definition get_card_value (card : Card) (trump_suit leading_suit : Suit) : nat :=
  if bool_decide (rank card = JACK) && bool_decide (suit card = trump_suit) then 100
  else if bool_decide (rank card = JACK) && same_color trump_suit (suit card) then 99
  else if bool_decide (suit card = trump_suit) then 50 + rank_value (rank card)
  else if bool_decide (suit card = leading_suit) then rank_value (rank card)
  else 0.

(** [EuchreGame.is_trump], with [self.trump_suit] as an argument *)
Definition is_trump (trump_suit : option Suit) (card : Card) : bool :=
  match trump_suit with
  | None => false
  | Some t =>
      if bool_decide (suit card = t) then true
      else if bool_decide (rank card = JACK) then same_color t (suit card)
      else false
  end.

(** [EuchreGame.get_effective_suit], with [self.trump_suit] as an argument *)
Definition get_effective_suit (trump_suit : option Suit) (card : Card) : Suit :=
  match trump_suit with
  | Some t =>
      if bool_decide (rank card = JACK) && same_color t (suit card) then t
      else suit card
  | None => suit card
  end.

(** ** The AI's card functions ([ai_player.py]) *)

Module EuchreAI.

Record AIPersonality := mkPersonality {
  name : string;
  aggression : float;
  conservatism : float;
  partnership_focus : float;
  risk_tolerance : float
}.

(** [AI_PERSONALITIES] *)
Definition AI_PERSONALITIES : list AIPersonality :=
  [ mkPersonality "Ada" 0.7 0.3 0.8 0.6;
    mkPersonality "Bob" 0.3 0.7 0.6 0.4;
    mkPersonality "Clara" 0.8 0.2 0.5 0.8;
    mkPersonality "Dave" 0.5 0.5 0.9 0.5 ].

(** [EuchreAI.is_same_color_jack] *)
Definition is_same_color_jack (card : Card) (trump_suit : Suit) : bool :=
  if negb (bool_decide (rank card = JACK)) then false
  else same_color trump_suit (suit card).

(** [EuchreAI.is_trump] *)
Definition is_trump (card : Card) (trump_suit : Suit) : bool :=
  if bool_decide (suit card = trump_suit) then true
  else bool_decide (rank card = JACK) && is_same_color_jack card trump_suit.

(** [EuchreAI.get_effective_suit] *)
Definition get_effective_suit (card : Card) (trump_suit : option Suit) : Suit :=
  match trump_suit with
  | Some t =>
      if bool_decide (rank card = JACK) && is_same_color_jack card t then t
      else suit card
  | None => suit card
  end.

(** [EuchreAI.get_card_value]: no leading suit is passed. *)
Definition get_card_value (card : Card) (trump_suit : Suit) : nat :=
  if bool_decide (rank card = JACK) && bool_decide (suit card = trump_suit) then 100
  else if bool_decide (rank card = JACK) && is_same_color_jack card trump_suit then 99
  else if bool_decide (suit card = trump_suit) then 50 + rank_value (rank card)
  else rank_value (rank card).

(** [EuchreAI.evaluate_hand_strength]: the loop over the hand keeps
    [(strength, trump_count, off_aces)]. *)
Definition strength_step (trump_suit : Suit)
    (acc : float * nat * nat) (card : Card) : float * nat * nat :=
  let '(strength, trump_count, off_aces) := acc in
  if is_trump card trump_suit then
    if bool_decide (rank card = JACK) && bool_decide (suit card = trump_suit)
    then ((strength + 0.25)%float, S trump_count, off_aces)
    else if bool_decide (rank card = JACK) && is_same_color_jack card trump_suit
    then ((strength + 0.20)%float, S trump_count, off_aces)
    else if bool_decide (rank card = ACE)
    then ((strength + 0.15)%float, S trump_count, off_aces)
    else ((strength + 0.08)%float, S trump_count, off_aces)
  else if bool_decide (rank card = ACE)
  then ((strength + 0.05)%float, trump_count, S off_aces)
  else acc.

(** The conversion of a Python [int] count to [float]. *)
Definition float_of_nat (n : nat) : float :=
  Nat.iter n (fun x => (x + 1.0)%float) 0.0%float.

Definition float_min (a b : float) : float :=
  if (b <? a)%float then b else a.

Definition evaluate_hand_strength (hand : list Card) (trump_suit : option Suit) : float :=
  match trump_suit with
  | None => 0.0%float
  | Some t =>
      let '(strength, trump_count, off_aces) :=
        foldl (strength_step t) (0.0%float, 0, 0) hand in
      let strength :=
        if 3 <=? trump_count then (strength + 0.15)%float
        else if 2 <=? trump_count then (strength + 0.08)%float
        else strength in
      let strength := (strength + float_of_nat off_aces * 0.03)%float in
      float_min strength 1.0%float
  end.

(** [EuchreAI.should_go_alone]; [rnd] is the value [random.random()]
    returns when the last line is reached. *)
Definition should_go_alone (personality : AIPersonality) (rnd : float)
    (hand : list Card) (trump_suit : Suit) : bool :=
  if (risk_tolerance personality <? 0.3)%float then false
  else
    let strength := evaluate_hand_strength hand (Some trump_suit) in
    let threshold := (0.8 - risk_tolerance personality * 0.2)%float in
    let has_right_bower :=
      existsb (fun card => bool_decide (rank card = JACK) &&
                           bool_decide (suit card = trump_suit)) hand in
    let has_left_bower :=
      existsb (fun card => bool_decide (rank card = JACK) &&
                           is_same_color_jack card trump_suit) hand in
    let trump_count := length (filter (fun card => is_trump card trump_suit = true) hand) in
    if has_right_bower && has_left_bower && (3 <=? trump_count) then true
    else (threshold <=? strength)%float && (rnd <? aggression personality)%float.

End EuchreAI.

(** ** The game state ([game_logic.py]) *)

Inductive GamePhase :=
  | WAITING_FOR_PLAYERS | DEALING | TRUMP_SELECTION | PLAYING
  | ROUND_COMPLETE | GAME_COMPLETE.

#[global] Instance GamePhase_eq_dec : EqDecision GamePhase.
Proof. solve_decision. Defined.

(** [Player]; the field [id] is called [ident] here. *)
Record Player := mkPlayer {
  ident : string;
  name : string;
  hand : list Card;
  position : nat;
  is_connected : bool;
  is_ai : bool
}.

Definition set_hand (h : list Card) (p : Player) : Player :=
  mkPlayer (ident p) (name p) h (position p) (is_connected p) (is_ai p).

(** [Trick]: [cards] holds the pairs [(player_id, card)] in play order. *)
Record Trick := mkTrick {
  cards : list (string * Card);
  leader : string;
  winner : string
}.

Definition set_cards (v : list (string * Card)) (t : Trick) : Trick :=
  mkTrick v (leader t) (winner t).
Definition set_leader (v : string) (t : Trick) : Trick :=
  mkTrick (cards t) v (winner t).
Definition set_winner (v : string) (t : Trick) : Trick :=
  mkTrick (cards t) (leader t) v.

(** [Trick()] *)
Definition empty_trick : Trick := mkTrick [] "" "".

(** The attributes of [EuchreGame].  [team_scores] is the dictionary
    [{0: s0, 1: s1}], kept as the pair [(s0, s1)]: no key is ever added to
    it or removed from it. *)
Record EuchreGame := mkGame {
  room_code : string;
  players : gmap string Player;
  player_order : list string;
  phase : GamePhase;
  deck : list Card;
  trump_suit : option Suit;
  trump_card : option Card;
  dealer_index : nat;
  current_player_index : nat;
  current_trick : Trick;
  completed_tricks : list Trick;
  trump_maker : option string;
  going_alone : option string;
  team_scores : nat * nat;
  round_points : nat;
  trump_selection_round : nat;
  trump_selection_player_index : nat
}.

(** Assignments [self.field = v]. *)
Definition set_players (v : gmap string Player) (g : EuchreGame) : EuchreGame :=
  mkGame (room_code g) v (player_order g) (phase g) (deck g) (trump_suit g) (trump_card
    g) (dealer_index g) (current_player_index g) (current_trick g) (completed_tricks g)
    (trump_maker g) (going_alone g) (team_scores g) (round_points g)
    (trump_selection_round g) (trump_selection_player_index g).

Definition set_player_order (v : list string) (g : EuchreGame) : EuchreGame :=
  mkGame (room_code g) (players g) v (phase g) (deck g) (trump_suit g) (trump_card g)
    (dealer_index g) (current_player_index g) (current_trick g) (completed_tricks g)
    (trump_maker g) (going_alone g) (team_scores g) (round_points g)
    (trump_selection_round g) (trump_selection_player_index g).

Definition set_phase (v : GamePhase) (g : EuchreGame) : EuchreGame :=
  mkGame (room_code g) (players g) (player_order g) v (deck g) (trump_suit g)
    (trump_card g) (dealer_index g) (current_player_index g) (current_trick g)
    (completed_tricks g) (trump_maker g) (going_alone g) (team_scores g) (round_points
    g) (trump_selection_round g) (trump_selection_player_index g).

Definition set_deck (v : list Card) (g : EuchreGame) : EuchreGame :=
  mkGame (room_code g) (players g) (player_order g) (phase g) v (trump_suit g)
    (trump_card g) (dealer_index g) (current_player_index g) (current_trick g)
    (completed_tricks g) (trump_maker g) (going_alone g) (team_scores g) (round_points
    g) (trump_selection_round g) (trump_selection_player_index g).

Definition set_trump_suit (v : option Suit) (g : EuchreGame) : EuchreGame :=
  mkGame (room_code g) (players g) (player_order g) (phase g) (deck g) v (trump_card g)
    (dealer_index g) (current_player_index g) (current_trick g) (completed_tricks g)
    (trump_maker g) (going_alone g) (team_scores g) (round_points g)
    (trump_selection_round g) (trump_selection_player_index g).

Definition set_trump_card (v : option Card) (g : EuchreGame) : EuchreGame :=
  mkGame (room_code g) (players g) (player_order g) (phase g) (deck g) (trump_suit g) v
    (dealer_index g) (current_player_index g) (current_trick g) (completed_tricks g)
    (trump_maker g) (going_alone g) (team_scores g) (round_points g)
    (trump_selection_round g) (trump_selection_player_index g).

Definition set_dealer_index (v : nat) (g : EuchreGame) : EuchreGame :=
  mkGame (room_code g) (players g) (player_order g) (phase g) (deck g) (trump_suit g)
    (trump_card g) v (current_player_index g) (current_trick g) (completed_tricks g)
    (trump_maker g) (going_alone g) (team_scores g) (round_points g)
    (trump_selection_round g) (trump_selection_player_index g).

Definition set_current_player_index (v : nat) (g : EuchreGame) : EuchreGame :=
  mkGame (room_code g) (players g) (player_order g) (phase g) (deck g) (trump_suit g)
    (trump_card g) (dealer_index g) v (current_trick g) (completed_tricks g)
    (trump_maker g) (going_alone g) (team_scores g) (round_points g)
    (trump_selection_round g) (trump_selection_player_index g).

Definition set_current_trick (v : Trick) (g : EuchreGame) : EuchreGame :=
  mkGame (room_code g) (players g) (player_order g) (phase g) (deck g) (trump_suit g)
    (trump_card g) (dealer_index g) (current_player_index g) v (completed_tricks g)
    (trump_maker g) (going_alone g) (team_scores g) (round_points g)
    (trump_selection_round g) (trump_selection_player_index g).

Definition set_completed_tricks (v : list Trick) (g : EuchreGame) : EuchreGame :=
  mkGame (room_code g) (players g) (player_order g) (phase g) (deck g) (trump_suit g)
    (trump_card g) (dealer_index g) (current_player_index g) (current_trick g) v
    (trump_maker g) (going_alone g) (team_scores g) (round_points g)
    (trump_selection_round g) (trump_selection_player_index g).

Definition set_trump_maker (v : option string) (g : EuchreGame) : EuchreGame :=
  mkGame (room_code g) (players g) (player_order g) (phase g) (deck g) (trump_suit g)
    (trump_card g) (dealer_index g) (current_player_index g) (current_trick g)
    (completed_tricks g) v (going_alone g) (team_scores g) (round_points g)
    (trump_selection_round g) (trump_selection_player_index g).

Definition set_going_alone (v : option string) (g : EuchreGame) : EuchreGame :=
  mkGame (room_code g) (players g) (player_order g) (phase g) (deck g) (trump_suit g)
    (trump_card g) (dealer_index g) (current_player_index g) (current_trick g)
    (completed_tricks g) (trump_maker g) v (team_scores g) (round_points g)
    (trump_selection_round g) (trump_selection_player_index g).

Definition set_team_scores (v : nat * nat) (g : EuchreGame) : EuchreGame :=
  mkGame (room_code g) (players g) (player_order g) (phase g) (deck g) (trump_suit g)
    (trump_card g) (dealer_index g) (current_player_index g) (current_trick g)
    (completed_tricks g) (trump_maker g) (going_alone g) v (round_points g)
    (trump_selection_round g) (trump_selection_player_index g).

Definition set_trump_selection_round (v : nat) (g : EuchreGame) : EuchreGame :=
  mkGame (room_code g) (players g) (player_order g) (phase g) (deck g) (trump_suit g)
    (trump_card g) (dealer_index g) (current_player_index g) (current_trick g)
    (completed_tricks g) (trump_maker g) (going_alone g) (team_scores g) (round_points
    g) v (trump_selection_player_index g).

Definition set_trump_selection_player_index (v : nat) (g : EuchreGame) : EuchreGame :=
  mkGame (room_code g) (players g) (player_order g) (phase g) (deck g) (trump_suit g)
    (trump_card g) (dealer_index g) (current_player_index g) (current_trick g)
    (completed_tricks g) (trump_maker g) (going_alone g) (team_scores g) (round_points
    g) (trump_selection_round g) v.

(** [EuchreGame.__init__] *)
Definition new_game (room_code : string) : EuchreGame :=
  mkGame room_code ∅ [] WAITING_FOR_PLAYERS [] None None 0 0 empty_trick [] None None
    (0, 0) 0 1 0.

(** Reading and updating a two-key dictionary [{0: a, 1: b}] at a key that
    is 0 or 1. *)
Definition team_get (team : nat) (d : nat * nat) : nat :=
  if team =? 0 then d.1 else d.2.

Definition team_add (team n : nat) (d : nat * nat) : nat * nat :=
  if team =? 0 then (d.1 + n, d.2) else (d.1, d.2 + n).

(** ** Python computations: state, returned values and exceptions *)

Inductive exn := KeyError | IndexError | ValueError | AttributeError.

Inductive outcome (A : Type) :=
  | Returned (a : A)
  | Raised (e : exn).
Arguments Returned {A} a.
Arguments Raised {A} e.

(** A method of [EuchreGame]: from the state before the call to the state
    after it, with what the call returned or raised. *)
Definition M (A : Type) : Type := EuchreGame -> EuchreGame * outcome A.

Definition ret {A} (a : A) : M A := fun g => (g, Returned a).
Definition raise {A} (e : exn) : M A := fun g => (g, Raised e).
Definition bind {A B} (m : M A) (k : A -> M B) : M B :=
  fun g =>
    match m g with
    | (g', Returned a) => k a g'
    | (g', Raised e) => (g', Raised e)
    end.
Definition get : M EuchreGame := fun g => (g, Returned g).
Definition modify (f : EuchreGame -> EuchreGame) : M unit :=
  fun g => (f g, Returned tt).
Definition from_option {A} (e : exn) (o : option A) : M A :=
  match o with Some a => ret a | None => raise e end.

Declare Scope py_scope.
Delimit Scope py_scope with py.
Notation "x <- m ;; k" := (bind m (fun x => k))
  (at level 100, m at next level, right associativity) : py_scope.
Notation "m ;; k" := (bind m (fun _ => k))
  (at level 100, right associativity) : py_scope.

(** The state and the outcome of a finished call. *)
Definition state_of {A} (r : EuchreGame * outcome A) : EuchreGame := r.1.
Definition outcome_of {A} (r : EuchreGame * outcome A) : outcome A := r.2.

(** ** Dealing *)

(** [EuchreGame.create_deck] *)
Definition create_deck : list Card :=
  suit ← all_suits; rank ← all_ranks; [mkCard suit rank].

Section Engine.

Local Open Scope py_scope.

(** [random.shuffle(self.deck)] leaves some arrangement of the fresh deck
    in [self.deck]; [shuffled] is that arrangement.  The results below
    that need it assume [create_deck ≡ₚ shuffled]. *)
Variable shuffled : list Card.

(** One pass of the inner loop [for player_id in self.player_order] of
    [deal_cards], from [card_index] on. *)
Fixpoint deal_pass (order : list string) (card_index : nat) : M nat :=
  match order with
  | [] => ret card_index
  | player_id :: rest =>
      g <- get ;;
      player <- from_option KeyError (players g !! player_id) ;;
      card <- from_option IndexError (deck g !! card_index) ;;
      modify (set_players
                (<[player_id := set_hand (hand player ++ [card]) player]> (players g))) ;;
      deal_pass rest (S card_index)
  end.

(** The outer loop [for _ in range(n)]. *)
Fixpoint deal_passes (n : nat) (card_index : nat) : M nat :=
  match n with
  | 0 => ret card_index
  | S n' =>
      g <- get ;;
      card_index' <- deal_pass (player_order g) card_index ;;
      deal_passes n' card_index'
  end.

(** [EuchreGame.deal_cards] *)
Definition deal_cards : M unit :=
  modify (set_deck shuffled) ;;
  modify (fun g => set_players (set_hand [] <$> players g) g) ;;
  card_index <- deal_passes 5 0 ;;
  g <- get ;;
  trump <- from_option IndexError (deck g !! card_index) ;;
  modify (set_trump_card (Some trump)) ;;
  modify (set_phase TRUMP_SELECTION) ;;
  modify (set_trump_selection_round 1) ;;
  modify (fun g => set_trump_selection_player_index ((dealer_index g + 1) mod 4) g).

(** [EuchreGame.start_game] *)
Definition start_game : M bool :=
  g <- get ;;
  if negb (size (players g) =? 4) then ret false
  else
    modify (set_phase DEALING) ;;
    deal_cards ;;
    ret true.

(** [EuchreGame.add_player] *)
Definition add_player (player_id name : string) (is_ai : bool) : M bool :=
  g <- get ;;
  if 4 <=? size (players g) then ret false
  else
    let position := size (players g) in
    modify (set_players
              (<[player_id := mkPlayer player_id name [] position true is_ai]>
                 (players g))) ;;
    modify (fun g => set_player_order (player_order g ++ [player_id]) g) ;;
    g <- get ;;
    (if size (players g) =? 4 then (_ <- start_game ;; ret tt) else ret tt) ;;
    ret true.

(** ** Playing a card *)

(** [EuchreGame.can_play_card] *)
Definition can_play_card (g : EuchreGame) (player_id : string) (card : Card) : bool :=
  match players g !! player_id with
  | None => false
  | Some player =>
      if negb (bool_decide (card ∈ hand player)) then false
      else
        match cards (current_trick g) with
        | [] => true
        | first :: _ =>
            let leading_card := first.2 in
            let leading_suit := get_effective_suit (trump_suit g) leading_card in
            let has_leading_suit :=
              existsb (fun c => bool_decide
                                  (get_effective_suit (trump_suit g) c = leading_suit))
                      (hand player) in
            if has_leading_suit
            then bool_decide (get_effective_suit (trump_suit g) card = leading_suit)
            else true
        end
  end.

(** [list.remove(x)]: drops the first element equal to [x]; [None] stands
    for Python's [ValueError] when there is none. *)
Fixpoint list_remove_first (x : Card) (l : list Card) : option (list Card) :=
  match l with
  | [] => None
  | y :: l' =>
      if bool_decide (y = x) then Some l'
      else (y ::.) <$> list_remove_first x l'
  end.

(** [list.index(x)] *)
Fixpoint list_index (x : string) (l : list string) : option nat :=
  match l with
  | [] => None
  | y :: l' => if bool_decide (y = x) then Some 0 else S <$> list_index x l'
  end.

(** The loop of [complete_trick] over [enumerate(cards[1:], 1)]: the
    accumulator is [(winner_idx, highest_value)]. *)
Definition winner_step (trump_suit leading_suit : Suit)
    (acc : nat * nat) (entry : nat * (string * Card)) : nat * nat :=
  let card_value := get_card_value entry.2.2 trump_suit leading_suit in
  if acc.2 <? card_value then (entry.1, card_value) else acc.

Definition winner_index (trump_suit leading_suit : Suit)
    (trick_cards : list (string * Card)) (leading_card : Card) : nat :=
  (foldl (winner_step trump_suit leading_suit)
         (0, get_card_value leading_card trump_suit leading_suit)
         (zip (seq 1 (length (tail trick_cards))) (tail trick_cards))).1.

(** Python's truth value of [self.going_alone], a player id or [None]. *)
Definition truthy (o : option string) : bool :=
  match o with
  | None => false
  | Some s => negb (bool_decide (s = ""))
  end.

(** The loop of [complete_round] over [self.completed_tricks]. *)
Fixpoint count_team_tricks (tricks : list Trick) (team_tricks : nat * nat)
    : M (nat * nat) :=
  match tricks with
  | [] => ret team_tricks
  | trick :: rest =>
      g <- get ;;
      winner_player <- from_option KeyError (players g !! winner trick) ;;
      let team := position winner_player mod 2 in
      count_team_tricks rest (team_add team 1 team_tricks)
  end.

(** The points [complete_round] computes. *)
Definition round_points_for (winning_team trump_making_team tricks_won : nat)
    (alone : bool) : nat :=
  if winning_team =? trump_making_team then
    if alone then (if tricks_won =? 5 then 4 else 1)
    else (if tricks_won =? 5 then 2 else 1)
  else 2.

(** [EuchreGame.start_next_round] *)
Definition start_next_round : M unit :=
  modify (set_completed_tricks []) ;;
  modify (set_trump_suit None) ;;
  modify (set_trump_card None) ;;
  modify (set_trump_maker None) ;;
  modify (set_going_alone None) ;;
  modify (fun g => set_dealer_index ((dealer_index g + 1) mod 4) g) ;;
  deal_cards.

(** [EuchreGame.complete_round]; [self.players[self.trump_maker]] raises
    [KeyError] also when [trump_maker] is [None]. *)
Definition complete_round : M unit :=
  g <- get ;;
  team_tricks <- count_team_tricks (completed_tricks g) (0, 0) ;;
  maker <- from_option KeyError (trump_maker g ≫= fun id => players g !! id) ;;
  let trump_making_team := position maker mod 2 in
  let winning_team := if team_tricks.2 <? team_tricks.1 then 0 else 1 in
  let tricks_won := team_get winning_team team_tricks in
  let points :=
    round_points_for winning_team trump_making_team tricks_won
                     (truthy (going_alone g)) in
  modify (fun g => set_team_scores (team_add winning_team points (team_scores g)) g) ;;
  g <- get ;;
  if 10 <=? (team_scores g).1 `max` (team_scores g).2
  then modify (set_phase GAME_COMPLETE)
  else start_next_round.

(** [EuchreGame.complete_trick] *)
Definition complete_trick : M unit :=
  g <- get ;;
  match trump_suit g with
  | None => ret tt
  | Some trump =>
      if negb (length (cards (current_trick g)) =? 4) then ret tt
      else
        first <- from_option IndexError (cards (current_trick g) !! 0) ;;
        let leading_card := first.2 in
        let leading_suit := get_effective_suit (trump_suit g) leading_card in
        let winner_idx :=
          winner_index trump leading_suit (cards (current_trick g)) leading_card in
        won <- from_option IndexError (cards (current_trick g) !! winner_idx) ;;
        let winner_id := won.1 in
        modify (fun g => set_current_trick (set_winner winner_id (current_trick g)) g) ;;
        modify (fun g => set_completed_tricks
                           (completed_tricks g ++ [current_trick g]) g) ;;
        modify (set_current_trick empty_trick) ;;
        g <- get ;;
        seat <- from_option ValueError (list_index winner_id (player_order g)) ;;
        modify (set_current_player_index seat) ;;
        g <- get ;;
        if length (completed_tricks g) =? 5 then complete_round else ret tt
  end.

(** [EuchreGame.play_card] *)
Definition play_card (player_id : string) (card : Card) : M bool :=
  g <- get ;;
  if negb (can_play_card g player_id card) then ret false
  else
    player <- from_option KeyError (players g !! player_id) ;;
    hand' <- from_option ValueError (list_remove_first card (hand player)) ;;
    modify (set_players (<[player_id := set_hand hand' player]> (players g))) ;;
    (if length (cards (current_trick g)) =? 0
     then modify (fun g => set_current_trick (set_leader player_id (current_trick g)) g)
     else ret tt) ;;
    modify (fun g => set_current_trick
                       (set_cards (cards (current_trick g) ++ [(player_id, card)])
                                  (current_trick g)) g) ;;
    g <- get ;;
    (if length (cards (current_trick g)) =? 4
     then complete_trick
     else modify (fun g => set_current_player_index
                             ((current_player_index g + 1) mod 4) g)) ;;
    ret true.

(** ** Trump selection *)

(** [EuchreGame.start_playing_phase] *)
Definition start_playing_phase : M unit :=
  modify (set_phase PLAYING) ;;
  modify (fun g => set_current_player_index ((dealer_index g + 1) mod 4) g).

(** [EuchreGame.handle_trump_selection]; [suit] is [None] when the caller
    passes no suit.  [self.trump_card.suit] raises [AttributeError] when
    [trump_card] is [None]. *)
Definition handle_trump_selection (player_id action : string) (suit_arg : option Suit)
    : M bool :=
  g <- get ;;
  if negb (bool_decide (phase g = TRUMP_SELECTION)) then ret false
  else
    current_player_id <-
      from_option IndexError (player_order g !! trump_selection_player_index g) ;;
    if negb (bool_decide (player_id = current_player_id)) then ret false
    else if bool_decide (action = "order_up") && (trump_selection_round g =? 1) then
      turned <- from_option AttributeError (trump_card g) ;;
      modify (set_trump_suit (Some (suit turned))) ;;
      modify (set_trump_maker (Some player_id)) ;;
      dealer_id <- from_option IndexError (player_order g !! dealer_index g) ;;
      dealer <- from_option KeyError (players g !! dealer_id) ;;
      modify (set_players
                (<[dealer_id := set_hand (hand dealer ++ [turned]) dealer]> (players g))) ;;
      start_playing_phase ;;
      ret true
    else if bool_decide (action = "name_trump") && (trump_selection_round g =? 2)
            && bool_decide (is_Some suit_arg) then
      turned <- from_option AttributeError (trump_card g) ;;
      if negb (bool_decide (suit_arg = Some (suit turned))) then
        modify (set_trump_suit suit_arg) ;;
        modify (set_trump_maker (Some player_id)) ;;
        start_playing_phase ;;
        ret true
      else ret false
    else if bool_decide (action = "pass") then
      modify (set_trump_selection_player_index
                ((trump_selection_player_index g + 1) mod 4)) ;;
      g <- get ;;
      (if (trump_selection_round g =? 1) &&
          (trump_selection_player_index g =? (dealer_index g + 1) mod 4)
       then modify (set_trump_selection_round 2)
       else if (trump_selection_round g =? 2) &&
               (trump_selection_player_index g =? (dealer_index g + 1) mod 4)
       then deal_cards
       else ret tt) ;;
      ret true
    else ret false.

(** [EuchreGame.handle_going_alone] *)
Definition handle_going_alone (player_id : string) (alone : bool) : M bool :=
  g <- get ;;
  if bool_decide (Some player_id = trump_maker g) then
    modify (set_going_alone (if alone then Some player_id else None)) ;;
    ret true
  else ret false.

End Engine.

(** ** Calls on a game *)

(** The calls the server makes on an [EuchreGame]. *)
Inductive call :=
  | AddPlayer (player_id name : string) (is_ai : bool)
  | StartGame
  | HandleTrumpSelection (player_id action : string) (suit_arg : option Suit)
  | HandleGoingAlone (player_id : string) (alone : bool)
  | PlayCard (player_id : string) (card : Card).

Definition exec (shuffled : list Card) (c : call) : M bool :=
  match c with
  | AddPlayer player_id name is_ai => add_player shuffled player_id name is_ai
  | StartGame => start_game shuffled
  | HandleTrumpSelection player_id action suit_arg =>
      handle_trump_selection shuffled player_id action suit_arg
  | HandleGoingAlone player_id alone => handle_going_alone player_id alone
  | PlayCard player_id card => play_card shuffled player_id card
  end.

(** The state after a call, whether it returned or raised. *)
Definition after (shuffled : list Card) (c : call) (g : EuchreGame) : EuchreGame :=
  state_of (exec shuffled c g).

(** A run of calls, every deal of which finds [shuffled] in the deck. *)
Definition run (shuffled : list Card) (calls : list call) (g : EuchreGame) : EuchreGame :=
  foldl (fun g c => after shuffled c g) g calls.

(** The states a game can be in: a new game, then any calls with any
    arguments, each deal with its own arrangement of the deck. *)
Inductive reachable : EuchreGame → Prop :=
  | reachable_new room : reachable (new_game room)
  | reachable_call g shuffled c :
      reachable g → create_deck ≡ₚ shuffled → reachable (after shuffled c g).

(** ** Python values: what [to_dict] and [get_game_state] build *)

(** The values that travel between the engine, the AI and the server: [None],
    booleans, integers, strings, lists, tuples and dictionaries.  A
    dictionary is the list of its items in insertion order; its keys are
    strings or integers. *)
Inductive pyval :=
  | PNone
  | PBool (b : bool)
  | PInt (n : Z)
  | PStr (s : string)
  | PList (l : list pyval)
  | PTuple (l : list pyval)
  | PDict (d : list (pyval * pyval)).

Definition pydict := list (pyval * pyval).

(** [d[key]] for a string key: the value of the first item under that key;
    [None] stands for [KeyError]. *)
Fixpoint dict_get (key : string) (d : pydict) : option pyval :=
  match d with
  | [] => None
  | (PStr k, v) :: d' => if bool_decide (k = key) then Some v else dict_get key d'
  | _ :: d' => dict_get key d'
  end.

(** Python's truth value. *)
Definition py_truthy (v : pyval) : bool :=
  match v with
  | PNone => false
  | PBool b => b
  | PInt n => negb (bool_decide (n = 0%Z))
  | PStr s => negb (bool_decide (s = ""))
  | PList l | PTuple l => negb (bool_decide (length l = 0))
  | PDict d => negb (bool_decide (length d = 0))
  end.

(** A value computed without the game state: returned, or an exception. *)
#[global] Instance outcome_ret : MRet outcome := fun A a => Returned a.
#[global] Instance outcome_bind : MBind outcome := fun A B k o =>
  match o with Returned a => k a | Raised e => Raised e end.

Definition or_raise {A} (e : exn) (o : option A) : outcome A :=
  match o with Some a => Returned a | None => Raised e end.

(** [Suit.value] and [Rank.name.lower()] *)
Definition suit_value (s : Suit) : string :=
  match s with
  | HEARTS => "hearts" | DIAMONDS => "diamonds" | CLUBS => "clubs" | SPADES => "spades"
  end.

Definition rank_name_lower (r : Rank) : string :=
  match r with
  | NINE => "nine" | TEN => "ten" | JACK => "jack" | QUEEN => "queen"
  | KING => "king" | ACE => "ace"
  end.

(** [GamePhase.value] *)
Definition phase_value (p : GamePhase) : string :=
  match p with
  | WAITING_FOR_PLAYERS => "waiting_for_players" | DEALING => "dealing"
  | TRUMP_SELECTION => "trump_selection" | PLAYING => "playing"
  | ROUND_COMPLETE => "round_complete" | GAME_COMPLETE => "game_complete"
  end.

(** [Suit(value)] and [Rank(value)]: the member with that value, or
    [ValueError]. *)
Definition Suit_of_value (v : pyval) : outcome Suit :=
  match v with
  | PStr s =>
      or_raise ValueError
        (head (filter (fun m => suit_value m = s) all_suits))
  | _ => Raised ValueError
  end.

Definition Rank_of_value (v : pyval) : outcome Rank :=
  match v with
  | PInt n =>
      or_raise ValueError
        (head (filter (fun m => Z.of_nat (rank_value m) = n) all_ranks))
  | _ => Raised ValueError
  end.

(** [Card.__str__] *)
Definition card_str (c : Card) : string :=
  rank_name_lower (rank c) +:+ "_of_" +:+ suit_value (suit c).

(** [Card.to_dict] *)
Definition card_to_dict (c : Card) : pydict :=
  [ (PStr "suit", PStr (suit_value (suit c)));
    (PStr "rank", PInt (Z.of_nat (rank_value (rank c))));
    (PStr "display_name", PStr (card_str c)) ].

(** The card the server builds from the [card] entry of a [play_card] or
    [discard_card] message ([handle_message] in [main.py]):
    [Card(Suit(card_data['suit']), Rank(card_data['rank']))]. *)
Definition card_of_dict (card_data : pydict) : outcome Card :=
  suit_v ← or_raise KeyError (dict_get "suit" card_data);
  suit ← Suit_of_value suit_v;
  rank_v ← or_raise KeyError (dict_get "rank" card_data);
  rank ← Rank_of_value rank_v;
  mret (mkCard suit rank).

(** The entry of a player in the [players] list of [get_game_state]. *)
Definition player_entry (p : Player) : pyval :=
  PDict
    [ (PStr "id", PStr (ident p));
      (PStr "name", PStr (name p));
      (PStr "position", PInt (Z.of_nat (position p)));
      (PStr "hand_size", PInt (Z.of_nat (length (hand p))));
      (PStr "is_connected", PBool (is_connected p));
      (PStr "is_ai", PBool (is_ai p)) ].

Definition py_option_str (o : option string) : pyval :=
  match o with Some s => PStr s | None => PNone end.

(** [EuchreGame.get_game_state].  [keys] lists the keys of [self.players]
    in the order in which the dictionary yields them (its insertion order,
    which the finite map does not record). *)
Definition get_game_state (keys : list string) (g : EuchreGame) (player_id : string)
    : pydict :=
  match players g !! player_id with
  | None => []
  | Some player =>
      [ (PStr "room_code", PStr (room_code g));
        (PStr "phase", PStr (phase_value (phase g)));
        (PStr "player_id", PStr player_id);
        (PStr "player_position", PInt (Z.of_nat (position player)));
        (PStr "players",
           PList (player_entry <$> omap (fun id => players g !! id) keys));
        (PStr "hand", PList ((fun c => PDict (card_to_dict c)) <$> hand player));
        (PStr "trump_suit",
           match trump_suit g with
           | Some s => PStr (suit_value s)
           | None => PNone
           end);
        (PStr "trump_card",
           match trump_card g with
           | Some c => PDict (card_to_dict c)
           | None => PNone
           end);
        (PStr "current_trick",
           PDict
             [ (PStr "cards",
                  PList ((fun pc => PTuple [PStr pc.1; PDict (card_to_dict pc.2)])
                           <$> cards (current_trick g)));
               (PStr "leader", PStr (leader (current_trick g))) ]);
        (PStr "completed_tricks_count",
           PInt (Z.of_nat (length (completed_tricks g))));
        (PStr "team_scores",
           PDict [ (PInt 0, PInt (Z.of_nat (team_scores g).1));
                   (PInt 1, PInt (Z.of_nat (team_scores g).2)) ]);
        (PStr "dealer_index", PInt (Z.of_nat (dealer_index g)));
        (PStr "current_player_index", PInt (Z.of_nat (current_player_index g)));
        (PStr "trump_selection_player_index",
           PInt (Z.of_nat (trump_selection_player_index g)));
        (PStr "trump_selection_round", PInt (Z.of_nat (trump_selection_round g)));
        (PStr "trump_maker", py_option_str (trump_maker g));
        (PStr "going_alone", py_option_str (going_alone g)) ]
  end.

(** ** The AI's choices ([ai_player.py]) *)

(** Python's [max(seq, key=key)] and [min(seq, key=key)]: the first element
    with the largest (the smallest) key; [None] stands for the [ValueError]
    of an empty sequence. *)
Definition py_max {A} (key : A → nat) (l : list A) : option A :=
  match l with
  | [] => None
  | x :: l' => Some (foldl (fun best y => if key best <? key y then y else best) x l')
  end.

Definition py_min {A} (key : A → nat) (l : list A) : option A :=
  match l with
  | [] => None
  | x :: l' => Some (foldl (fun best y => if key y <? key best then y else best) x l')
  end.

(** [random.choice(seq)]: [pick] is the draw of the generator, the index is
    [pick] reduced to [range(len(seq))]; an empty sequence raises
    [IndexError]. *)
Definition random_choice {A} (pick : nat) (l : list A) : outcome A :=
  match l with
  | [] => Raised IndexError
  | _ => or_raise IndexError (l !! (pick mod length l))
  end.

(** [EuchreAI.get_playable_cards] *)
Definition get_playable_cards (hand : list Card)
    (current_trick : list (string * Card)) (trump_suit : option Suit) : list Card :=
  match current_trick with
  | [] => hand
  | first :: _ =>
      let leading_card := first.2 in
      let leading_suit := EuchreAI.get_effective_suit leading_card trump_suit in
      let same_suit_cards :=
        filter (fun card => EuchreAI.get_effective_suit card trump_suit = leading_suit)
               hand in
      match same_suit_cards with
      | [] => hand
      | _ => same_suit_cards
      end
  end.

(** [EuchreAI.get_winning_card]: the loop keeps [(best_card, best_value)];
    the result is [None] for an empty trick. *)
Definition get_winning_card (current_trick : list (string * Card)) (trump_suit : Suit)
    : option Card :=
  match current_trick with
  | [] => None
  | first :: rest =>
      let leading_card := first.2 in
      Some (foldl (fun best entry =>
                     let card_value := EuchreAI.get_card_value entry.2 trump_suit in
                     if best.2 <? card_value then (entry.2, card_value) else best)
                  (leading_card, EuchreAI.get_card_value leading_card trump_suit)
                  rest).1
  end.

(** [EuchreAI.choose_lead_card]; [rnd] is the value of [random.random()]
    when it is called, [pick] the draw of [random.choice]. *)
Definition choose_lead_card (personality : EuchreAI.AIPersonality) (rnd : float)
    (pick : nat) (playable_cards : list Card) (trump_suit : option Suit)
    : outcome Card :=
  match trump_suit with
  | None => random_choice pick playable_cards
  | Some t =>
      let trump_cards :=
        filter (fun card => EuchreAI.is_trump card t = true) playable_cards in
      let non_trump_cards :=
        filter (fun card => EuchreAI.is_trump card t = false) playable_cards in
      if negb (bool_decide (trump_cards = [])) &&
         (rnd <? EuchreAI.aggression personality)%float
      then or_raise ValueError
             (py_max (fun c => EuchreAI.get_card_value c t) trump_cards)
      else
        match non_trump_cards with
        | _ :: _ =>
            let aces := filter (fun card => rank card = ACE) non_trump_cards in
            match aces with
            | ace :: _ => Returned ace
            | [] => or_raise ValueError
                      (py_max (fun c => rank_value (rank c)) non_trump_cards)
            end
        | [] => or_raise IndexError (playable_cards !! 0)
        end
  end.

(** [EuchreAI.choose_follow_card]; with no winning card so far
    ([get_winning_card] returned [None]) the first comparison raises
    [AttributeError]. *)
Definition choose_follow_card (pick : nat) (playable_cards : list Card)
    (current_trick : list (string * Card)) (trump_suit : option Suit)
    : outcome Card :=
  match trump_suit with
  | None => random_choice pick playable_cards
  | Some t =>
      let current_best_card := get_winning_card current_trick t in
      winning_cards ←
        match current_best_card with
        | Some best =>
            Returned
              (filter (fun card => EuchreAI.get_card_value best t
                                   < EuchreAI.get_card_value card t)
                      playable_cards)
        | None =>
            match playable_cards with
            | [] => Returned []
            | _ :: _ => Raised AttributeError
            end
        end;
      match winning_cards with
      | _ :: _ =>
          or_raise ValueError
            (py_min (fun c => EuchreAI.get_card_value c t) winning_cards)
      | [] =>
          or_raise ValueError
            (py_min (fun c => EuchreAI.get_card_value c t) playable_cards)
      end
  end.

(** [EuchreAI.choose_card_to_play] *)
Definition choose_card_to_play (personality : EuchreAI.AIPersonality) (rnd : float)
    (pick : nat) (hand : list Card) (game_state : pydict)
    (current_trick : list (string * Card)) : outcome Card :=
  entry ← or_raise KeyError (dict_get "trump_suit" game_state);
  trump_suit ← (if py_truthy entry
                then suit ← Suit_of_value entry; mret (Some suit)
                else Returned None);
  let playable_cards := get_playable_cards hand current_trick trump_suit in
  match playable_cards with
  | [] => or_raise IndexError (hand !! 0)
  | _ :: _ =>
      if length current_trick =? 0
      then choose_lead_card personality rnd pick playable_cards trump_suit
      else choose_follow_card pick playable_cards current_trick trump_suit
  end.

(** [EuchreAI.choose_discard] *)
Definition choose_discard (hand : list Card) (trump_suit : Suit) : outcome Card :=
  let non_trump_cards :=
    filter (fun card => EuchreAI.is_trump card trump_suit = false) hand in
  match non_trump_cards with
  | _ :: _ => or_raise ValueError (py_min (fun c => rank_value (rank c)) non_trump_cards)
  | [] => or_raise ValueError
            (py_min (fun c => EuchreAI.get_card_value c trump_suit) hand)
  end.

(** The loop of the second round of [should_call_trump] over [Suit]: the
    accumulator is [(best_suit, best_strength)]. *)
Definition best_suit_step (hand : list Card) (turned_suit : Suit)
    (acc : option Suit * float) (s : Suit) : option Suit * float :=
  if bool_decide (s = turned_suit) then acc
  else
    let strength := EuchreAI.evaluate_hand_strength hand (Some s) in
    if (acc.2 <? strength)%float then (Some s, strength) else acc.

(** [EuchreAI.should_call_trump] *)
Definition should_call_trump (personality : EuchreAI.AIPersonality)
    (hand : list Card) (trump_card : Card) (is_dealer : bool) (round_num : nat)
    : bool * option Suit :=
  if round_num =? 1 then
    let strength := EuchreAI.evaluate_hand_strength hand (Some (suit trump_card)) in
    let threshold := (0.4 - EuchreAI.aggression personality * 0.2)%float in
    let threshold := if is_dealer then (threshold - 0.1)%float else threshold in
    ((threshold <=? strength)%float,
     if (threshold <=? strength)%float then Some (suit trump_card) else None)
  else
    let '(best_suit, best_strength) :=
      foldl (best_suit_step hand (suit trump_card)) (None, 0.0%float) all_suits in
    let threshold := (0.5 - EuchreAI.aggression personality * 0.25)%float in
    let should_call := (threshold <=? best_strength)%float in
    (should_call, if should_call then best_suit else None).

(** ** The rooms of the server ([main.py]) *)

(** An entry of [ConnectionManager.rooms]: the dictionary with the keys
    [players], [created_at] and [creator].  [created_at] holds what
    [datetime.now()] returned, a number here. *)
Record Room := mkRoom {
  room_players : list string;
  created_at : nat;
  creator : string
}.

(** [ConnectionManager]; of [active_connections] only the keys are kept
    (the web sockets are not modelled). *)
Record ConnectionManager := mkManager {
  active_connections : gset string;
  rooms : gmap string Room;
  games : gmap string EuchreGame;
  player_rooms : gmap string string;
  player_names : gmap string string
}.

(** [ConnectionManager.__init__] *)
Definition new_manager : ConnectionManager := mkManager ∅ ∅ ∅ ∅ ∅.

(** [ConnectionManager.create_room]; [now] is the value of
    [datetime.now()].  The game is stored only when [add_player] has
    returned. *)
Definition create_room (shuffled : list Card) (now : nat)
    (room_code creator_id player_name : string) (m : ConnectionManager)
    : ConnectionManager * outcome bool :=
  let m1 :=
    mkManager (active_connections m)
      (<[room_code := mkRoom [creator_id] now creator_id]> (rooms m))
      (games m)
      (<[creator_id := room_code]> (player_rooms m))
      (<[creator_id := player_name]> (player_names m)) in
  match add_player shuffled creator_id player_name false (new_game room_code) with
  | (game, Returned _) =>
      (mkManager (active_connections m1) (rooms m1)
         (<[room_code := game]> (games m1)) (player_rooms m1) (player_names m1),
       Returned true)
  | (_, Raised e) => (m1, Raised e)
  end.

(** [ConnectionManager.join_room]; the game of the room is the object in
    [self.games], so what [add_player] did to it stays when it raises. *)
Definition join_room (shuffled : list Card) (room_code player_id player_name : string)
    (m : ConnectionManager) : ConnectionManager * outcome bool :=
  match rooms m !! room_code with
  | None => (m, Returned false)
  | Some room =>
      if 4 <=? length (room_players room) then (m, Returned false)
      else if bool_decide (player_id ∈ room_players room) then (m, Returned true)
      else
        let room' :=
          mkRoom (room_players room ++ [player_id]) (created_at room) (creator room) in
        let m1 :=
          mkManager (active_connections m)
            (<[room_code := room']> (rooms m))
            (games m)
            (<[player_id := room_code]> (player_rooms m))
            (<[player_id := player_name]> (player_names m)) in
        match games m !! room_code with
        | None => (m1, Returned true)
        | Some game =>
            let r := add_player shuffled player_id player_name false game in
            let m2 :=
              mkManager (active_connections m1) (rooms m1)
                (<[room_code := state_of r]> (games m1))
                (player_rooms m1) (player_names m1) in
            match outcome_of r with
            | Returned _ => (m2, Returned true)
            | Raised e => (m2, Raised e)
            end
        end
  end.

(** [ConnectionManager.get_game] and [ConnectionManager.get_player_game] *)
Definition get_game (m : ConnectionManager) (room_code : string) : option EuchreGame :=
  games m !! room_code.

Definition get_player_game (m : ConnectionManager) (player_id : string)
    : option EuchreGame :=
  match player_rooms m !! player_id with
  | Some room_code => games m !! room_code
  | None => None
  end.

(** * The vocabulary of the properties *)

(** The glossary's bowers: the right bower is the jack of the trump suit,
    the left bower the jack of the other suit of the same colour. *)
Definition right_bower (t : Suit) : Card := mkCard t JACK.

Definition same_color_suit (t : Suit) : Suit :=
  match t with
  | HEARTS => DIAMONDS | DIAMONDS => HEARTS | CLUBS => SPADES | SPADES => CLUBS
  end.

Definition left_bower (t : Suit) : Card := mkCard (same_color_suit t) JACK.

(** [sum(1 for card in hand if self.is_trump(card, trump_suit))] *)
Definition trump_count (hand : list Card) (t : Suit) : nat :=
  length (filter (fun card => EuchreAI.is_trump card t = true) hand).

(** The attributes no deal touches. *)
Definition deal_frame (g g' : EuchreGame) : Prop :=
  room_code g' = room_code g ∧
  player_order g' = player_order g ∧
  trump_suit g' = trump_suit g ∧
  dealer_index g' = dealer_index g ∧
  current_player_index g' = current_player_index g ∧
  current_trick g' = current_trick g ∧
  completed_tricks g' = completed_tricks g ∧
  trump_maker g' = trump_maker g ∧
  going_alone g' = going_alone g ∧
  team_scores g' = team_scores g ∧
  round_points g' = round_points g.

(** A player's team: [position % 2]. *)
Definition team_of (g : EuchreGame) (player_id : string) : option nat :=
  (fun p => position p mod 2) <$> players g !! player_id.

(** The tricks of [tricks] whose winner sits on [team]. *)
Definition tricks_won (g : EuchreGame) (team : nat) (tricks : list Trick) : nat :=
  length (filter (fun t => team_of g (winner t) = Some team) tricks).

Definition max_score (g : EuchreGame) : nat :=
  (team_scores g).1 `max` (team_scores g).2.

(** Two states with the same scores, dealer and phase. *)
Definition same_core (g g' : EuchreGame) : Prop :=
  team_scores g' = team_scores g ∧ dealer_index g' = dealer_index g ∧
  phase g' = phase g.

(** A call that scores nothing: the scores and the dealer are unchanged,
    and the game is not declared complete by it. *)
Definition quiet (g g' : EuchreGame) : Prop :=
  team_scores g' = team_scores g ∧ dealer_index g' = dealer_index g ∧
  (phase g' = GAME_COMPLETE → phase g = GAME_COMPLETE).

(** A call in which a round was scored: one team gains points, and either
    a score has reached 10 and the phase is [GAME_COMPLETE], or both scores
    are below 10 and [start_next_round] ran. *)
Definition scored (g g' : EuchreGame) : Prop :=
  ∃ team points,
    team_scores g' = team_add team points (team_scores g) ∧
    ((10 ≤ max_score g' ∧ phase g' = GAME_COMPLETE ∧
      dealer_index g' = dealer_index g) ∨
     (max_score g' < 10 ∧ (phase g' = phase g ∨ phase g' = TRUMP_SELECTION))).

(** One card to one player: [self.players[player_id].hand.append(card)]. *)
Definition give (ps : gmap string Player) (pc : string * Card) : gmap string Player :=
  match ps !! pc.1 with
  | Some p => <[pc.1 := set_hand (hand p ++ [pc.2]) p]> ps
  | None => ps
  end.

(** The seats are filled: four distinct players, all of them in
    [self.players]. *)
Definition seats_filled (g : EuchreGame) : Prop :=
  length (player_order g) = 4 ∧ NoDup (player_order g) ∧
  Forall (fun player_id => is_Some (players g !! player_id)) (player_order g).

(** Two states with the same seats and the same players. *)
Definition same_roster (g g' : EuchreGame) : Prop :=
  player_order g' = player_order g ∧
  ∀ player_id, is_Some (players g' !! player_id) ↔ is_Some (players g !! player_id).

(** A game under way: the seats are filled, there is no player without a
    seat, every card of the current trick and every archived winner belongs
    to a seated player, and a trump suit comes with a seated trump maker. *)
Definition table_ok (g : EuchreGame) : Prop :=
  seats_filled g ∧
  (∀ player_id, is_Some (players g !! player_id) → player_id ∈ player_order g) ∧
  Forall (fun pc => pc.1 ∈ player_order g) (cards (current_trick g)) ∧
  Forall (fun t => winner t ∈ player_order g) (completed_tricks g) ∧
  (is_Some (trump_suit g) →
   ∃ maker, trump_maker g = Some maker ∧ maker ∈ player_order g).

(** The dealer and the bidder are seats, and a card is turned up while
    trump is being selected. *)
Definition indices_ok (g : EuchreGame) : Prop :=
  dealer_index g < 4 ∧ trump_selection_player_index g < 4 ∧
  (phase g = TRUMP_SELECTION → is_Some (trump_card g)).

(** A game under way in which every lookup of the engine succeeds. *)
Definition game_ok (g : EuchreGame) : Prop := table_ok g ∧ indices_ok g.

(** No score is above 13, and a score of 10 or more comes with five
    archived tricks or more. *)
Definition scores_settled (g : EuchreGame) : Prop :=
  max_score g ≤ 13 ∧ (10 ≤ max_score g → 5 ≤ length (completed_tricks g)).

(** Two states with the same scores and the same archived tricks. *)
Definition same_round (g g' : EuchreGame) : Prop :=
  team_scores g' = team_scores g ∧ completed_tricks g' = completed_tricks g.

(** What every player may know of a player: all but the cards held. *)
Definition same_public (p p' : Player) : Prop :=
  ident p' = ident p ∧ name p' = name p ∧ position p' = position p ∧
  is_connected p' = is_connected p ∧ is_ai p' = is_ai p ∧
  length (hand p') = length (hand p).

(** Two games that differ at most in the deck and in the cards the players
    other than [player_id] hold. *)
Definition same_view (player_id : string) (g g' : EuchreGame) : Prop :=
  players g' !! player_id = players g !! player_id ∧
  (∀ id, option_Forall2 same_public (players g !! id) (players g' !! id)) ∧
  room_code g' = room_code g ∧ player_order g' = player_order g ∧
  phase g' = phase g ∧ trump_suit g' = trump_suit g ∧
  trump_card g' = trump_card g ∧ dealer_index g' = dealer_index g ∧
  current_player_index g' = current_player_index g ∧
  current_trick g' = current_trick g ∧
  completed_tricks g' = completed_tricks g ∧ trump_maker g' = trump_maker g ∧
  going_alone g' = going_alone g ∧ team_scores g' = team_scores g ∧
  round_points g' = round_points g ∧
  trump_selection_round g' = trump_selection_round g ∧
  trump_selection_player_index g' = trump_selection_player_index g.

(** Two states with the same seats and every player in the same position,
    the second with a seat in [current_player_index] if the first has. *)
Definition same_seats (g g' : EuchreGame) : Prop :=
  player_order g' = player_order g ∧
  (∀ id, position <$> players g' !! id = position <$> players g !! id) ∧
  (current_player_index g < 4 → current_player_index g' < 4).

(** What [evaluate_hand_strength] tells apart in a card, given the trump
    suit. *)
Inductive category :=
  | RightBower | LeftBower | TrumpAce | OtherTrump | OffAce | PlainCard.

Definition all_categories : list category :=
  [RightBower; LeftBower; TrumpAce; OtherTrump; OffAce; PlainCard].

Definition card_category (trump_suit : Suit) (card : Card) : category :=
  if EuchreAI.is_trump card trump_suit then
    if bool_decide (rank card = JACK) && bool_decide (suit card = trump_suit)
    then RightBower
    else if bool_decide (rank card = JACK) then LeftBower
    else if bool_decide (rank card = ACE) then TrumpAce
    else OtherTrump
  else if bool_decide (rank card = ACE) then OffAce
  else PlainCard.

(** The strength of a hand, from the categories of its cards. *)
Definition category_step (acc : float * nat * nat) (c : category)
    : float * nat * nat :=
  let '(strength, trump_count, off_aces) := acc in
  match c with
  | RightBower => ((strength + 0.25)%float, S trump_count, off_aces)
  | LeftBower => ((strength + 0.20)%float, S trump_count, off_aces)
  | TrumpAce => ((strength + 0.15)%float, S trump_count, off_aces)
  | OtherTrump => ((strength + 0.08)%float, S trump_count, off_aces)
  | OffAce => ((strength + 0.05)%float, trump_count, S off_aces)
  | PlainCard => acc
  end.

Definition category_strength (l : list category) : float :=
  let '(strength, trump_count, off_aces) :=
    foldl category_step (0.0%float, 0, 0) l in
  let strength :=
    if 3 <=? trump_count then (strength + 0.15)%float
    else if 2 <=? trump_count then (strength + 0.08)%float
    else strength in
  let strength := (strength + EuchreAI.float_of_nat off_aces * 0.03)%float in
  EuchreAI.float_min strength 1.0%float.

(** The lists of at most [n] categories. *)
Fixpoint category_lists (n : nat) : list (list category) :=
  match n with
  | 0 => [[]]
  | S n' => [] :: (l ← category_lists n'; c ← all_categories; [c :: l])
  end.

(** The check that every hand of at most six cards has a strength between
    0 and 1. *)
Definition strength_bounds_check : bool :=
  forallb (fun l => (0.0 <=? category_strength l)%float &&
                    (category_strength l <=? 1.0)%float)
          (category_lists 6).

(** A trick as [complete_trick] archives it: four cards, led by the player
    of the first card and won by one of the players who played to it. *)
Definition archived_trick_ok (t : Trick) : Prop :=
  length (cards t) = 4 ∧ head (cards t).*1 = Some (leader t) ∧
  winner t ∈ (cards t).*1.

(** The tricks of a game: the current trick, if a card has been played to
    it, is led by the player of its first card, and the archived tricks are
    as above. *)
Definition tricks_ok (g : EuchreGame) : Prop :=
  (cards (current_trick g) ≠ [] →
   head (cards (current_trick g)).*1 = Some (leader (current_trick g))) ∧
  Forall archived_trick_ok (completed_tricks g).

(** Two states with the same tricks. *)
Definition same_tricks (g g' : EuchreGame) : Prop :=
  current_trick g' = current_trick g ∧ completed_tricks g' = completed_tricks g.

(** The cards of all hands: [for p in self.players.values(): p.hand]. *)
Definition all_hands (ps : gmap string Player) : list Card :=
  map_to_list ps ≫= fun entry => hand entry.2.

Definition trick_cards (t : Trick) : list Card := (cards t).*2.

(** The three cards of the deck that follow the turned card. *)
Definition kitty_remainder (g : EuchreGame) : list Card := drop 21 (deck g).

(** Hands, completed tricks, current trick, turned card, kitty remainder. *)
Definition cards_in_round (g : EuchreGame) : list Card :=
  all_hands (players g) ++ (completed_tricks g ≫= trick_cards) ++
  trick_cards (current_trick g) ++ option_list (trump_card g) ++ kitty_remainder g.

(** Two states with the same hands, tricks, turned card and deck. *)
Definition same_cards (g g' : EuchreGame) : Prop :=
  players g' = players g ∧ completed_tricks g' = completed_tricks g ∧
  current_trick g' = current_trick g ∧ trump_card g' = trump_card g ∧
  deck g' = deck g.

(** The pass that brings the turn back to the seat left of the dealer in
    the second round is the one that deals again. *)
Definition redeals (g : EuchreGame) : Prop :=
  trump_selection_round g = 2 ∧
  (trump_selection_player_index g + 1) mod 4 = (dealer_index g + 1) mod 4.

(** The check, over all cards and all suits, that two cards of the same
    value other than 0 are the same card. *)
Definition values_distinct_check : bool :=
  forallb (fun c1 => forallb (fun c2 => forallb (fun trump => forallb (fun lead =>
    implb ((get_card_value c1 trump lead =? get_card_value c2 trump lead) &&
           (0 <? get_card_value c1 trump lead))
          (bool_decide (c1 = c2)))
    all_suits) all_suits) create_deck) create_deck.

(** ** Example games *)

Definition legality_example : EuchreGame :=
  set_trump_suit (Some HEARTS)
    (set_current_trick (mkTrick [("p0", mkCard DIAMONDS JACK)] "p0" "")
       (set_players
          {[ "p1" := mkPlayer "p1" "B" [mkCard HEARTS NINE; mkCard CLUBS ACE] 1 true false ]}
          (new_game "ROOM"))).

Definition both_bowers_hand : list Card :=
  [mkCard HEARTS JACK; mkCard DIAMONDS JACK; mkCard HEARTS ACE;
   mkCard CLUBS NINE; mkCard CLUBS TEN].

(** Four players join room ["ROOM"]; the deck is dealt as [create_deck]
    builds it; seat 0 deals and the jack of spades is turned up. *)
Definition seated : EuchreGame :=
  run create_deck
    [AddPlayer "p0" "North" false; AddPlayer "p1" "East" false;
     AddPlayer "p2" "South" false; AddPlayer "p3" "West" false]
    (new_game "ROOM").

(** East orders up and leads the ten of hearts: play has started. *)
Definition play_started : EuchreGame :=
  run create_deck
    [HandleTrumpSelection "p1" "order_up" None; PlayCard "p1" (mkCard HEARTS TEN)]
    seated.

Definition scoring_example : EuchreGame :=
  set_trump_maker (Some "p1")
    (set_going_alone (Some "p1")
       (set_completed_tricks (replicate 5 (mkTrick [] "p1" "p3"))
          (set_players
             {[ "p1" := mkPlayer "p1" "East" [] 1 true false;
                "p3" := mkPlayer "p3" "West" [] 3 true false ]}
             (new_game "ROOM")))).

(** All four seats have passed on the turned jack of spades; the second
    round begins with East. *)
Definition second_round : EuchreGame :=
  run create_deck
    [HandleTrumpSelection "p1" "pass" None; HandleTrumpSelection "p2" "pass" None;
     HandleTrumpSelection "p3" "pass" None; HandleTrumpSelection "p0" "pass" None]
    seated.

(** East has ordered up spades and led the ten of hearts; South and West
    have followed with the jack and the queen of hearts. *)
Definition three_played : EuchreGame :=
  run create_deck
    [HandleTrumpSelection "p1" "order_up" None;
     PlayCard "p1" (mkCard HEARTS TEN); PlayCard "p2" (mkCard HEARTS JACK);
     PlayCard "p3" (mkCard HEARTS QUEEN)]
    seated.

(** The seated game with the deck put away and the cards of North
    replaced by five others. *)
Definition seated_other_cards : EuchreGame :=
  set_deck []
    (set_players
       (<["p0" := mkPlayer "p0" "North"
                    [mkCard SPADES NINE; mkCard SPADES TEN; mkCard SPADES QUEEN;
                     mkCard SPADES KING; mkCard SPADES ACE] 0 true false]>
          (players seated))
       seated).

(** * Properties *)

(** ** Card values: the engine against the AI *)

Lemma rank_value_bounds r : 9 ≤ rank_value r ≤ 14.
Proof. destruct r; simpl; lia. Qed.

(** The left bower's effective suit is the trump suit. *)
Lemma left_bower_effective_suit t c :
  rank c = JACK → same_color t (suit c) = true →
  get_effective_suit (Some t) c = t.
Proof.
  intros Hr Hc. unfold get_effective_suit.
  rewrite bool_decide_true by done. by rewrite Hc.
Qed.

(** The two [is_same_color_jack]/[same_color] tests agree on jacks, so the
    AI and the engine agree on what a bower is. *)
Lemma ai_effective_suit_agrees c t :
  EuchreAI.get_effective_suit c t = get_effective_suit t c.
Proof.
  destruct t as [t|]; [|done]. unfold EuchreAI.get_effective_suit,
    get_effective_suit, EuchreAI.is_same_color_jack.
  by case_bool_decide.
Qed.

(** Where the engine gives a card a value other than 0 (a trump card or a
    card of the leading suit), the AI gives it the same value; where the
    engine gives 0, the AI gives the rank. *)
Lemma ai_card_value_cases card trump_suit leading_suit :
  EuchreAI.get_card_value card trump_suit =
    if get_card_value card trump_suit leading_suit =? 0
    then rank_value (rank card)
    else get_card_value card trump_suit leading_suit.
Proof.
  destruct card as [s r]. unfold EuchreAI.get_card_value, get_card_value,
    EuchreAI.is_same_color_jack. simpl.
  destruct r, s, trump_suit, leading_suit; reflexivity.
Qed.

(** C1 (the code departs from the claim): for the nine of clubs with hearts
    as trump and spades led, the AI's [get_card_value] yields the rank 9
    where the engine's [get_card_value] yields 0. *)
Theorem ai_card_value_off_suit_differs :
  EuchreAI.get_card_value (mkCard CLUBS NINE) HEARTS = 9 ∧
  get_card_value (mkCard CLUBS NINE) HEARTS SPADES = 0.
Proof. split; reflexivity. Qed.

(** ** Legal plays *)

Section Legality.

Variable g : EuchreGame.
Local Abbreviation eff := (get_effective_suit (trump_suit g)).

Lemma has_suit_true (l : list Card) (s : Suit) :
  existsb (fun c => bool_decide (eff c = s)) l = true ↔ ∃ c, c ∈ l ∧ eff c = s.
Proof.
  rewrite existsb_exists. split.
  - intros (c & Hin & Hc). exists c. split; [by apply list_elem_of_In|].
    by apply bool_decide_eq_true in Hc.
  - intros (c & Hin & Hc). exists c. split; [by apply list_elem_of_In|].
    by apply bool_decide_eq_true.
Qed.

Lemma has_suit_false (l : list Card) (s : Suit) :
  existsb (fun c => bool_decide (eff c = s)) l = false ↔ ∀ c, c ∈ l → eff c ≠ s.
Proof.
  rewrite <- not_true_iff_false, has_suit_true. split.
  - intros Hn c Hin Hc. apply Hn. eauto.
  - intros Hall (c & Hin & Hc). by apply (Hall c).
Qed.

(** A player who is not in the game can play nothing. *)
Lemma can_play_card_unknown_player player_id card :
  players g !! player_id = None → can_play_card g player_id card = false.
Proof. intros H. unfold can_play_card. by rewrite H. Qed.

(** C4: [can_play_card] is [False] for a card that is not in the hand,
    [True] for any held card when the current trick is empty, and
    otherwise, with the effective suit of the trick's first card as the
    leading suit: when the hand holds a card of that effective suit, a
    held card is legal exactly when its effective suit is the leading
    suit; when the hand holds none, every held card is legal. *)
Theorem can_play_card_spec player_id player card :
  players g !! player_id = Some player →
  (card ∉ hand player → can_play_card g player_id card = false) ∧
  (card ∈ hand player → cards (current_trick g) = [] →
     can_play_card g player_id card = true) ∧
  (∀ first rest,
     card ∈ hand player → cards (current_trick g) = first :: rest →
     ((∃ c, c ∈ hand player ∧ eff c = eff first.2) →
        (can_play_card g player_id card = true ↔ eff card = eff first.2)) ∧
     ((∀ c, c ∈ hand player → eff c ≠ eff first.2) →
        can_play_card g player_id card = true)).
Proof.
  intros Hp. unfold can_play_card. rewrite Hp. split; [|split].
  - intros Hnot. by rewrite bool_decide_false.
  - intros Hin Hempty. rewrite bool_decide_true by done. by rewrite Hempty.
  - intros first rest Hin Htrick. rewrite bool_decide_true by done.
    rewrite Htrick. simpl. split.
    + intros Hex. apply has_suit_true in Hex. rewrite Hex.
      apply bool_decide_eq_true.
    + intros Hnone. apply has_suit_false in Hnone. by rewrite Hnone.
Qed.

End Legality.

Lemma can_play_card_spec_witness :
  can_play_card legality_example "p1" (mkCard HEARTS NINE) = true ∧
  can_play_card legality_example "p1" (mkCard CLUBS ACE) = false.
Proof.
  pose proof (can_play_card_spec legality_example "p1"
    (mkPlayer "p1" "B" [mkCard HEARTS NINE; mkCard CLUBS ACE] 1 true false)
    (mkCard HEARTS NINE) eq_refl) as (_ & _ & H).
  split; [|reflexivity].
  destruct (H ("p0", mkCard DIAMONDS JACK) []) as [Hfollow _].
  - apply list_elem_of_In. simpl. tauto.
  - reflexivity.
  - apply Hfollow; [|reflexivity]. exists (mkCard HEARTS NINE).
    split; [|reflexivity]. apply list_elem_of_In. simpl. tauto.
Defined.

(** ** Going alone: the AI's decision *)

Lemma existsb_elem_of {A} (f : A → bool) (l : list A) (x : A) :
  x ∈ l → f x = true → existsb f l = true.
Proof.
  intros Hin Hf. apply existsb_exists. exists x. split; [|done].
  by apply list_elem_of_In.
Qed.

(** C8, amended: for a hand that holds both bowers and at least three
    trump cards, [should_go_alone] returns [True] exactly when the
    personality's [risk_tolerance] is not below 0.3; below 0.3 the guard at
    the top of the function returns [False] first. *)
Theorem should_go_alone_both_bowers personality rnd hand t :
  right_bower t ∈ hand → left_bower t ∈ hand → 3 ≤ trump_count hand t →
  EuchreAI.should_go_alone personality rnd hand t =
    negb (EuchreAI.risk_tolerance personality <? 0.3)%float.
Proof.
  intros Hright Hleft Hcount. unfold EuchreAI.should_go_alone.
  destruct (EuchreAI.risk_tolerance personality <? 0.3)%float; [done|].
  cbv zeta.
  rewrite (existsb_elem_of _ _ _ Hright) by (simpl; by rewrite !bool_decide_true).
  rewrite (existsb_elem_of _ _ _ Hleft) by (by destruct t).
  fold (trump_count hand t).
  by rewrite (proj2 (Nat.leb_le _ _) Hcount).
Qed.

Lemma should_go_alone_both_bowers_witness :
  EuchreAI.should_go_alone (EuchreAI.mkPersonality "Dave" 0.5 0.5 0.9 0.5) 0.9
    both_bowers_hand HEARTS = true.
Proof.
  apply (should_go_alone_both_bowers
           (EuchreAI.mkPersonality "Dave" 0.5 0.5 0.9 0.5) 0.9 both_bowers_hand HEARTS).
  - apply list_elem_of_In. simpl. tauto.
  - apply list_elem_of_In. simpl. tauto.
  - vm_compute. lia.
Defined.

(** C8 as stated fails: with [risk_tolerance = 0.2] the same hand, which
    holds both bowers and three trump cards, is refused. *)
Lemma should_go_alone_low_risk_tolerance :
  right_bower HEARTS ∈ both_bowers_hand ∧
  left_bower HEARTS ∈ both_bowers_hand ∧
  3 ≤ trump_count both_bowers_hand HEARTS ∧
  EuchreAI.should_go_alone (EuchreAI.mkPersonality "Cautious" 0.5 0.5 0.5 0.2) 0.0
    both_bowers_hand HEARTS = false.
Proof.
  split; [|split; [|split]].
  - apply list_elem_of_In. simpl. tauto.
  - apply list_elem_of_In. simpl. tauto.
  - vm_compute. lia.
  - vm_compute. reflexivity.
Qed.

(** ** Reachable states *)

Lemma reachable_run shuffled calls g :
  create_deck ≡ₚ shuffled → reachable g → reachable (run shuffled calls g).
Proof.
  intros Hperm. revert g. induction calls as [|c calls IH]; intros g Hg; [done|].
  simpl. apply IH. by constructor.
Qed.

Lemma reachable_seated : reachable seated.
Proof. apply reachable_run; [done|constructor]. Qed.

(** ** Going alone: the engine *)

(** C9, amended: [handle_going_alone] succeeds exactly when the caller is
    the current trump maker, whatever the phase and whatever has been
    played; it then records the choice.  Any other caller gets [False] and
    the state is unchanged.  It never raises. *)
Theorem handle_going_alone_spec g player_id alone :
  (trump_maker g = Some player_id ∧
   handle_going_alone player_id alone g =
     (set_going_alone (if alone then Some player_id else None) g, Returned true))
  ∨
  (trump_maker g ≠ Some player_id ∧
   handle_going_alone player_id alone g = (g, Returned false)).
Proof.
  unfold handle_going_alone, bind, get, modify, ret.
  case_bool_decide as H.
  - left. by split.
  - right. split; [congruence|done].
Qed.

(** C9 as stated fails: in phase [PLAYING], with a card already on the
    table, the trump maker's call still succeeds and changes the state. *)
Lemma handle_going_alone_after_play_started :
  reachable play_started ∧
  phase play_started = PLAYING ∧
  cards (current_trick play_started) = [("p1", mkCard HEARTS TEN)] ∧
  going_alone play_started = None ∧
  outcome_of (handle_going_alone "p1" true play_started) = Returned true ∧
  going_alone (state_of (handle_going_alone "p1" true play_started)) = Some "p1".
Proof.
  split; [apply reachable_run; [done|apply reachable_seated]|].
  vm_compute. repeat split.
Qed.

(** ** Ordering up *)

(** C2 (the code departs from the claim): when East orders up the turned
    jack of spades, the call returns [True], the dealer holds 6 cards, and
    the phase is already [PLAYING]; no discard has taken place, and
    [EuchreGame] has no discard step at all. *)
Theorem order_up_enters_playing_with_six_cards :
  phase seated = TRUMP_SELECTION ∧
  trump_card seated = Some (mkCard SPADES JACK) ∧
  player_order seated !! dealer_index seated = Some "p0" ∧
  let r := handle_trump_selection create_deck "p1" "order_up" None seated in
  outcome_of r = Returned true ∧
  trump_suit (state_of r) = Some SPADES ∧
  trump_maker (state_of r) = Some "p1" ∧
  (length ∘ hand) <$> players (state_of r) !! "p0" = Some 6 ∧
  phase (state_of r) = PLAYING.
Proof. vm_compute. repeat split. Qed.

(** ** Tools: reading attributes, unfolding loops *)

(** Unfolding the monad's operations on the goal. *)
Ltac py_unfold :=
  unfold bind, get, modify, ret, raise, from_option, state_of, outcome_of in *.

(** Reading an attribute after an assignment: [x (set_x v g)] is [v], and
    [y (set_x v g)] is [y g] for any other attribute [y].  The equation is
    proved for a variable [g] and then used by rewriting, one assignment at
    a time, so a chain is read in as many steps as it is long. *)
Ltac is_attribute proj :=
  lazymatch proj with
  | room_code => idtac | players => idtac | player_order => idtac
  | phase => idtac | deck => idtac | trump_suit => idtac | trump_card => idtac
  | dealer_index => idtac | current_player_index => idtac
  | current_trick => idtac | completed_tricks => idtac | trump_maker => idtac
  | going_alone => idtac | team_scores => idtac | round_points => idtac
  | trump_selection_round => idtac | trump_selection_player_index => idtac
  end.

Ltac read_assigned setter :=
  lazymatch setter with
  | set_players => constr:(players)
  | set_player_order => constr:(player_order)
  | set_phase => constr:(phase)
  | set_deck => constr:(deck)
  | set_trump_suit => constr:(trump_suit)
  | set_trump_card => constr:(trump_card)
  | set_dealer_index => constr:(dealer_index)
  | set_current_player_index => constr:(current_player_index)
  | set_current_trick => constr:(current_trick)
  | set_completed_tricks => constr:(completed_tricks)
  | set_trump_maker => constr:(trump_maker)
  | set_going_alone => constr:(going_alone)
  | set_team_scores => constr:(team_scores)
  | set_trump_selection_round => constr:(trump_selection_round)
  | set_trump_selection_player_index => constr:(trump_selection_player_index)
  end.

Ltac game_simpl :=
  repeat match goal with
  | |- context [?proj (?setter ?v ?g)] =>
      is_attribute proj;
      lazymatch type of (setter v g) with EuchreGame => idtac end;
      let own := read_assigned setter in
      let E := fresh "E" in
      first [ constr_eq proj own;
              assert (E : ∀ v' g', proj (setter v' g') = v') by reflexivity
            | assert (E : ∀ v' g', proj (setter v' g') = proj g') by reflexivity ];
      rewrite !E; clear E
  end.

Ltac game_simpl_in H :=
  repeat match type of H with
  | context [?proj (?setter ?v ?g)] =>
      is_attribute proj;
      lazymatch type of (setter v g) with EuchreGame => idtac end;
      let own := read_assigned setter in
      let E := fresh "E" in
      first [ constr_eq proj own;
              assert (E : ∀ v' g', proj (setter v' g') = v') by reflexivity
            | assert (E : ∀ v' g', proj (setter v' g') = proj g') by reflexivity ];
      rewrite !E in H; clear E
  end.

Lemma deal_pass_cons player_id rest card_index :
  deal_pass (player_id :: rest) card_index =
    bind get (fun g =>
    bind (from_option KeyError (players g !! player_id)) (fun player =>
    bind (from_option IndexError (deck g !! card_index)) (fun card =>
    bind (modify (set_players
            (<[player_id := set_hand (hand player ++ [card]) player]> (players g))))
         (fun _ => deal_pass rest (S card_index))))).
Proof. reflexivity. Qed.

Lemma count_team_tricks_cons trick rest team_tricks :
  count_team_tricks (trick :: rest) team_tricks =
    bind get (fun g =>
    bind (from_option KeyError (players g !! winner trick)) (fun winner_player =>
    count_team_tricks rest (team_add (position winner_player mod 2) 1 team_tricks))).
Proof. reflexivity. Qed.

Arguments Nat.modulo : simpl never.
Arguments deal_passes : simpl never.
Arguments deal_cards : simpl never.
Arguments start_game : simpl never.
Arguments add_player : simpl never.
Arguments start_next_round : simpl never.
Arguments complete_round : simpl never.
Arguments complete_trick : simpl never.
Arguments play_card : simpl never.
Arguments handle_trump_selection : simpl never.
Arguments handle_going_alone : simpl never.
Arguments can_play_card : simpl never.

(** ** What a deal leaves alone *)

Lemma deal_passes_succ n card_index :
  deal_passes (S n) card_index =
    bind get (fun g => bind (deal_pass (player_order g) card_index)
                            (fun card_index' => deal_passes n card_index')).
Proof. reflexivity. Qed.

Lemma set_players_twice ps ps' g :
  set_players ps (set_players ps' g) = set_players ps g.
Proof. reflexivity. Qed.

Lemma set_players_same g : set_players (players g) g = g.
Proof. by destruct g. Qed.

Lemma deal_pass_players order card_index g :
  ∃ ps, state_of (deal_pass order card_index g) = set_players ps g.
Proof.
  revert card_index g. induction order as [|player_id rest IH]; intros card_index g.
  - exists (players g). by rewrite set_players_same.
  - rewrite deal_pass_cons. unfold bind at 1 2, get, from_option.
    destruct (players g !! player_id) as [player|];
      [|exists (players g); by rewrite set_players_same].
    unfold ret, bind at 1.
    destruct (deck g !! card_index) as [card|];
      [|exists (players g); by rewrite set_players_same].
    unfold bind, modify.
    match goal with |- context [deal_pass rest ?i ?g1] =>
      destruct (IH i g1) as [ps Hps]; destruct (deal_pass rest i g1) as [g2 [a|e]] end;
      unfold state_of in *; cbn [fst] in *; subst g2; by exists ps.
Qed.

Lemma deal_passes_players n card_index g :
  ∃ ps, state_of (deal_passes n card_index g) = set_players ps g.
Proof.
  revert card_index g. induction n as [|n IH]; intros card_index g.
  - exists (players g). by rewrite set_players_same.
  - rewrite deal_passes_succ. unfold bind, get.
    destruct (deal_pass_players (player_order g) card_index g) as [ps Hps].
    destruct (deal_pass (player_order g) card_index g) as [g1 [i|e]];
      unfold state_of in *; cbn [fst] in *; subst g1; [|by exists ps].
    destruct (IH i (set_players ps g)) as [ps' Hps'].
    destruct (deal_passes n i (set_players ps g)) as [g2 [a|e]];
      cbn [fst] in *; subst g2; by exists ps'.
Qed.

(** A deal, finished or cut short by an exception, changes nothing but the
    deck, the hands, the turned card, the phase and the bidding state; and
    the phase it leaves is the old one or [TRUMP_SELECTION]. *)
Lemma deal_cards_frame shuffled g :
  let g' := state_of (deal_cards shuffled g) in
  deal_frame g g' ∧ (phase g' = phase g ∨ phase g' = TRUMP_SELECTION).
Proof.
  unfold deal_cards. py_unfold. cbv beta.
  match goal with |- context [deal_passes 5 0 ?g1] =>
    destruct (deal_passes_players 5 0 g1) as [ps Hps];
    unfold state_of in Hps;
    destruct (deal_passes 5 0 g1) as [g2 [i|e]] end; cbn [fst] in Hps; subst g2.
  - destruct (deck _ !! i); unfold deal_frame; cbv beta iota; cbn [fst];
      game_simpl; tauto.
  - unfold deal_frame; cbv beta iota; cbn [fst]; game_simpl; tauto.
Qed.

Lemma deal_cards_returns_phase shuffled g g' :
  deal_cards shuffled g = (g', Returned tt) →
  phase g' = TRUMP_SELECTION ∧ trump_selection_round g' = 1 ∧
  trump_selection_player_index g' = (dealer_index g + 1) mod 4 ∧
  deck g' = shuffled.
Proof.
  unfold deal_cards. py_unfold. cbv beta.
  match goal with |- context [deal_passes 5 0 ?g1] =>
    destruct (deal_passes_players 5 0 g1) as [ps Hps];
    unfold state_of in Hps;
    destruct (deal_passes 5 0 g1) as [g2 [i|e]] end; cbn [fst] in Hps; subst g2;
    [|discriminate].
  destruct (deck _ !! i); [|discriminate].
  intros [= <-]. game_simpl. tauto.
Qed.

(** ** Stepping through a method *)

(** The monad's equations, used by rewriting: a method is stepped through
    statement by statement, and the methods it calls stay folded. *)
Lemma bind_modify {A} f (k : unit → M A) g : bind (modify f) k g = k tt (f g).
Proof. reflexivity. Qed.

Lemma bind_get {A} (k : EuchreGame → M A) g : bind get k g = k g g.
Proof. reflexivity. Qed.

Lemma bind_ret {A B} (a : A) (k : A → M B) g : bind (ret a) k g = k a g.
Proof. reflexivity. Qed.

Lemma bind_raise {A B} e (k : A → M B) g : bind (raise e) k g = (g, Raised e).
Proof. reflexivity. Qed.

Lemma bind_assoc {A B C} (m : M A) (k1 : A → M B) (k2 : B → M C) g :
  bind (bind m k1) k2 g = bind m (fun a => bind (k1 a) k2) g.
Proof. unfold bind. by destruct (m g) as [g' [a|e]]. Qed.

Lemma bind_returned {A B} (m : M A) (k : A → M B) g g' a :
  m g = (g', Returned a) → bind m k g = k a g'.
Proof. intros H. unfold bind. by rewrite H. Qed.

Lemma from_option_some {A} e (a : A) : from_option e (Some a) = ret a.
Proof. reflexivity. Qed.

Lemma from_option_none {A} e : from_option e (@None A) = raise e.
Proof. reflexivity. Qed.

Lemma modify_run f g : modify f g = (f g, Returned tt).
Proof. reflexivity. Qed.

Lemma ret_run {A} (a : A) g : ret a g = (g, Returned a).
Proof. reflexivity. Qed.

Lemma raise_run {A} e g : @raise A e g = (g, Raised e).
Proof. reflexivity. Qed.

Lemma state_of_pair {A} g (o : outcome A) : state_of (g, o) = g.
Proof. reflexivity. Qed.

Lemma outcome_of_pair {A} g (o : outcome A) : outcome_of (g, o) = o.
Proof. reflexivity. Qed.

Ltac py_step :=
  repeat first
    [ rewrite bind_assoc | rewrite bind_modify | rewrite bind_get | rewrite bind_ret
    | rewrite bind_raise | rewrite from_option_some | rewrite from_option_none
    | rewrite modify_run | rewrite ret_run | rewrite raise_run
    | rewrite state_of_pair | rewrite outcome_of_pair ];
  cbv beta.

(** The methods, unfolded one level. *)
Lemma deal_cards_eq shuffled :
  deal_cards shuffled =
    (modify (set_deck shuffled) ;;
     modify (fun g => set_players (set_hand [] <$> players g) g) ;;
     card_index <- deal_passes 5 0 ;;
     g <- get ;;
     trump <- from_option IndexError (deck g !! card_index) ;;
     modify (set_trump_card (Some trump)) ;;
     modify (set_phase TRUMP_SELECTION) ;;
     modify (set_trump_selection_round 1) ;;
     modify (fun g => set_trump_selection_player_index ((dealer_index g + 1) mod 4) g))%py.
Proof. reflexivity. Qed.

Lemma start_next_round_eq shuffled :
  start_next_round shuffled =
    (modify (set_completed_tricks []) ;;
     modify (set_trump_suit None) ;;
     modify (set_trump_card None) ;;
     modify (set_trump_maker None) ;;
     modify (set_going_alone None) ;;
     modify (fun g => set_dealer_index ((dealer_index g + 1) mod 4) g) ;;
     deal_cards shuffled)%py.
Proof. reflexivity. Qed.

Lemma complete_round_eq shuffled :
  complete_round shuffled =
    (g <- get ;;
     team_tricks <- count_team_tricks (completed_tricks g) (0, 0) ;;
     maker <- from_option KeyError (trump_maker g ≫= fun id => players g !! id) ;;
     let trump_making_team := position maker mod 2 in
     let winning_team := if team_tricks.2 <? team_tricks.1 then 0 else 1 in
     let tricks_won := team_get winning_team team_tricks in
     let points :=
       round_points_for winning_team trump_making_team tricks_won
                        (truthy (going_alone g)) in
     modify (fun g => set_team_scores (team_add winning_team points (team_scores g)) g) ;;
     g <- get ;;
     if 10 <=? (team_scores g).1 `max` (team_scores g).2
     then modify (set_phase GAME_COMPLETE)
     else start_next_round shuffled)%py.
Proof. reflexivity. Qed.

(** ** Round scoring *)

Lemma tricks_won_cons g team t tricks :
  tricks_won g team (t :: tricks) =
    (if bool_decide (team_of g (winner t) = Some team) then 1 else 0)
    + tricks_won g team tricks.
Proof.
  unfold tricks_won. rewrite filter_cons.
  case_bool_decide; by rewrite ?decide_True, ?decide_False by done.
Qed.

Lemma team_of_lt_2 g player_id team : team_of g player_id = Some team → team < 2.
Proof.
  unfold team_of. destruct (players g !! player_id); [|done].
  intros [= <-]. apply Nat.mod_upper_bound. lia.
Qed.

Lemma team_of_cases g player_id p :
  players g !! player_id = Some p →
  (team_of g player_id = Some 0 ∧ position p mod 2 = 0) ∨
  (team_of g player_id = Some 1 ∧ position p mod 2 = 1).
Proof.
  intros Hp. unfold team_of. rewrite Hp. cbn.
  pose proof (Nat.mod_upper_bound (position p) 2).
  destruct (position p mod 2) as [|[|k]]; [by left|by right|lia].
Qed.

(** The counting loop of [complete_round] returns the two teams' trick
    counts, and leaves the state alone, when every winner is a player. *)
Lemma count_team_tricks_returns g tricks acc :
  Forall (fun t => is_Some (players g !! winner t)) tricks →
  count_team_tricks tricks acc g =
    (g, Returned (acc.1 + tricks_won g 0 tricks, acc.2 + tricks_won g 1 tricks)).
Proof.
  intros Hall. revert acc. induction Hall as [|t tricks [p Hp] _ IH]; intros acc.
  - destruct acc as [a b]. unfold tricks_won. cbn. unfold ret.
    by rewrite !Nat.add_0_r.
  - rewrite count_team_tricks_cons. py_step. rewrite Hp. py_step.
    rewrite IH, !tricks_won_cons. destruct acc as [a b].
    destruct (team_of_cases g _ p Hp) as [[-> ->]|[-> ->]]; cbn;
      repeat case_bool_decide; simplify_eq; do 2 f_equal; f_equal; lia.
Qed.

Lemma tricks_won_total g tricks :
  Forall (fun t => is_Some (players g !! winner t)) tricks →
  tricks_won g 0 tricks + tricks_won g 1 tricks = length tricks.
Proof.
  induction 1 as [|t tricks [p Hp] _ IH]; [done|].
  rewrite !tricks_won_cons.
  destruct (team_of_cases g _ p Hp) as [[-> _]|[-> _]];
    repeat case_bool_decide; simplify_eq; cbn; lia.
Qed.

Lemma start_next_round_frame shuffled g :
  let g' := state_of (start_next_round shuffled g) in
  team_scores g' = team_scores g ∧
  dealer_index g' = (dealer_index g + 1) mod 4 ∧
  player_order g' = player_order g ∧
  current_player_index g' = current_player_index g ∧
  current_trick g' = current_trick g ∧
  completed_tricks g' = [] ∧
  (phase g' = phase g ∨ phase g' = TRUMP_SELECTION).
Proof.
  cbv zeta. rewrite start_next_round_eq. py_step.
  match goal with |- context [deal_cards shuffled ?g1] =>
    destruct (deal_cards_frame shuffled g1)
      as [(_ & Hpo & _ & Hdi & Hcpi & Hct & Hcts & _ & _ & Hts & _) Hphase] end.
  rewrite Hts, Hdi, Hpo, Hcpi, Hct, Hcts.
  game_simpl_in Hphase. game_simpl. by repeat split.
Qed.

Ltac nat_tests :=
  repeat match goal with
         | H : (_ <? _) = true |- _ => apply Nat.ltb_lt in H
         | H : (_ <? _) = false |- _ => apply Nat.ltb_ge in H
         | H : (_ =? _) = true |- _ => apply Nat.eqb_eq in H
         | H : (_ =? _) = false |- _ => apply Nat.eqb_neq in H
         | H : (_ <=? _) = true |- _ => apply Nat.leb_le in H
         | H : (_ <=? _) = false |- _ => apply Nat.leb_gt in H
         end.

(** The points and the team they go to, as functions of the number [n] of
    tricks the trump-making team took out of five. *)
Lemma round_points_cases maker_team n0 n1 alone :
  maker_team < 2 → n0 + n1 = 5 →
  let n := if maker_team =? 0 then n0 else n1 in
  let winning_team := if n1 <? n0 then 0 else 1 in
  let points :=
    round_points_for winning_team maker_team
      (team_get winning_team (n0, n1)) alone in
  ∀ scores,
    team_add winning_team points scores =
      if n =? 5 then team_add maker_team (if alone then 4 else 2) scores
      else if 3 <=? n then team_add maker_team 1 scores
      else team_add (1 - maker_team) 2 scores.
Proof.
  intros Hteam Htotal n winning_team points scores.
  subst n winning_team points. unfold round_points_for, team_get.
  destruct maker_team as [|[|k]]; [| |lia]; cbn [Nat.eqb Nat.sub fst snd];
    destruct (n1 <? n0) eqn:H1; cbn [Nat.eqb];
    destruct (n0 =? 5) eqn:H2; destruct (n1 =? 5) eqn:H3;
    try destruct (3 <=? n0) eqn:H4; try destruct (3 <=? n1) eqn:H5;
    nat_tests; try lia; try reflexivity; destruct alone; reflexivity.
Qed.

(** The last statements of [complete_round]: the points are added to the
    winning team's score and to nothing else, whether the game ends or a
    new round is dealt. *)
Lemma complete_round_adds shuffled team points g :
  team_scores
    (state_of
       (bind (modify (fun g => set_team_scores
                                 (team_add team points (team_scores g)) g))
          (fun _ => bind get (fun g =>
             if 10 <=? (team_scores g).1 `max` (team_scores g).2
             then modify (set_phase GAME_COMPLETE)
             else start_next_round shuffled)) g))
  = team_add team points (team_scores g).
Proof.
  py_step. match goal with |- context [if ?b then _ else _] => destruct b end.
  - py_step. by game_simpl.
  - match goal with |- context [start_next_round shuffled ?g1] =>
      destruct (start_next_round_frame shuffled g1) as [-> _] end.
    by game_simpl.
Qed.

(** C3: when [complete_round] runs on five archived tricks, the
    trump-making team's count [n] of those tricks decides the score: with
    [n = 5] that team gains 4 points when going alone and 2 otherwise; with
    [n] 3 or 4 it gains 1 point; with [n ≤ 2] the other team gains 2
    points.  Nothing else is added to either score.  (Going alone is
    [self.going_alone] holding a non-empty player id, which is what the
    code tests.) *)
Theorem complete_round_scoring shuffled g maker_team :
  length (completed_tricks g) = 5 →
  Forall (fun t => is_Some (players g !! winner t)) (completed_tricks g) →
  trump_maker g ≫= team_of g = Some maker_team →
  let n := tricks_won g maker_team (completed_tricks g) in
  team_scores (state_of (complete_round shuffled g)) =
    if n =? 5
    then team_add maker_team (if truthy (going_alone g) then 4 else 2) (team_scores g)
    else if 3 <=? n
    then team_add maker_team 1 (team_scores g)
    else team_add (1 - maker_team) 2 (team_scores g).
Proof.
  intros Hlen Hall Hmaker n.
  pose proof (tricks_won_total g _ Hall) as Htotal. rewrite Hlen in Htotal.
  assert (Hteam : maker_team < 2).
  { destruct (trump_maker g) as [tm|]; [|done]. by eapply team_of_lt_2. }
  assert (Hn : n = if maker_team =? 0
                   then tricks_won g 0 (completed_tricks g)
                   else tricks_won g 1 (completed_tricks g)).
  { subst n. by destruct maker_team as [|[|k]]; [| |lia]. }
  rewrite complete_round_eq. py_step.
  rewrite (bind_returned _ _ _ _ _ (count_team_tricks_returns g _ (0, 0) Hall)).
  cbv beta. cbn [fst snd Nat.add].
  destruct (trump_maker g) as [tm|]; [|done]. cbn [mbind option_bind] in Hmaker |- *.
  unfold team_of in Hmaker. destruct (players g !! tm) as [maker|]; [|done].
  cbn [fmap option_fmap option_map] in Hmaker. injection Hmaker as Hmaker.
  rewrite from_option_some, bind_ret. cbv beta zeta.
  rewrite Hmaker, complete_round_adds.
  rewrite Hn. by apply round_points_cases.
Qed.

Lemma complete_round_scoring_witness :
  team_scores (state_of (complete_round create_deck scoring_example)) = (0, 4).
Proof.
  rewrite (complete_round_scoring create_deck scoring_example 1).
  - reflexivity.
  - reflexivity.
  - repeat constructor; by eexists.
  - reflexivity.
Defined.

(** ** Scores and the end of the game *)

Lemma quiet_refl g : quiet g g.
Proof. by repeat split. Qed.

Lemma same_core_quiet g g' : same_core g g' → quiet g g'.
Proof. intros (Hs & Hd & Hp). repeat split; [done..|]. by rewrite Hp. Qed.

Lemma effect_after_same_core g g1 g' :
  same_core g g1 → quiet g1 g' ∨ scored g1 g' → quiet g g' ∨ scored g g'.
Proof.
  intros (Hs & Hd & Hp) [(Hs' & Hd' & Hp')|(team & points & Hs' & H)].
  - left. repeat split; [congruence..|]. intros ?. rewrite <- Hp. auto.
  - right. exists team, points. rewrite <- Hs, <- Hd, <- Hp. by split.
Qed.

Lemma team_add_le team points s :
  s.1 ≤ (team_add team points s).1 ∧ s.2 ≤ (team_add team points s).2.
Proof. unfold team_add. destruct (team =? 0); simpl; lia. Qed.

Lemma deal_cards_quiet shuffled g : quiet g (state_of (deal_cards shuffled g)).
Proof.
  destruct (deal_cards_frame shuffled g)
    as [(_ & _ & _ & Hd & _ & _ & _ & _ & _ & Hs & _) [Hp|Hp]];
    repeat split; try done; rewrite Hp; [done|discriminate].
Qed.

Lemma bind_unfold {A B} (m : M A) (k : A → M B) g :
  bind m k g =
    match m g with
    | (g', Returned a) => k a g'
    | (g', Raised e) => (g', Raised e)
    end.
Proof. reflexivity. Qed.

(** The counting loop never changes the state. *)
Lemma count_team_tricks_pure tricks acc g :
  ∃ o, count_team_tricks tricks acc g = (g, o).
Proof.
  revert acc. induction tricks as [|t tricks IH]; intros acc; [by eexists|].
  rewrite count_team_tricks_cons. py_step.
  destruct (players g !! winner t); py_step; [apply IH|by eexists].
Qed.

Lemma complete_round_effect shuffled g :
  let g' := state_of (complete_round shuffled g) in quiet g g' ∨ scored g g'.
Proof.
  cbv zeta. rewrite complete_round_eq. py_step.
  destruct (count_team_tricks_pure (completed_tricks g) (0, 0) g) as [o Ho].
  rewrite bind_unfold, Ho. destruct o as [team_tricks|e];
    [|left; py_step; apply quiet_refl].
  destruct (trump_maker g ≫= _) as [maker|]; py_step;
    [|left; apply quiet_refl].
  cbv zeta. game_simpl.
  match goal with |- context [set_team_scores (team_add ?team ?points _) g] =>
    set (g1 := set_team_scores (team_add team points (team_scores g)) g);
    assert (Hs1 : team_scores g1 = team_add team points (team_scores g))
      by (subst g1; by game_simpl);
    assert (Hd1 : dealer_index g1 = dealer_index g) by (subst g1; by game_simpl);
    assert (Hp1 : phase g1 = phase g) by (subst g1; by game_simpl);
    right; exists team, points
  end.
  change (team_add _ _ (team_scores g)) with (team_scores g1) at 2 3.
  rewrite <- Hs1.
  destruct (10 <=? _) eqn:Hend; nat_tests.
  - py_step. unfold max_score. game_simpl. split; [done|]. left.
    by rewrite Hd1.
  - destruct (start_next_round_frame shuffled g1)
      as (Hs & _ & _ & _ & _ & _ & Hp).
    rewrite Hp1 in Hp. unfold max_score. rewrite Hs. split; [done|]. by right.
Qed.

Lemma complete_trick_eq shuffled :
  complete_trick shuffled =
    (g <- get ;;
     match trump_suit g with
     | None => ret tt
     | Some trump =>
         if negb (length (cards (current_trick g)) =? 4) then ret tt
         else
           first <- from_option IndexError (cards (current_trick g) !! 0) ;;
           let leading_card := first.2 in
           let leading_suit := get_effective_suit (trump_suit g) leading_card in
           let winner_idx :=
             winner_index trump leading_suit (cards (current_trick g)) leading_card in
           won <- from_option IndexError (cards (current_trick g) !! winner_idx) ;;
           let winner_id := won.1 in
           modify (fun g => set_current_trick (set_winner winner_id (current_trick g)) g) ;;
           modify (fun g => set_completed_tricks
                              (completed_tricks g ++ [current_trick g]) g) ;;
           modify (set_current_trick empty_trick) ;;
           g <- get ;;
           seat <- from_option ValueError (list_index winner_id (player_order g)) ;;
           modify (set_current_player_index seat) ;;
           g <- get ;;
           if length (completed_tricks g) =? 5 then complete_round shuffled else ret tt
     end)%py.
Proof. reflexivity. Qed.

Lemma play_card_eq shuffled player_id card :
  play_card shuffled player_id card =
    (g <- get ;;
     if negb (can_play_card g player_id card) then ret false
     else
       player <- from_option KeyError (players g !! player_id) ;;
       hand' <- from_option ValueError (list_remove_first card (hand player)) ;;
       modify (set_players (<[player_id := set_hand hand' player]> (players g))) ;;
       (if length (cards (current_trick g)) =? 0
        then modify (fun g => set_current_trick (set_leader player_id (current_trick g)) g)
        else ret tt) ;;
       modify (fun g => set_current_trick
                          (set_cards (cards (current_trick g) ++ [(player_id, card)])
                                     (current_trick g)) g) ;;
       g <- get ;;
       (if length (cards (current_trick g)) =? 4
        then complete_trick shuffled
        else modify (fun g => set_current_player_index
                                ((current_player_index g + 1) mod 4) g)) ;;
       ret true)%py.
Proof. reflexivity. Qed.

Lemma start_playing_phase_eq :
  start_playing_phase =
    (modify (set_phase PLAYING) ;;
     modify (fun g => set_current_player_index ((dealer_index g + 1) mod 4) g))%py.
Proof. reflexivity. Qed.

Lemma handle_trump_selection_eq shuffled player_id action suit_arg :
  handle_trump_selection shuffled player_id action suit_arg =
    (g <- get ;;
     if negb (bool_decide (phase g = TRUMP_SELECTION)) then ret false
     else
       current_player_id <-
         from_option IndexError (player_order g !! trump_selection_player_index g) ;;
       if negb (bool_decide (player_id = current_player_id)) then ret false
       else if bool_decide (action = "order_up") && (trump_selection_round g =? 1) then
         turned <- from_option AttributeError (trump_card g) ;;
         modify (set_trump_suit (Some (suit turned))) ;;
         modify (set_trump_maker (Some player_id)) ;;
         dealer_id <- from_option IndexError (player_order g !! dealer_index g) ;;
         dealer <- from_option KeyError (players g !! dealer_id) ;;
         modify (set_players
                   (<[dealer_id := set_hand (hand dealer ++ [turned]) dealer]> (players g))) ;;
         start_playing_phase ;;
         ret true
       else if bool_decide (action = "name_trump") && (trump_selection_round g =? 2)
               && bool_decide (is_Some suit_arg) then
         turned <- from_option AttributeError (trump_card g) ;;
         if negb (bool_decide (suit_arg = Some (suit turned))) then
           modify (set_trump_suit suit_arg) ;;
           modify (set_trump_maker (Some player_id)) ;;
           start_playing_phase ;;
           ret true
         else ret false
       else if bool_decide (action = "pass") then
         modify (set_trump_selection_player_index
                   ((trump_selection_player_index g + 1) mod 4)) ;;
         g <- get ;;
         (if (trump_selection_round g =? 1) &&
             (trump_selection_player_index g =? (dealer_index g + 1) mod 4)
          then modify (set_trump_selection_round 2)
          else if (trump_selection_round g =? 2) &&
                  (trump_selection_player_index g =? (dealer_index g + 1) mod 4)
          then deal_cards shuffled
          else ret tt) ;;
         ret true
       else ret false)%py.
Proof. reflexivity. Qed.

Lemma handle_going_alone_eq player_id alone :
  handle_going_alone player_id alone =
    (g <- get ;;
     if bool_decide (Some player_id = trump_maker g) then
       modify (set_going_alone (if alone then Some player_id else None)) ;;
       ret true
     else ret false)%py.
Proof. reflexivity. Qed.

Lemma start_game_eq shuffled :
  start_game shuffled =
    (g <- get ;;
     if negb (size (players g) =? 4) then ret false
     else
       modify (set_phase DEALING) ;;
       deal_cards shuffled ;;
       ret true)%py.
Proof. reflexivity. Qed.

Lemma add_player_eq shuffled player_id name is_ai :
  add_player shuffled player_id name is_ai =
    (g <- get ;;
     if 4 <=? size (players g) then ret false
     else
       let position := size (players g) in
       modify (set_players
                 (<[player_id := mkPlayer player_id name [] position true is_ai]>
                    (players g))) ;;
       modify (fun g => set_player_order (player_order g ++ [player_id]) g) ;;
       g <- get ;;
       (if size (players g) =? 4 then (_ <- start_game shuffled ;; ret tt) else ret tt) ;;
       ret true)%py.
Proof. reflexivity. Qed.

(** A state reached by assignments that touch neither the scores, nor the
    dealer, nor the phase. *)
Ltac same_core_tac := repeat split; by game_simpl.

Lemma complete_trick_effect shuffled g :
  let g' := state_of (complete_trick shuffled g) in quiet g g' ∨ scored g g'.
Proof.
  cbv zeta. rewrite complete_trick_eq. py_step.
  destruct (trump_suit g) as [trump|]; py_step; [|left; apply quiet_refl].
  destruct (negb _); py_step; [left; apply quiet_refl|].
  destruct (cards (current_trick g) !! 0) as [first|]; py_step;
    [|left; apply quiet_refl].
  cbv zeta.
  destruct (cards (current_trick g) !! _) as [won|]; py_step;
    [|left; apply quiet_refl].
  game_simpl.
  destruct (list_index _ _) as [seat|]; py_step;
    [|left; apply same_core_quiet; same_core_tac].
  game_simpl.
  match goal with |- context [if ?b then _ else _] => destruct b end.
  - match goal with |- context [complete_round shuffled ?g1] =>
      apply (effect_after_same_core g g1); [same_core_tac|];
      apply complete_round_effect end.
  - py_step. left. apply same_core_quiet. same_core_tac.
Qed.

Lemma bind_ret_state {A B} (m : M A) (b : B) g :
  state_of (bind m (fun _ => ret b) g) = state_of (m g).
Proof. unfold bind, state_of. by destruct (m g) as [g' [a|e]]. Qed.

Lemma bind_state_of {A B} (m : M A) (k : A → M B) g :
  (∀ a g', state_of (k a g') = g') → state_of (bind m k g) = state_of (m g).
Proof.
  intros Hk. rewrite bind_unfold. destruct (m g) as [g' [a|e]]; [|done].
  by rewrite Hk.
Qed.

Lemma play_card_effect shuffled player_id card g :
  let g' := state_of (play_card shuffled player_id card g) in
  quiet g g' ∨ scored g g'.
Proof.
  cbv zeta. rewrite play_card_eq. py_step.
  destruct (negb _); py_step; [left; apply quiet_refl|].
  destruct (players g !! player_id) as [player|]; py_step;
    [|left; apply quiet_refl].
  destruct (list_remove_first card (hand player)) as [hand'|]; py_step;
    [|left; apply quiet_refl].
  game_simpl. rewrite bind_unfold.
  destruct (length (cards (current_trick g)) =? 0); py_step; game_simpl;
    rewrite bind_ret_state;
    match goal with |- context [if ?b then _ else _] => destruct b end;
    try (py_step; left; apply same_core_quiet; same_core_tac);
    match goal with |- context [complete_trick shuffled ?g1] =>
      apply (effect_after_same_core g g1); [same_core_tac|];
      apply complete_trick_effect end.
Qed.

Lemma start_game_quiet shuffled g : quiet g (state_of (start_game shuffled g)).
Proof.
  rewrite start_game_eq. py_step.
  destruct (negb _); py_step; [apply quiet_refl|].
  rewrite bind_ret_state.
  destruct (deal_cards_quiet shuffled (set_phase DEALING g)) as (Hs & Hd & Hp).
  repeat split.
  - rewrite Hs. by game_simpl.
  - rewrite Hd. by game_simpl.
  - intros H. apply Hp in H. by game_simpl_in H.
Qed.

Lemma quiet_after_same_core g g1 g' : same_core g g1 → quiet g1 g' → quiet g g'.
Proof.
  intros (Hs & Hd & Hp) (Hs' & Hd' & Hp'). repeat split; [congruence..|].
  intros ?. rewrite <- Hp. auto.
Qed.

Lemma add_player_quiet shuffled player_id name is_ai g :
  quiet g (state_of (add_player shuffled player_id name is_ai g)).
Proof.
  rewrite add_player_eq. py_step.
  destruct (4 <=? _); py_step; [apply quiet_refl|].
  cbv zeta. py_step. rewrite bind_ret_state.
  match goal with |- context [if ?b then _ else _] => destruct b end.
  - rewrite bind_ret_state.
    match goal with |- context [start_game shuffled ?g1] =>
      apply (quiet_after_same_core g g1); [same_core_tac|];
      apply start_game_quiet end.
  - py_step. apply same_core_quiet. same_core_tac.
Qed.

Lemma handle_going_alone_quiet player_id alone g :
  quiet g (state_of (handle_going_alone player_id alone g)).
Proof.
  rewrite handle_going_alone_eq. py_step.
  destruct (bool_decide _); py_step; [|apply quiet_refl].
  apply same_core_quiet. same_core_tac.
Qed.

(** Trump selection never ends the game: it leaves [TRUMP_SELECTION] only
    for [PLAYING]. *)
Lemma handle_trump_selection_quiet shuffled player_id action suit_arg g :
  quiet g (state_of (handle_trump_selection shuffled player_id action suit_arg g)).
Proof.
  rewrite handle_trump_selection_eq. py_step.
  destruct (negb _); py_step; [apply quiet_refl|].
  destruct (player_order g !! _) as [current|]; py_step; [|apply quiet_refl].
  destruct (negb _); py_step; [apply quiet_refl|].
  destruct (_ && _).
  { destruct (trump_card g) as [turned|]; py_step; [|apply quiet_refl].
    destruct (player_order g !! _) as [dealer_id|]; py_step;
      [|apply same_core_quiet; same_core_tac].
    destruct (players g !! _) as [dealer|]; py_step;
      [|apply same_core_quiet; same_core_tac].
    rewrite start_playing_phase_eq. py_step.
    repeat split; game_simpl; done. }
  destruct (_ && _).
  { destruct (trump_card g) as [turned|]; py_step; [|apply quiet_refl].
    destruct (negb _); py_step; [|apply quiet_refl].
    rewrite start_playing_phase_eq. py_step.
    repeat split; game_simpl; done. }
  destruct (bool_decide _); py_step; [|apply quiet_refl].
  rewrite bind_ret_state. game_simpl.
  destruct (_ && _); [py_step; apply same_core_quiet; same_core_tac|].
  destruct (_ && _); [|py_step; apply same_core_quiet; same_core_tac].
  match goal with |- context [deal_cards shuffled ?g1] =>
    apply (quiet_after_same_core g g1); [same_core_tac|];
    apply deal_cards_quiet end.
Qed.

Lemma exec_effect shuffled c g :
  quiet g (after shuffled c g) ∨ scored g (after shuffled c g).
Proof.
  unfold after. destruct c as [pid nm ai| |pid action s|pid alone|pid card];
    unfold exec.
  - left. apply add_player_quiet.
  - left. apply start_game_quiet.
  - left. apply handle_trump_selection_quiet.
  - left. apply handle_going_alone_quiet.
  - apply play_card_effect.
Qed.

(** A completed game has a score of at least 10. *)
Lemma reachable_game_complete g :
  reachable g → phase g = GAME_COMPLETE → 10 ≤ max_score g.
Proof.
  induction 1 as [room|g shuffled c Hg IH Hperm]; [done|].
  intros Hphase.
  destruct (exec_effect shuffled c g)
    as [(Hs & _ & Hp)|(team & points & Hs & [(Hmax & _)|(Hmax & [Hp|Hp])])].
  - unfold max_score. rewrite Hs. by apply IH, Hp.
  - done.
  - rewrite Hp in Hphase. apply IH in Hphase. unfold max_score in *.
    rewrite Hs in Hmax. pose proof (team_add_le team points (team_scores g)). lia.
  - congruence.
Qed.

(** C6: over every run of calls, whatever their arguments and whether they
    return or raise: neither team's score ever decreases; the phase is
    [GAME_COMPLETE] only when a score is 10 or more; the call whose scoring
    first brings a score to 10 or more leaves the phase [GAME_COMPLETE];
    and the dealer moves on (which only [start_next_round] does) only when
    both scores are below 10. *)
Theorem scores_and_game_end g shuffled c :
  reachable g →
  let g' := after shuffled c g in
  (team_scores g).1 ≤ (team_scores g').1 ∧
  (team_scores g).2 ≤ (team_scores g').2 ∧
  (phase g = GAME_COMPLETE → 10 ≤ max_score g) ∧
  (max_score g < 10 → 10 ≤ max_score g' → phase g' = GAME_COMPLETE) ∧
  (dealer_index g' ≠ dealer_index g → max_score g' < 10).
Proof.
  intros Hg g'. subst g'.
  split; [|split; [|split; [by apply reachable_game_complete|]]];
    destruct (exec_effect shuffled c g)
      as [(Hs & Hd & Hp)|(team & points & Hs & [(Hmax & Hp & Hd)|(Hmax & Hp)])];
    try (rewrite Hs; first [done | apply team_add_le]).
  - split; [|done]. unfold max_score. rewrite Hs. lia.
  - done.
  - split; [lia|done].
Qed.

Lemma scores_and_game_end_witness :
  (team_scores seated).1 ≤
    (team_scores (after create_deck (HandleTrumpSelection "p1" "pass" None) seated)).1.
Proof.
  apply (scores_and_game_end seated create_deck
           (HandleTrumpSelection "p1" "pass" None) reachable_seated).
Defined.

(** ** Dealing, as a function *)

Lemma give_is_Some ps pc player_id :
  is_Some (give ps pc !! player_id) ↔ is_Some (ps !! player_id).
Proof.
  unfold give. destruct (ps !! pc.1) as [p|] eqn:Hp; [|done].
  rewrite lookup_insert_is_Some. split.
  - intros [<-|[_ ?]]; [by eexists|done].
  - intros H. destruct (decide (pc.1 = player_id)); auto.
Qed.

Lemma give_fold_is_Some ps pairs player_id :
  is_Some (foldl give ps pairs !! player_id) ↔ is_Some (ps !! player_id).
Proof.
  revert ps. induction pairs as [|pc pairs IH]; intros ps; [done|].
  simpl. by rewrite IH, give_is_Some.
Qed.

(** One pass over the seats deals the next cards of the deck in order. *)
Lemma deal_pass_returns order card_index g :
  Forall (fun player_id => is_Some (players g !! player_id)) order →
  card_index + length order ≤ length (deck g) →
  deal_pass order card_index g =
    (set_players (foldl give (players g) (zip order (drop card_index (deck g)))) g,
     Returned (card_index + length order)).
Proof.
  revert card_index g.
  induction order as [|player_id rest IH]; intros card_index g Hall Hlen.
  - simpl. rewrite ret_run, set_players_same. do 2 f_equal. lia.
  - apply Forall_cons in Hall as [[p Hp] Hall]. simpl in Hlen.
    destruct (lookup_lt_is_Some_2 (deck g) card_index) as [c Hc]; [lia|].
    rewrite deal_pass_cons. py_step. rewrite Hp. py_step. rewrite Hc. py_step.
    rewrite IH; game_simpl.
    + rewrite (drop_S _ _ _ Hc). cbn [zip zip_with foldl].
      assert (Hgive : give (players g) (player_id, c) =
                      <[player_id:=set_hand (hand p ++ [c]) p]> (players g))
        by (unfold give; simpl; by rewrite Hp).
      rewrite Hgive, set_players_twice. do 2 f_equal. simpl. lia.
    + eapply Forall_impl; [exact Hall|]. intros q Hq. simpl in Hq.
      apply lookup_insert_is_Some'. by right.
    + lia.
Qed.

Lemma zip_app_l {A B} (l1 l2 : list A) (k : list B) :
  zip (l1 ++ l2) k = zip l1 k ++ zip l2 (drop (length l1) k).
Proof. by rewrite zip_with_app_l, zip_with_take_r. Qed.

(** [n] passes deal the next [n * len(player_order)] cards, seat by seat. *)
Lemma deal_passes_returns n card_index g :
  Forall (fun player_id => is_Some (players g !! player_id)) (player_order g) →
  card_index + n * length (player_order g) ≤ length (deck g) →
  deal_passes n card_index g =
    (set_players
       (foldl give (players g)
          (zip (concat (replicate n (player_order g))) (drop card_index (deck g)))) g,
     Returned (card_index + n * length (player_order g))).
Proof.
  revert card_index g. induction n as [|n IH]; intros card_index g Hall Hlen.
  - unfold deal_passes. simpl. rewrite ret_run, set_players_same.
    do 2 f_equal. lia.
  - rewrite deal_passes_succ. py_step.
    rewrite (bind_returned _ _ _ _ _ (deal_pass_returns _ card_index g Hall
      ltac:(simpl in Hlen; lia))). cbv beta.
    rewrite IH; game_simpl.
    + rewrite set_players_twice. simpl replicate. simpl concat.
      rewrite zip_app_l, foldl_app, drop_drop. do 2 f_equal. simpl. lia.
    + eapply Forall_impl; [exact Hall|]. intros q Hq. simpl in Hq.
      by apply give_fold_is_Some.
    + simpl in Hlen. lia.
Qed.

(** The state a deal leaves when the seats are filled and the deck has its
    24 cards: it returns, and the turned card is the 21st of the deck. *)
Lemma deal_cards_returns shuffled g turned :
  seats_filled g → shuffled !! 20 = Some turned →
  deal_cards shuffled g =
    (set_trump_selection_player_index ((dealer_index g + 1) mod 4)
       (set_trump_selection_round 1
          (set_phase TRUMP_SELECTION
             (set_trump_card (Some turned)
                (set_players
                   (foldl give (set_hand [] <$> players g)
                      (zip (concat (replicate 5 (player_order g))) shuffled))
                   (set_deck shuffled g))))),
     Returned tt).
Proof.
  intros (Hlen & _ & Hall) Hturned.
  rewrite deal_cards_eq. py_step.
  match goal with |- context [bind (deal_passes 5 0) _ ?g1] =>
    assert (H1 : Forall (fun player_id => is_Some (players g1 !! player_id))
                   (player_order g1));
    [|assert (H2 : 0 + 5 * length (player_order g1) ≤ length (deck g1));
      [|rewrite (bind_returned _ _ _ _ _ (deal_passes_returns 5 0 g1 H1 H2))]]
  end; game_simpl.
  - eapply Forall_impl; [exact Hall|]. intros q Hq. simpl in Hq.
    by rewrite lookup_fmap, fmap_is_Some.
  - rewrite Hlen. apply lookup_lt_Some in Hturned. lia.
  - cbv beta. py_step. game_simpl. rewrite Hlen. simpl (0 + 5 * 4).
    rewrite Hturned. py_step. game_simpl. by rewrite !set_players_twice.
Qed.

(** ** The cards of a round *)

Lemma all_hands_insert ps player_id p p' :
  ps !! player_id = Some p →
  all_hands (<[player_id := p']> ps) ≡ₚ hand p' ++ all_hands (delete player_id ps).
Proof.
  intros _. unfold all_hands. rewrite <- insert_delete_eq.
  rewrite map_to_list_insert by apply lookup_delete_eq. by rewrite bind_cons.
Qed.

Lemma all_hands_lookup ps player_id p :
  ps !! player_id = Some p →
  all_hands ps ≡ₚ hand p ++ all_hands (delete player_id ps).
Proof.
  intros Hp. rewrite <- (insert_delete_id ps player_id p Hp) at 1.
  unfold all_hands. rewrite map_to_list_insert by apply lookup_delete_eq.
  by rewrite bind_cons.
Qed.

Lemma all_hands_give ps pc :
  is_Some (ps !! pc.1) → all_hands (give ps pc) ≡ₚ all_hands ps ++ [pc.2].
Proof.
  intros [p Hp]. unfold give. rewrite Hp.
  rewrite (all_hands_insert _ _ p) by done. rewrite (all_hands_lookup ps _ p Hp).
  simpl. rewrite <- !(assoc_L (++)). apply Permutation_app_head.
  apply Permutation_app_comm.
Qed.

Lemma all_hands_give_fold ps pairs :
  Forall (fun pc => is_Some (ps !! pc.1)) pairs →
  all_hands (foldl give ps pairs) ≡ₚ all_hands ps ++ pairs.*2.
Proof.
  revert ps. induction pairs as [|pc pairs IH]; intros ps Hall.
  - simpl. by rewrite app_nil_r.
  - apply Forall_cons in Hall as [Hpc Hall]. simpl. rewrite IH.
    + rewrite all_hands_give by done. by rewrite <- (assoc_L (++)).
    + eapply Forall_impl; [exact Hall|]. intros q Hq. simpl in Hq.
      by apply give_is_Some.
Qed.

Lemma all_hands_cleared ps : all_hands (set_hand [] <$> ps) = [].
Proof.
  unfold all_hands. rewrite map_to_list_fmap.
  induction (map_to_list ps) as [|[k p] l IH]; [done|].
  rewrite fmap_cons, bind_cons. by rewrite IH.
Qed.

(** What a player holds after cards were given out: the old hand followed
    by the cards addressed to that player, in order. *)
Lemma give_fold_hand ps pairs player_id p :
  ps !! player_id = Some p →
  foldl give ps pairs !! player_id =
    Some (set_hand (hand p ++ (filter (fun pc => pc.1 = player_id) pairs).*2) p).
Proof.
  revert ps p. induction pairs as [|[q c] pairs IH]; intros ps p Hp.
  - simpl. rewrite app_nil_r. by destruct p.
  - simpl. rewrite filter_cons. simpl. unfold give at 2. simpl.
    destruct (decide (q = player_id)) as [->|Hne].
    + rewrite Hp. erewrite IH by apply lookup_insert_eq.
      simpl. by rewrite <- (assoc_L (++)).
    + destruct (ps !! q) as [pq|]; [|by apply IH].
      apply IH. by rewrite lookup_insert_ne.
Qed.

Lemma filter_fst_length {A B} `{EqDecision A} (x : A) (pairs : list (A * B)) :
  length (filter (fun pc => pc.1 = x) pairs) = length (filter (x =.) pairs.*1).
Proof.
  induction pairs as [|[a b] pairs IH]; [done|].
  rewrite fmap_cons, !filter_cons. simpl.
  destruct (decide (a = x)) as [->|Hne].
  - rewrite decide_True by done. simpl. by rewrite IH.
  - rewrite decide_False by done. done.
Qed.

Lemma filter_replicate_length {A} `{EqDecision A} (x : A) n (l : list A) :
  length (filter (x =.) (concat (replicate n l))) = n * length (filter (x =.) l).
Proof.
  induction n as [|n IH]; [done|].
  simpl. by rewrite filter_app, length_app, IH.
Qed.

Lemma filter_NoDup_length {A} `{EqDecision A} (x : A) (l : list A) :
  NoDup l → x ∈ l → length (filter (x =.) l) = 1.
Proof.
  induction 1 as [|y l Hy Hl IH]; [by intros ?%elem_of_nil|].
  intros Hx. rewrite filter_cons. destruct (decide (x = y)) as [->|Hne].
  - simpl. f_equal. apply length_zero_iff_nil.
    destruct (filter (y =.) l) as [|z r] eqn:Hf; [done|].
    assert (z ∈ filter (y =.) l) as [<- Hz]%list_elem_of_filter
      by (rewrite Hf; left). done.
  - apply IH. by apply elem_of_cons in Hx as [?|?].
Qed.

Lemma elem_of_concat_replicate {A} (x : A) n (l : list A) :
  x ∈ concat (replicate n l) → x ∈ l.
Proof.
  induction n as [|n IH]; simpl; [by intros ?%elem_of_nil|].
  rewrite elem_of_app. intros [?|?]; auto.
Qed.

Lemma create_deck_NoDup : NoDup create_deck.
Proof. apply (bool_decide_eq_true_1 (NoDup create_deck)). vm_compute. reflexivity. Qed.

(** The cards of a fresh deal, when the seats are filled: every seat holds
    5 cards, a card is turned up, 3 cards remain, and these 24 cards are
    the 24 cards of [create_deck], each exactly once. *)
Lemma deal_cards_partition shuffled g :
  seats_filled g → create_deck ≡ₚ shuffled →
  let g' := state_of (deal_cards shuffled g) in
  outcome_of (deal_cards shuffled g) = Returned tt ∧
  (∀ player_id, player_id ∈ player_order g →
     ∃ p, players g' !! player_id = Some p ∧ length (hand p) = 5) ∧
  (∃ turned, trump_card g' = Some turned) ∧
  length (kitty_remainder g') = 3 ∧
  all_hands (players g') ++ option_list (trump_card g') ++ kitty_remainder g'
    ≡ₚ create_deck ∧
  NoDup (all_hands (players g') ++ option_list (trump_card g') ++ kitty_remainder g').
Proof.
  intros Hseats Hperm.
  assert (Hlen : length shuffled = 24) by (by rewrite <- Hperm).
  destruct (lookup_lt_is_Some_2 shuffled 20) as [turned Hturned]; [lia|].
  cbv zeta. rewrite (deal_cards_returns shuffled g turned Hseats Hturned).
  rewrite state_of_pair, outcome_of_pair. unfold kitty_remainder. game_simpl.
  destruct Hseats as (Horder & Hnodup & Hall).
  set (order5 := concat (replicate 5 (player_order g))).
  assert (Hlen5 : length order5 = 20).
  { subst order5. destruct (player_order g) as [|a [|b [|c [|d [|]]]]]; done. }
  assert (Hhands : all_hands (foldl give (set_hand [] <$> players g)
                                (zip order5 shuffled)) ≡ₚ take 20 shuffled).
  { rewrite all_hands_give_fold, all_hands_cleared.
    - simpl. rewrite <- (zip_with_take_r _ order5 shuffled), Hlen5.
      rewrite snd_zip; [done|]. rewrite length_take. lia.
    - apply Forall_forall. intros [q c] Hin. simpl.
      rewrite lookup_fmap, fmap_is_Some.
      assert (q ∈ order5) as Hq.
      { apply (list_elem_of_fmap_2 fst) in Hin.
        rewrite fst_zip in Hin by lia. done. }
      subst order5. apply elem_of_concat_replicate in Hq.
      by eapply (proj1 (Forall_forall _ _) Hall). }
  assert (Hall24 : all_hands (foldl give (set_hand [] <$> players g)
                                (zip order5 shuffled)) ++
                   option_list (Some turned) ++ drop 21 shuffled ≡ₚ create_deck).
  { rewrite Hhands. simpl. rewrite (take_drop_middle _ _ _ Hturned). done. }
  split; [done|]. split; [|split; [by eexists|split; [|split]]].
  - intros player_id Hin.
    destruct (proj1 (Forall_forall _ _) Hall player_id Hin) as [p Hp].
    eexists. split.
    + apply give_fold_hand. by rewrite lookup_fmap, Hp.
    + simpl. rewrite length_fmap, filter_fst_length, fst_zip by lia.
      subst order5. rewrite filter_replicate_length.
      by rewrite filter_NoDup_length.
  - rewrite length_drop. lia.
  - done.
  - rewrite Hall24. apply create_deck_NoDup.
Qed.

(** ** Passing in the second round *)

(** What an accepted pass does in the second round: the turn moves on, and
    when it comes back to the seat left of the dealer the cards are dealt
    again; otherwise nothing else changes. *)
Lemma pass_in_round_two shuffled g player_id :
  phase g = TRUMP_SELECTION → trump_selection_round g = 2 →
  player_order g !! trump_selection_player_index g = Some player_id →
  handle_trump_selection shuffled player_id "pass" None g =
    if (trump_selection_player_index g + 1) mod 4 =? (dealer_index g + 1) mod 4
    then bind (deal_cards shuffled) (fun _ => ret true)
           (set_trump_selection_player_index
              ((trump_selection_player_index g + 1) mod 4) g)
    else (set_trump_selection_player_index
            ((trump_selection_player_index g + 1) mod 4) g, Returned true).
Proof.
  intros Hphase Hround Hplayer.
  rewrite handle_trump_selection_eq. py_step.
  rewrite Hphase, Hplayer, Hround. rewrite bool_decide_true by done.
  cbn [negb]. py_step. rewrite bool_decide_true by done. cbn [negb].
  rewrite (bool_decide_false ("pass" = "order_up")) by done.
  rewrite (bool_decide_false ("pass" = "name_trump")) by done.
  rewrite (bool_decide_true ("pass" = "pass")) by done.
  cbn [andb]. py_step. game_simpl. rewrite Hround.
  change (2 =? 1) with false. change (2 =? 2) with true. cbn [andb].
  destruct (_ =? _); [done|]. by py_step.
Qed.

Lemma seats_filled_frame g g' :
  player_order g' = player_order g →
  (∀ player_id, is_Some (players g' !! player_id) ↔ is_Some (players g !! player_id)) →
  seats_filled g → seats_filled g'.
Proof.
  intros Ho Hp (Hlen & Hnodup & Hall). unfold seats_filled. rewrite Ho.
  split; [done|split; [done|]].
  eapply Forall_impl; [exact Hall|]. intros q Hq. by apply Hp.
Qed.

(** C10: in the second round, starting left of the dealer, the first three
    passes move the turn and nothing else; the fourth pass returns [True]
    and deals again: the dealer and the scores are unchanged, the deck is
    the freshly shuffled arrangement of all 24 cards, the selection round
    is 1 again and the turn is left of the dealer. *)
Theorem fourth_pass_redeals shuffled g first second third fourth :
  seats_filled g → create_deck ≡ₚ shuffled →
  phase g = TRUMP_SELECTION → trump_selection_round g = 2 →
  trump_selection_player_index g = (dealer_index g + 1) mod 4 →
  player_order g !! ((dealer_index g + 1) mod 4) = Some first →
  player_order g !! ((dealer_index g + 2) mod 4) = Some second →
  player_order g !! ((dealer_index g + 3) mod 4) = Some third →
  player_order g !! ((dealer_index g + 4) mod 4) = Some fourth →
  let g3 := run shuffled
              [HandleTrumpSelection first "pass" None;
               HandleTrumpSelection second "pass" None;
               HandleTrumpSelection third "pass" None] g in
  let r := handle_trump_selection shuffled fourth "pass" None g3 in
  g3 = set_trump_selection_player_index ((dealer_index g + 4) mod 4) g ∧
  outcome_of r = Returned true ∧
  dealer_index (state_of r) = dealer_index g ∧
  team_scores (state_of r) = team_scores g ∧
  deck (state_of r) = shuffled ∧
  length (deck (state_of r)) = 24 ∧
  deck (state_of r) ≡ₚ create_deck ∧
  phase (state_of r) = TRUMP_SELECTION ∧
  trump_selection_round (state_of r) = 1 ∧
  trump_selection_player_index (state_of r) = (dealer_index g + 1) mod 4.
Proof.
  intros Hseats Hperm Hphase Hround Hturn H1 H2 H3 H4.
  assert (Hmod : ∀ k, ((dealer_index g + k) mod 4 + 1) mod 4 =
                      (dealer_index g + S k) mod 4).
  { intros k. rewrite Nat.Div0.add_mod_idemp_l. f_equal. lia. }
  assert (Hne : ∀ k, 0 < k < 4 →
                ((dealer_index g + S k) mod 4 =? (dealer_index g + 1) mod 4) = false).
  { intros k Hk. apply Nat.eqb_neq.
    pose proof (Nat.div_mod_eq (dealer_index g + S k) 4).
    pose proof (Nat.div_mod_eq (dealer_index g + 1) 4).
    pose proof (Nat.mod_upper_bound (dealer_index g + S k) 4).
    pose proof (Nat.mod_upper_bound (dealer_index g + 1) 4). lia. }
  assert (Hpass : ∀ k player_id,
    0 < k < 4 → player_order g !! ((dealer_index g + k) mod 4) = Some player_id →
    after shuffled (HandleTrumpSelection player_id "pass" None)
      (set_trump_selection_player_index ((dealer_index g + k) mod 4) g) =
    set_trump_selection_player_index ((dealer_index g + S k) mod 4) g).
  { intros k player_id Hk Hplayer. unfold after, exec.
    rewrite pass_in_round_two by (game_simpl; done). game_simpl.
    rewrite Hmod, Hne by done. by rewrite state_of_pair. }
  assert (Hg : g = set_trump_selection_player_index ((dealer_index g + 1) mod 4) g).
  { rewrite <- Hturn. by destruct g. }
  intros g3 r.
  assert (Hg3 : g3 = set_trump_selection_player_index ((dealer_index g + 4) mod 4) g).
  { subst g3. unfold run. cbn [foldl]. rewrite Hg at 1.
    rewrite (Hpass 1) by (done || lia). rewrite (Hpass 2) by (done || lia).
    by rewrite (Hpass 3) by (done || lia). }
  split; [done|]. subst r. rewrite Hg3.
  rewrite pass_in_round_two by (game_simpl; done). game_simpl.
  rewrite Hmod.
  replace ((dealer_index g + 5) mod 4) with ((dealer_index g + 1) mod 4).
  2: { replace (dealer_index g + 5) with (dealer_index g + 1 + 1 * 4) by lia.
       by rewrite Nat.Div0.mod_add. }
  rewrite Nat.eqb_refl.
  set (g4 := set_trump_selection_player_index ((dealer_index g + 1) mod 4)
               (set_trump_selection_player_index ((dealer_index g + 4) mod 4) g)).
  assert (Hseats4 : seats_filled g4).
  { eapply seats_filled_frame; [| |exact Hseats]; subst g4; by game_simpl. }
  destruct (deal_cards_partition shuffled g4 Hseats4 Hperm) as (Hret & _).
  destruct (deal_cards_frame shuffled g4)
    as [(_ & _ & _ & Hd & _ & _ & _ & _ & _ & Hs & _) _].
  destruct (deal_cards shuffled g4) as [g' o] eqn:Hdeal.
  rewrite outcome_of_pair in Hret. subst o.
  destruct (deal_cards_returns_phase _ _ _ Hdeal) as (Hp' & Hr' & Ht' & Hdeck').
  rewrite state_of_pair in Hd, Hs.
  rewrite (bind_returned _ _ _ _ _ Hdeal). py_step.
  rewrite Hd, Hs, Hdeck', Hp', Hr', Ht'. subst g4. game_simpl.
  repeat split; try done. by rewrite <- Hperm.
Qed.

Lemma seats_filled_second_round : seats_filled second_round.
Proof.
  split; [reflexivity|split].
  - apply (bool_decide_eq_true_1 (NoDup (player_order second_round))).
    vm_compute. reflexivity.
  - apply (bool_decide_eq_true_1
             (Forall (fun player_id => is_Some (players second_round !! player_id))
                     (player_order second_round))).
    vm_compute. reflexivity.
Qed.

Lemma fourth_pass_redeals_witness :
  let r := handle_trump_selection create_deck "p0" "pass" None
             (run create_deck
                [HandleTrumpSelection "p1" "pass" None;
                 HandleTrumpSelection "p2" "pass" None;
                 HandleTrumpSelection "p3" "pass" None] second_round) in
  outcome_of r = Returned true ∧ trump_selection_round (state_of r) = 1.
Proof.
  pose proof (fourth_pass_redeals create_deck second_round "p1" "p2" "p3" "p0"
    seats_filled_second_round (reflexivity _) eq_refl eq_refl eq_refl
    eq_refl eq_refl eq_refl eq_refl) as H.
  cbv zeta in H. cbv zeta. tauto.
Defined.

(** ** The cards of a round are kept *)

Lemma same_cards_refl g : same_cards g g.
Proof. by repeat split. Qed.

Lemma same_cards_in_round g g' : same_cards g g' → cards_in_round g' = cards_in_round g.
Proof.
  intros (Hp & Hc & Ht & Hu & Hd). unfold cards_in_round, kitty_remainder.
  by rewrite Hp, Hc, Ht, Hu, Hd.
Qed.

Ltac same_cards_tac := repeat split; by game_simpl.

Lemma succ_mod_4_ne d : (d + 1) mod 4 ≠ d.
Proof.
  pose proof (Nat.div_mod_eq (d + 1) 4).
  pose proof (Nat.mod_upper_bound (d + 1) 4). lia.
Qed.

(** Scoring a round leaves the cards where they are, unless it goes on to
    the next round, and then the dealer changes. *)
Lemma complete_round_cards shuffled g :
  let g' := state_of (complete_round shuffled g) in
  same_cards g g' ∨ dealer_index g' ≠ dealer_index g.
Proof.
  cbv zeta. rewrite complete_round_eq. py_step.
  destruct (count_team_tricks_pure (completed_tricks g) (0, 0) g) as [o Ho].
  rewrite bind_unfold, Ho. destruct o as [team_tricks|e];
    [|left; py_step; apply same_cards_refl].
  destruct (trump_maker g ≫= _) as [maker|]; py_step;
    [|left; apply same_cards_refl].
  cbv zeta. game_simpl.
  destruct (10 <=? _).
  - py_step. left. same_cards_tac.
  - right. match goal with |- context [start_next_round shuffled ?g1] =>
      destruct (start_next_round_frame shuffled g1) as (_ & -> & _) end.
    game_simpl. apply succ_mod_4_ne.
Qed.

(** Resolving a trick moves its cards from the current trick to the
    completed ones. *)
Lemma complete_trick_cards shuffled g :
  let g' := state_of (complete_trick shuffled g) in
  cards_in_round g' ≡ₚ cards_in_round g ∨ dealer_index g' ≠ dealer_index g.
Proof.
  cbv zeta. rewrite complete_trick_eq. py_step.
  destruct (trump_suit g) as [trump|]; py_step; [|by left].
  destruct (negb _); py_step; [by left|].
  destruct (cards (current_trick g) !! 0) as [first|]; py_step; [|by left].
  cbv zeta.
  destruct (cards (current_trick g) !! _) as [won|]; py_step; [|by left].
  game_simpl.
  set (archived := set_winner won.1 (current_trick g)).
  assert (Hmoved : ∀ g1,
    players g1 = players g → trump_card g1 = trump_card g → deck g1 = deck g →
    completed_tricks g1 = completed_tricks g ++ [archived] →
    current_trick g1 = empty_trick →
    cards_in_round g1 ≡ₚ cards_in_round g).
  { intros g1 Hp Hu Hd Hc Ht. unfold cards_in_round, kitty_remainder.
    rewrite Hp, Hu, Hd, Hc, Ht. rewrite bind_app. simpl.
    change (trick_cards archived) with (trick_cards (current_trick g)).
    rewrite app_nil_r. by rewrite <- !(assoc_L (++)). }
  destruct (list_index _ _) as [seat|]; py_step;
    [|left; apply Hmoved; by game_simpl].
  game_simpl.
  match goal with |- context [if ?b then _ else _] => destruct b end.
  - match goal with |- context [complete_round shuffled ?g1] =>
      destruct (complete_round_cards shuffled g1) as [Hsame|Hdealer];
      [left; rewrite (same_cards_in_round _ _ Hsame); apply Hmoved; by game_simpl
      |right; by game_simpl_in Hdealer] end.
  - py_step. left. apply Hmoved; by game_simpl.
Qed.

Lemma list_remove_first_perm c l l' :
  list_remove_first c l = Some l' → l ≡ₚ c :: l'.
Proof.
  revert l'. induction l as [|y l IH]; intros l'; [done|].
  simpl. case_bool_decide as Hy.
  - intros [= <-]. by subst.
  - destruct (list_remove_first c l) as [k|]; [|done]. simpl.
    intros [= <-]. rewrite (IH k eq_refl). apply perm_swap.
Qed.

(** Playing a card moves it from the hand to the current trick. *)
Lemma play_card_cards shuffled player_id card g :
  let g' := state_of (play_card shuffled player_id card g) in
  cards_in_round g' ≡ₚ cards_in_round g ∨ dealer_index g' ≠ dealer_index g.
Proof.
  cbv zeta. rewrite play_card_eq. py_step.
  destruct (negb _); py_step; [by left|].
  destruct (players g !! player_id) as [player|] eqn:Hplayer; py_step; [|by left].
  destruct (list_remove_first card (hand player)) as [hand'|] eqn:Hhand; py_step;
    [|by left].
  apply list_remove_first_perm in Hhand.
  assert (Hplayed : ∀ g1,
    players g1 = <[player_id := set_hand hand' player]> (players g) →
    trump_card g1 = trump_card g → deck g1 = deck g →
    completed_tricks g1 = completed_tricks g →
    trick_cards (current_trick g1) = trick_cards (current_trick g) ++ [card] →
    cards_in_round g1 ≡ₚ cards_in_round g).
  { intros g1 Hp Hu Hd Hc Ht. unfold cards_in_round, kitty_remainder.
    rewrite Hp, Hu, Hd, Hc, Ht.
    rewrite (all_hands_insert _ _ player) by done.
    rewrite (all_hands_lookup (players g) _ player Hplayer).
    simpl. rewrite Hhand. simpl.
    rewrite (Permutation_app_comm (trick_cards (current_trick g)) [card]).
    simpl. by rewrite <- !Permutation_middle. }
  game_simpl. rewrite bind_unfold.
  destruct (length (cards (current_trick g)) =? 0); py_step; game_simpl;
    rewrite bind_ret_state;
    (match goal with |- context [if ?b then _ else _] => destruct b end;
     [match goal with |- context [complete_trick shuffled ?g1] =>
        destruct (complete_trick_cards shuffled g1) as [Hkept|Hdealer];
        [left; rewrite Hkept; apply Hplayed; game_simpl; try done;
         unfold trick_cards; simpl; by rewrite fmap_app
        |right; by game_simpl_in Hdealer] end
     |py_step; left; apply Hplayed; game_simpl; try done;
      unfold trick_cards; simpl; by rewrite fmap_app]).
Qed.

Lemma handle_trump_selection_cards shuffled player_id action suit_arg g :
  action ≠ "order_up" → ¬ (action = "pass" ∧ redeals g) →
  same_cards g (state_of (handle_trump_selection shuffled player_id action suit_arg g)).
Proof.
  intros Haction Hredeal.
  rewrite handle_trump_selection_eq. py_step.
  destruct (negb _); py_step; [apply same_cards_refl|].
  destruct (player_order g !! _) as [current|]; py_step; [|apply same_cards_refl].
  destruct (negb _); py_step; [apply same_cards_refl|].
  rewrite (bool_decide_false (action = "order_up")) by done. cbn [andb].
  destruct (_ && _).
  { destruct (trump_card g) as [turned|]; py_step; [|apply same_cards_refl].
    destruct (negb _); py_step; [|apply same_cards_refl].
    rewrite start_playing_phase_eq. py_step. same_cards_tac. }
  case_bool_decide as Hpass; py_step; [|apply same_cards_refl].
  rewrite bind_ret_state. game_simpl.
  destruct (_ && _); [py_step; same_cards_tac|].
  destruct (_ && _) eqn:Hwrap; [|py_step; same_cards_tac].
  exfalso. apply Hredeal. split; [done|].
  apply andb_true_iff in Hwrap as [Hr Hi]. nat_tests. by split.
Qed.

(** An accepted order-up appends the turned card to the dealer's hand and
    moves no other card; [trump_card] still names the turned card. *)
Lemma order_up_cards shuffled player_id suit_arg g :
  let r := handle_trump_selection shuffled player_id "order_up" suit_arg g in
  outcome_of r = Returned true →
  ∃ turned,
    trump_card g = Some turned ∧ trump_card (state_of r) = Some turned ∧
    all_hands (players (state_of r)) ≡ₚ all_hands (players g) ++ [turned] ∧
    completed_tricks (state_of r) = completed_tricks g ∧
    current_trick (state_of r) = current_trick g ∧
    deck (state_of r) = deck g.
Proof.
  cbv zeta. rewrite handle_trump_selection_eq. py_step.
  destruct (negb _); py_step; [done|].
  destruct (player_order g !! _) as [current|]; py_step; [|done].
  destruct (negb _); py_step; [done|].
  rewrite (bool_decide_true ("order_up" = "order_up")) by done.
  rewrite (bool_decide_false ("order_up" = "name_trump")) by done.
  rewrite (bool_decide_false ("order_up" = "pass")) by done. cbn [andb].
  destruct (trump_selection_round g =? 1); py_step; [|done].
  destruct (trump_card g) as [turned|] eqn:Hturned; py_step; [|done].
  destruct (player_order g !! dealer_index g) as [dealer_id|]; py_step; [|done].
  destruct (players g !! dealer_id) as [dealer|] eqn:Hdealer; py_step; [|done].
  rewrite start_playing_phase_eq. py_step. intros _. game_simpl.
  exists turned. repeat split; try done.
  rewrite (all_hands_insert _ _ dealer) by done.
  rewrite (all_hands_lookup (players g) _ dealer Hdealer). simpl.
  rewrite <- !(assoc_L (++)). apply Permutation_app_head, Permutation_app_comm.
Qed.

(** Every accepted order-up, in any state, leaves the phase [PLAYING] with
    one card more in the dealer's hand. *)
Lemma order_up_starts_playing shuffled player_id suit_arg g :
  let r := handle_trump_selection shuffled player_id "order_up" suit_arg g in
  outcome_of r = Returned true →
  phase (state_of r) = PLAYING ∧
  ∃ dealer_id dealer dealer',
    player_order g !! dealer_index g = Some dealer_id ∧
    players g !! dealer_id = Some dealer ∧
    players (state_of r) !! dealer_id = Some dealer' ∧
    length (hand dealer') = S (length (hand dealer)).
Proof.
  cbv zeta. rewrite handle_trump_selection_eq. py_step.
  destruct (negb _); py_step; [done|].
  destruct (player_order g !! _) as [current|]; py_step; [|done].
  destruct (negb _); py_step; [done|].
  rewrite (bool_decide_true ("order_up" = "order_up")) by done.
  rewrite (bool_decide_false ("order_up" = "name_trump")) by done.
  rewrite (bool_decide_false ("order_up" = "pass")) by done. cbn [andb].
  destruct (trump_selection_round g =? 1); py_step; [|done].
  destruct (trump_card g) as [turned|]; py_step; [|done].
  destruct (player_order g !! dealer_index g) as [dealer_id|]; py_step; [|done].
  destruct (players g !! dealer_id) as [dealer|] eqn:Hdealer; py_step; [|done].
  rewrite start_playing_phase_eq. py_step. intros _. game_simpl.
  split; [done|]. exists dealer_id, dealer. eexists.
  split; [done|]. split; [done|]. split; [apply lookup_insert_eq|].
  simpl. rewrite length_app. simpl. lia.
Qed.

(** C7, amended.  A deal to four seated players partitions the 24 distinct
    cards into four hands of 5, the turned card and 3 remaining cards.
    Within a round, a played card (so long as the call does not go on to
    deal the next round, which moves the dealer), a going-alone call, a
    named trump and a pass that does not deal again keep the cards of
    hands, completed tricks, current trick, turned card and kitty remainder
    the same.  An accepted order-up puts the turned card into the dealer's
    hand while [trump_card] still names it: that card is then counted once
    more. *)
Theorem cards_of_a_round :
  (∀ shuffled g,
     seats_filled g → create_deck ≡ₚ shuffled →
     let g' := state_of (deal_cards shuffled g) in
     outcome_of (deal_cards shuffled g) = Returned tt ∧
     (∀ player_id, player_id ∈ player_order g →
        ∃ p, players g' !! player_id = Some p ∧ length (hand p) = 5) ∧
     (∃ turned, trump_card g' = Some turned) ∧
     length (kitty_remainder g') = 3 ∧
     all_hands (players g') ++ option_list (trump_card g') ++ kitty_remainder g'
       ≡ₚ create_deck ∧
     NoDup (all_hands (players g') ++ option_list (trump_card g') ++
            kitty_remainder g')) ∧
  (∀ shuffled player_id card g,
     let g' := after shuffled (PlayCard player_id card) g in
     dealer_index g' = dealer_index g → cards_in_round g' ≡ₚ cards_in_round g) ∧
  (∀ shuffled player_id alone g,
     cards_in_round (after shuffled (HandleGoingAlone player_id alone) g) =
     cards_in_round g) ∧
  (∀ shuffled player_id action suit_arg g,
     action ≠ "order_up" → ¬ (action = "pass" ∧ redeals g) →
     cards_in_round
       (after shuffled (HandleTrumpSelection player_id action suit_arg) g) =
     cards_in_round g) ∧
  (∀ shuffled player_id suit_arg g,
     let c := HandleTrumpSelection player_id "order_up" suit_arg in
     outcome_of (exec shuffled c g) = Returned true →
     ∃ turned, trump_card g = Some turned ∧
               cards_in_round (after shuffled c g) ≡ₚ turned :: cards_in_round g).
Proof.
  split; [exact deal_cards_partition|split; [|split; [|split]]].
  - intros shuffled player_id card g g' Hdealer. subst g'. unfold after, exec in *.
    by destruct (play_card_cards shuffled player_id card g).
  - intros shuffled player_id alone g. unfold after, exec.
    apply same_cards_in_round. rewrite handle_going_alone_eq. py_step.
    destruct (bool_decide _); py_step; [same_cards_tac|apply same_cards_refl].
  - intros shuffled player_id action suit_arg g Haction Hredeal.
    apply same_cards_in_round. by apply handle_trump_selection_cards.
  - intros shuffled player_id suit_arg g c Hret. subst c. unfold after, exec in *.
    destruct (order_up_cards shuffled player_id suit_arg g Hret)
      as (turned & Hturned & Hturned' & Hhands & Hc & Ht & Hd).
    exists turned. split; [done|]. unfold cards_in_round, kitty_remainder.
    rewrite Hhands, Hc, Ht, Hd, Hturned, Hturned'.
    rewrite <- (assoc_L (++)). cbn [app]. by rewrite <- Permutation_middle.
Qed.

Lemma cards_of_a_round_witness :
  cards_in_round (after create_deck (PlayCard "p1" (mkCard HEARTS TEN))
                        (after create_deck
                               (HandleTrumpSelection "p1" "name_trump" (Some HEARTS))
                               second_round))
  ≡ₚ cards_in_round second_round.
Proof.
  destruct cards_of_a_round as (_ & Hplay & _ & Hbid & _).
  etransitivity; [apply Hplay; vm_compute; reflexivity|].
  apply reflexive_eq, Hbid; [done|]. intros [? _]. done.
Defined.

(** C7 as stated fails: before East orders up, the cards of the round are
    the 24 cards; after it, the turned jack of spades is in the dealer's
    hand and is still the turned card, so the same collection holds 25
    cards, one of them twice. *)
Lemma order_up_counts_turned_card_twice :
  let g' := after create_deck (HandleTrumpSelection "p1" "order_up" None) seated in
  cards_in_round seated ≡ₚ create_deck ∧
  length (cards_in_round g') = 25 ∧
  ¬ NoDup (cards_in_round g') ∧
  ¬ cards_in_round g' ≡ₚ create_deck.
Proof.
  cbv zeta. split; [|split; [|split]].
  - apply (bool_decide_eq_true_1 (cards_in_round seated ≡ₚ create_deck)).
    vm_compute. reflexivity.
  - vm_compute. reflexivity.
  - apply (bool_decide_eq_false_1 (NoDup _)). vm_compute. reflexivity.
  - intros H%Permutation_length. vm_compute in H. discriminate.
Qed.

(** ** The winner of a trick *)

Lemma In_create_deck c : In c create_deck.
Proof. destruct c as [[] []]; simpl; tauto. Qed.

Lemma In_all_suits s : In s all_suits.
Proof. destruct s; simpl; tauto. Qed.

Lemma get_card_value_inj c1 c2 trump lead :
  get_card_value c1 trump lead = get_card_value c2 trump lead →
  0 < get_card_value c1 trump lead → c1 = c2.
Proof.
  intros H Hpos.
  assert (Hcheck : values_distinct_check = true) by (vm_compute; reflexivity).
  unfold values_distinct_check in Hcheck.
  pose proof (proj1 (forallb_forall _ _) Hcheck c1 (In_create_deck c1)) as H1.
  pose proof (proj1 (forallb_forall _ _) H1 c2 (In_create_deck c2)) as H2.
  pose proof (proj1 (forallb_forall _ _) H2 trump (In_all_suits trump)) as H3.
  pose proof (proj1 (forallb_forall _ _) H3 lead (In_all_suits lead)) as H4.
  simpl in H4. rewrite H, Nat.eqb_refl in H4. rewrite H in Hpos.
  rewrite (proj2 (Nat.ltb_lt _ _) Hpos) in H4. simpl in H4.
  by apply bool_decide_eq_true_1 in H4.
Qed.

(** The card that leads a trick is worth more than 0. *)
Lemma leading_card_value_pos c trump :
  0 < get_card_value c trump (get_effective_suit (Some trump) c).
Proof. destruct c as [s r]. destruct trump, s, r; vm_compute; lia. Qed.

Section TrickWinner.

Variables trump lead : Suit.

Local Abbreviation value := (fun pc : string * Card => get_card_value pc.2 trump lead).

(** The loop keeps the first position of the highest value seen so far. *)
Lemma winner_fold (pre l : list (string * Card)) i v :
  (value <$> pre) !! i = Some v →
  (∀ j x, (value <$> pre) !! j = Some x → x ≤ v ∧ (j < i → x < v)) →
  let r := foldl (winner_step trump lead) (i, v)
                 (zip (seq (length pre) (length l)) l) in
  (value <$> (pre ++ l)) !! r.1 = Some r.2 ∧
  (∀ j x, (value <$> (pre ++ l)) !! j = Some x → x ≤ r.2 ∧ (j < r.1 → x < r.2)).
Proof.
  revert pre i v. induction l as [|pc l IH]; intros pre i v Hi Hmax.
  - simpl. by rewrite app_nil_r.
  - assert (Hlt : i < length pre).
    { apply lookup_lt_Some in Hi. by rewrite length_fmap in Hi. }
    cbn [length seq zip zip_with foldl].
    assert (Hstep : winner_step trump lead (i, v) (length pre, pc) =
                    if v <? get_card_value pc.2 trump lead
                    then (length pre, get_card_value pc.2 trump lead) else (i, v))
      by reflexivity.
    rewrite Hstep. clear Hstep.
    replace (pre ++ pc :: l) with ((pre ++ [pc]) ++ l)
      by (by rewrite <- (assoc_L (++))).
    replace (S (length pre)) with (length (pre ++ [pc]))
      by (rewrite length_app; simpl; lia).
    destruct (v <? get_card_value pc.2 trump lead) eqn:Hcmp; nat_tests.
    + apply IH.
      * rewrite fmap_app, lookup_app_r by (by rewrite length_fmap).
        by rewrite length_fmap, Nat.sub_diag.
      * intros j x. rewrite fmap_app.
        destruct (decide (j < length pre)) as [Hj|Hj].
        -- rewrite lookup_app_l by (by rewrite length_fmap).
           intros Hx. apply Hmax in Hx as [Hx _]. lia.
        -- rewrite lookup_app_r by (rewrite length_fmap; lia).
           rewrite length_fmap.
           destruct (j - length pre) as [|k] eqn:Hk; [|done].
           simpl. intros [= <-]. lia.
    + apply IH.
      * rewrite fmap_app, lookup_app_l by (by rewrite length_fmap). done.
      * intros j x. rewrite fmap_app.
        destruct (decide (j < length pre)) as [Hj|Hj].
        -- rewrite lookup_app_l by (by rewrite length_fmap). apply Hmax.
        -- rewrite lookup_app_r by (rewrite length_fmap; lia).
           rewrite length_fmap.
           destruct (j - length pre) as [|k] eqn:Hk; [|done].
           simpl. intros [= <-]. lia.
Qed.

(** [winner_index] is a position of the trick, and no other position holds
    a higher value; the positions before it hold lower ones. *)
Lemma winner_index_max first rest :
  let w := winner_index trump lead (first :: rest) first.2 in
  ∃ v, (value <$> (first :: rest)) !! w = Some v ∧
       get_card_value first.2 trump lead ≤ v ∧
       ∀ j x, (value <$> (first :: rest)) !! j = Some x → x ≤ v ∧ (j < w → x < v).
Proof.
  cbv zeta. unfold winner_index. cbn [tail].
  destruct (winner_fold [first] rest 0 (get_card_value first.2 trump lead))
    as [Hw Hmax]; [done| |].
  { intros [|j] x; [|done]. simpl. intros [= <-]. lia. }
  cbn [length app] in Hw, Hmax.
  eexists. split; [exact Hw|]. split; [|exact Hmax].
  by apply (Hmax 0).
Qed.

End TrickWinner.

(** With distinct cards and the leading suit taken from the first card, the
    winning position holds the strict maximum: no tie is possible. *)
Lemma winner_index_strict_max trump (trick : list (string * Card)) first rest :
  trick = first :: rest → NoDup trick.*2 →
  let lead := get_effective_suit (Some trump) first.2 in
  let w := winner_index trump lead trick first.2 in
  ∃ winner_id winner_card,
    trick !! w = Some (winner_id, winner_card) ∧
    ∀ j p c, trick !! j = Some (p, c) → j ≠ w →
             get_card_value c trump lead < get_card_value winner_card trump lead.
Proof.
  intros -> Hnodup lead w.
  destruct (winner_index_max trump lead first rest) as (v & Hw & Hfirst & Hmax).
  fold w in Hw, Hmax.
  rewrite list_lookup_fmap in Hw.
  destruct ((first :: rest) !! w) as [[winner_id winner_card]|] eqn:Hwin; [|done].
  simpl in Hw. injection Hw as Hw.
  exists winner_id, winner_card. split; [done|].
  intros j p c Hj Hne.
  destruct (Hmax j (get_card_value c trump lead)) as [Hle Hlt].
  { by rewrite list_lookup_fmap, Hj. }
  rewrite Hw. destruct (decide (get_card_value c trump lead = v)) as [Heq|]; [|lia].
  exfalso. apply Hne.
  assert (c = winner_card).
  { apply (get_card_value_inj _ _ trump lead); [congruence|].
    pose proof (leading_card_value_pos first.2 trump). fold lead in H. lia. }
  subst c. eapply (NoDup_lookup _ _ _ winner_card Hnodup).
  - by rewrite list_lookup_fmap, Hj.
  - by rewrite list_lookup_fmap, Hwin.
Qed.

Lemma can_play_card_true g player_id card :
  can_play_card g player_id card = true →
  ∃ player, players g !! player_id = Some player ∧ card ∈ hand player.
Proof.
  unfold can_play_card. destruct (players g !! player_id) as [player|]; [|done].
  case_bool_decide; [|done]. intros _. by exists player.
Qed.

Lemma list_remove_first_elem c l : c ∈ l → is_Some (list_remove_first c l).
Proof.
  induction l as [|y l IH]; [by intros ?%elem_of_nil|].
  intros Hin. simpl. case_bool_decide as Hy; [by eexists|].
  apply elem_of_cons in Hin as [->|Hin]; [done|].
  destruct (IH Hin) as [k ->]. by eexists.
Qed.

Lemma list_index_elem x l : x ∈ l → is_Some (list_index x l).
Proof.
  induction l as [|y l IH]; [by intros ?%elem_of_nil|].
  intros Hin. simpl. case_bool_decide as Hy; [by eexists|].
  apply elem_of_cons in Hin as [->|Hin]; [done|].
  destruct (IH Hin) as [k ->]. by eexists.
Qed.

(** Scoring a round does not touch [current_player_index], and it keeps
    the completed tricks unless the next round is dealt. *)
Lemma complete_round_leader shuffled g :
  let g' := state_of (complete_round shuffled g) in
  current_player_index g' = current_player_index g ∧
  (completed_tricks g' = completed_tricks g ∨ dealer_index g' ≠ dealer_index g).
Proof.
  cbv zeta. split.
  - rewrite complete_round_eq. py_step.
    destruct (count_team_tricks_pure (completed_tricks g) (0, 0) g) as [o Ho].
    rewrite bind_unfold, Ho. destruct o as [team_tricks|e]; [|by py_step].
    destruct (trump_maker g ≫= _) as [maker|]; py_step; [|done].
    cbv zeta. game_simpl. destruct (10 <=? _).
    + py_step. by game_simpl.
    + match goal with |- context [start_next_round shuffled ?g1] =>
        destruct (start_next_round_frame shuffled g1) as (_ & _ & _ & -> & _) end.
      by game_simpl.
  - destruct (complete_round_cards shuffled g) as [(_ & Hc & _)|Hd]; auto.
Qed.

(** C5: when the fourth card is played to a trick under a set trump suit,
    and the four cards are distinct, the winner recorded in the archived
    trick is the player of the card whose value, with the round's trump suit
    and the effective suit of the first card as leading suit, is strictly
    higher than the value of each of the other three cards; and
    [current_player_index] becomes that player's index in
    [player_order]. *)
Theorem fourth_card_decides_trick shuffled g trump player_id card trick :
  trump_suit g = Some trump →
  length (cards (current_trick g)) = 3 →
  can_play_card g player_id card = true →
  trick = cards (current_trick g) ++ [(player_id, card)] →
  NoDup trick.*2 →
  (∀ p, p ∈ trick.*1 → p ∈ player_order g) →
  let g' := state_of (play_card shuffled player_id card g) in
  ∃ leading winner_id winner_card,
    trick !! 0 = Some leading ∧
    (winner_id, winner_card) ∈ trick ∧
    (∀ p c, (p, c) ∈ trick → c ≠ winner_card →
       get_card_value c trump (get_effective_suit (Some trump) leading.2)
       < get_card_value winner_card trump
           (get_effective_suit (Some trump) leading.2)) ∧
    (completed_tricks g' =
       completed_tricks g ++ [mkTrick trick (leader (current_trick g)) winner_id]
     ∨ dealer_index g' ≠ dealer_index g) ∧
    list_index winner_id (player_order g) = Some (current_player_index g').
Proof.
  intros Htrump Hlen Hcan Htrick Hnodup Hseated.
  destruct (can_play_card_true _ _ _ Hcan) as (player & Hplayer & Hin).
  destruct (list_remove_first_elem _ _ Hin) as [hand' Hhand].
  assert (∃ leading rest, trick = leading :: rest) as (leading & rest & Hshape).
  { rewrite Htrick. destruct (cards (current_trick g)); [done|]. simpl. eauto. }
  destruct (winner_index_strict_max trump trick leading rest Hshape Hnodup)
    as (winner_id & winner_card & Hwin & Hmax).
  assert (Hwinner_in : (winner_id, winner_card) ∈ trick)
    by (by eapply list_elem_of_lookup_2).
  destruct (list_index_elem winner_id (player_order g)) as [seat Hseat].
  { apply Hseated. by apply (list_elem_of_fmap_2 fst) in Hwinner_in. }
  exists leading, winner_id, winner_card.
  split; [by rewrite Hshape|]. split; [done|]. split.
  { intros p c Hpc Hne. apply list_elem_of_lookup_1 in Hpc as [j Hj].
    apply (Hmax j p c Hj). intros ->. rewrite Hwin in Hj. congruence. }
  cbv zeta. rewrite play_card_eq. py_step. rewrite Hcan. cbn [negb].
  rewrite Hplayer. py_step. rewrite Hhand. py_step. game_simpl.
  rewrite Hlen. change (3 =? 0) with false. cbv iota. py_step. game_simpl.
  cbn [cards set_cards]. rewrite <- Htrick.
  assert (Hlen4 : length trick = 4).
  { rewrite Htrick, length_app, Hlen. done. }
  rewrite Hlen4. change (4 =? 4) with true. cbv iota.
  rewrite bind_ret_state, complete_trick_eq. py_step. game_simpl.
  rewrite Htrump. cbn [cards set_cards]. rewrite Hlen4.
  change (negb (4 =? 4)) with false. cbv iota.
  assert (Hfirst : trick !! 0 = Some leading) by (by rewrite Hshape).
  rewrite Hfirst. py_step. cbv zeta. game_simpl. rewrite Hwin.
  py_step. game_simpl.
  cbn [fst]. rewrite Hseat. py_step. game_simpl.
  match goal with |- context [if ?b then _ else _] => destruct b end.
  - match goal with |- context [complete_round shuffled ?g1] =>
      destruct (complete_round_leader shuffled g1) as [Hcpi [Hc|Hd]] end;
      game_simpl_in Hcpi; rewrite Hcpi.
    + game_simpl_in Hc. rewrite Hc. split; [|done]. left. done.
    + game_simpl_in Hd. split; [|done]. by right.
  - py_step. game_simpl. split; [|done]. by left.
Qed.

Lemma fourth_card_decides_trick_witness :
  ∃ winner_id,
    list_index winner_id (player_order three_played) =
      Some (current_player_index
              (state_of (play_card create_deck "p0" (mkCard HEARTS KING) three_played))).
Proof.
  destruct (fourth_card_decides_trick create_deck three_played SPADES "p0"
              (mkCard HEARTS KING)
              [("p1", mkCard HEARTS TEN); ("p2", mkCard HEARTS JACK);
               ("p3", mkCard HEARTS QUEEN); ("p0", mkCard HEARTS KING)])
    as (leading & winner_id & winner_card & _ & _ & _ & _ & Hseat).
  - vm_compute. reflexivity.
  - vm_compute. reflexivity.
  - vm_compute. reflexivity.
  - vm_compute. reflexivity.
  - apply (bool_decide_eq_true_1 (NoDup _)). vm_compute. reflexivity.
  - apply Forall_forall.
    apply (bool_decide_eq_true_1
             (Forall (fun p => p ∈ player_order three_played) _)).
    vm_compute. reflexivity.
  - by exists winner_id.
Defined.

(** ** A game under way stays well formed *)

Lemma same_roster_refl g : same_roster g g.
Proof. by split. Qed.

Lemma same_roster_trans g1 g2 g3 :
  same_roster g1 g2 → same_roster g2 g3 → same_roster g1 g3.
Proof.
  intros [Ho Hp] [Ho' Hp']. split; [congruence|].
  intros q. by rewrite Hp', Hp.
Qed.

Lemma same_roster_insert g player_id p p' :
  players g !! player_id = Some p →
  same_roster g (set_players (<[player_id := p']> (players g)) g).
Proof.
  intros Hp. split; [by game_simpl|]. intros q. game_simpl.
  rewrite lookup_insert_is_Some. split.
  - intros [<-|[_ ?]]; [by eexists|done].
  - intros H. destruct (decide (player_id = q)); auto.
Qed.

Ltac same_roster_tac := split; [by game_simpl|intros ?; by game_simpl].

Lemma deal_pass_roster order card_index g :
  same_roster g (state_of (deal_pass order card_index g)).
Proof.
  revert card_index g. induction order as [|player_id rest IH]; intros card_index g.
  - apply same_roster_refl.
  - rewrite deal_pass_cons. py_step.
    destruct (players g !! player_id) as [player|] eqn:Hp; py_step;
      [|apply same_roster_refl].
    destruct (deck g !! card_index) as [card|]; py_step; [|apply same_roster_refl].
    eapply same_roster_trans; [|apply IH]. by eapply same_roster_insert.
Qed.

Lemma deal_passes_roster n card_index g :
  same_roster g (state_of (deal_passes n card_index g)).
Proof.
  revert card_index g. induction n as [|n IH]; intros card_index g.
  - apply same_roster_refl.
  - rewrite deal_passes_succ. py_step. rewrite bind_unfold.
    pose proof (deal_pass_roster (player_order g) card_index g) as H1.
    destruct (deal_pass (player_order g) card_index g) as [g1 [i|e]];
      rewrite state_of_pair in H1; [|by rewrite state_of_pair].
    eapply same_roster_trans; [exact H1|apply IH].
Qed.

Lemma deal_cards_roster shuffled g :
  same_roster g (state_of (deal_cards shuffled g)).
Proof.
  rewrite deal_cards_eq. py_step. rewrite bind_unfold.
  match goal with |- context [deal_passes 5 0 ?g1] =>
    assert (H0 : same_roster g g1);
    [|pose proof (deal_passes_roster 5 0 g1) as H1;
      destruct (deal_passes 5 0 g1) as [g2 [i|e]]; rewrite state_of_pair in H1;
      pose proof (same_roster_trans _ _ _ H0 H1) as H2]
  end.
  - split; [by game_simpl|]. intros q. game_simpl.
    by rewrite lookup_fmap, fmap_is_Some.
  - py_step. destruct (deck g2 !! i); py_step; [|done].
    eapply same_roster_trans; [exact H2|]. same_roster_tac.
  - by py_step.
Qed.

(** The well-formedness of a game only looks at the seats, the players'
    ids, the tricks and the trump maker. *)
Lemma table_ok_frame g g' :
  same_roster g g' → current_trick g' = current_trick g →
  completed_tricks g' = completed_tricks g → trump_suit g' = trump_suit g →
  trump_maker g' = trump_maker g → table_ok g → table_ok g'.
Proof.
  intros [Ho Hp] Ht Hc Hs Hm (Hseats & Hall & Htrick & Hdone & Hmaker).
  unfold table_ok. rewrite Ho, Ht, Hc, Hs, Hm.
  split; [by eapply seats_filled_frame|]. split; [|done].
  intros q Hq. by apply Hall, Hp.
Qed.

Lemma deal_cards_table_ok shuffled g :
  table_ok g → table_ok (state_of (deal_cards shuffled g)).
Proof.
  destruct (deal_cards_frame shuffled g)
    as [(_ & _ & Hs & _ & _ & Ht & Hc & Hm & _) _].
  by apply table_ok_frame; [apply deal_cards_roster|..].
Qed.

Lemma start_next_round_table_ok shuffled g :
  table_ok g → table_ok (state_of (start_next_round shuffled g)).
Proof.
  intros (Hseats & Hall & Htrick & Hdone & Hmaker).
  rewrite start_next_round_eq. py_step. apply deal_cards_table_ok.
  unfold table_ok. game_simpl. split; [|split; [done|split; [done|split]]].
  - eapply seats_filled_frame; [| |exact Hseats]; by game_simpl.
  - constructor.
  - by intros [? ?].
Qed.

Lemma complete_round_table_ok shuffled g :
  table_ok g → table_ok (state_of (complete_round shuffled g)).
Proof.
  intros Hok. rewrite complete_round_eq. py_step.
  destruct (count_team_tricks_pure (completed_tricks g) (0, 0) g) as [o Ho].
  rewrite bind_unfold, Ho. destruct o as [team_tricks|e]; [|by py_step].
  destruct (trump_maker g ≫= _) as [maker|]; py_step; [|done].
  cbv zeta. game_simpl.
  match goal with |- context [set_team_scores ?v g] =>
    assert (Hok1 : table_ok (set_team_scores v g))
      by (eapply table_ok_frame; [| | | | |exact Hok];
          [same_roster_tac|by game_simpl..])
  end.
  destruct (10 <=? _).
  - py_step. eapply table_ok_frame; [| | | | |exact Hok1];
      [same_roster_tac|by game_simpl..].
  - by apply start_next_round_table_ok.
Qed.

Lemma complete_trick_table_ok shuffled g :
  table_ok g → table_ok (state_of (complete_trick shuffled g)).
Proof.
  intros Hok. rewrite complete_trick_eq. py_step.
  destruct (trump_suit g) as [trump|] eqn:Htrump; py_step; [|done].
  destruct (negb _); py_step; [done|].
  destruct (cards (current_trick g) !! 0) as [first|]; py_step; [|done].
  cbv zeta.
  destruct (cards (current_trick g) !! _) as [won|] eqn:Hwon; py_step; [|done].
  game_simpl.
  assert (Harchived : ∀ g1,
    same_roster g g1 → trump_suit g1 = trump_suit g →
    trump_maker g1 = trump_maker g → current_trick g1 = empty_trick →
    completed_tricks g1 =
      completed_tricks g ++ [set_winner won.1 (current_trick g)] →
    table_ok g1).
  { intros g1 [Ho Hp] Hs Hm Ht Hc.
    destruct Hok as (Hseats & Hall & Htrick & Hdone & Hmaker).
    unfold table_ok. rewrite Ho, Hs, Hm, Ht, Hc.
    split; [by eapply seats_filled_frame|].
    split; [intros q Hq; by apply Hall, Hp|].
    split; [constructor|]. split; [|done].
    apply Forall_app. split; [done|]. constructor; [|constructor]. simpl.
    apply list_elem_of_lookup_2 in Hwon.
    by apply (proj1 (Forall_forall _ _) Htrick). }
  destruct (list_index _ _) as [seat|]; py_step;
    [|apply Harchived; [same_roster_tac|by game_simpl..]].
  game_simpl.
  match goal with |- context [if ?b then _ else _] => destruct b end.
  - apply complete_round_table_ok.
    apply Harchived; [same_roster_tac|by game_simpl..].
  - py_step. apply Harchived; [same_roster_tac|by game_simpl..].
Qed.

Lemma play_card_table_ok shuffled player_id card g :
  table_ok g → table_ok (state_of (play_card shuffled player_id card g)).
Proof.
  intros Hok. rewrite play_card_eq. py_step.
  destruct (negb _); py_step; [done|].
  destruct (players g !! player_id) as [player|] eqn:Hplayer; py_step; [|done].
  destruct (list_remove_first card (hand player)) as [hand'|]; py_step; [|done].
  assert (Hplayed : ∀ g1,
    same_roster g g1 → trump_suit g1 = trump_suit g →
    trump_maker g1 = trump_maker g → completed_tricks g1 = completed_tricks g →
    cards (current_trick g1) = cards (current_trick g) ++ [(player_id, card)] →
    table_ok g1).
  { intros g1 [Ho Hp] Hs Hm Hc Ht.
    destruct Hok as (Hseats & Hall & Htrick & Hdone & Hmaker).
    unfold table_ok. rewrite Ho, Hs, Hm, Hc, Ht.
    split; [by eapply seats_filled_frame|].
    split; [intros q Hq; by apply Hall, Hp|]. split; [|done].
    apply Forall_app. split; [done|]. constructor; [|constructor]. simpl.
    apply Hall. by eexists. }
  assert (Hroster : same_roster g
            (set_players (<[player_id:=set_hand hand' player]> (players g)) g))
    by (by eapply same_roster_insert).
  game_simpl. rewrite bind_unfold.
  destruct (length (cards (current_trick g)) =? 0); py_step; game_simpl;
    rewrite bind_ret_state;
    (match goal with |- context [if ?b then _ else _] => destruct b end;
     [apply complete_trick_table_ok|py_step]);
    apply Hplayed; try (by game_simpl);
    (eapply same_roster_trans; [exact Hroster|same_roster_tac]).
Qed.

Lemma start_playing_phase_table_ok g :
  table_ok g → table_ok (state_of (start_playing_phase g)).
Proof.
  intros Hok. rewrite start_playing_phase_eq. py_step.
  eapply table_ok_frame; [| | | | |exact Hok]; [same_roster_tac|by game_simpl..].
Qed.

Lemma handle_trump_selection_table_ok shuffled player_id action suit_arg g :
  table_ok g →
  table_ok (state_of (handle_trump_selection shuffled player_id action suit_arg g)).
Proof.
  intros Hok. rewrite handle_trump_selection_eq. py_step.
  destruct (negb _); py_step; [done|].
  destruct (player_order g !! trump_selection_player_index g)
    as [current_player_id|] eqn:Hcurrent; py_step; [|done].
  destruct (negb _) eqn:Hcaller; py_step; [done|].
  apply negb_false_iff, bool_decide_eq_true_1 in Hcaller. subst current_player_id.
  apply list_elem_of_lookup_2 in Hcurrent.
  assert (Hmade : ∀ g1 chosen,
    same_roster g g1 → current_trick g1 = current_trick g →
    completed_tricks g1 = completed_tricks g →
    trump_suit g1 = chosen → trump_maker g1 = Some player_id → table_ok g1).
  { intros g1 chosen [Ho Hp] Ht Hc Hs Hm.
    destruct Hok as (Hseats & Hall & Htrick & Hdone & Hmaker).
    unfold table_ok. rewrite Ho, Ht, Hc, Hm.
    split; [by eapply seats_filled_frame|].
    split; [intros q Hq; by apply Hall, Hp|].
    split; [done|]. split; [done|]. intros _. by eexists. }
  destruct (_ && _).
  { destruct (trump_card g) as [turned|]; py_step; [|done].
    destruct (player_order g !! dealer_index g) as [dealer_id|]; py_step;
      [|eapply Hmade; [same_roster_tac|by game_simpl..]].
    destruct (players g !! dealer_id) as [dealer|] eqn:Hdealer; py_step;
      [|eapply Hmade; [same_roster_tac|by game_simpl..]].
    game_simpl. apply start_playing_phase_table_ok.
    eapply Hmade; try (by game_simpl).
    split; [by game_simpl|]. intros q. game_simpl.
    rewrite lookup_insert_is_Some. split.
    - intros [<-|[_ ?]]; [by eexists|done].
    - intros H. destruct (decide (dealer_id = q)); auto. }
  destruct (_ && _).
  { destruct (trump_card g) as [turned|]; py_step; [|done].
    destruct (negb _); py_step; [|done].
    apply start_playing_phase_table_ok.
    eapply Hmade; [same_roster_tac|by game_simpl..]. }
  destruct (bool_decide (action = "pass")); py_step; [|done].
  game_simpl.
  assert (Hpassed : table_ok
            (set_trump_selection_player_index
               ((trump_selection_player_index g + 1) mod 4) g))
    by (eapply table_ok_frame; [| | | | |exact Hok];
        [same_roster_tac|by game_simpl..]).
  rewrite bind_ret_state.
  destruct (_ && _); [py_step|destruct (_ && _); [|by py_step]].
  - eapply table_ok_frame; [| | | | |exact Hpassed];
      [same_roster_tac|by game_simpl..].
  - by apply deal_cards_table_ok.
Qed.

Lemma handle_going_alone_table_ok player_id alone g :
  table_ok g → table_ok (state_of (handle_going_alone player_id alone g)).
Proof.
  intros Hok. rewrite handle_going_alone_eq. py_step.
  destruct (bool_decide _); py_step; [|done].
  eapply table_ok_frame; [| | | | |exact Hok]; [same_roster_tac|by game_simpl..].
Qed.

Lemma start_game_table_ok shuffled g :
  table_ok g → table_ok (state_of (start_game shuffled g)).
Proof.
  intros Hok. rewrite start_game_eq. py_step.
  destruct (negb _); py_step; [done|].
  rewrite bind_ret_state. apply deal_cards_table_ok.
  eapply table_ok_frame; [| | | | |exact Hok]; [same_roster_tac|by game_simpl..].
Qed.

(** With the seats filled [self.players] holds four players or more. *)
Lemma seats_filled_size g : seats_filled g → 4 ≤ size (players g).
Proof.
  intros (Hlen & Hnodup & Hall).
  rewrite <- Hlen, <- (size_list_to_set (C := gset string)) by done.
  rewrite <- size_dom. apply subseteq_size. intros q Hq.
  apply elem_of_list_to_set in Hq. apply elem_of_dom.
  by apply (proj1 (Forall_forall _ _) Hall).
Qed.

Lemma add_player_table_ok shuffled player_id name is_ai g :
  table_ok g →
  state_of (add_player shuffled player_id name is_ai g) = g.
Proof.
  intros [Hseats _]. apply seats_filled_size in Hseats.
  rewrite add_player_eq. py_step.
  destruct (4 <=? size (players g)) eqn:Hfull; py_step; [done|].
  apply Nat.leb_gt in Hfull. lia.
Qed.

(** No call takes a game under way out of the well-formed states. *)
Lemma table_ok_after shuffled c g :
  table_ok g → table_ok (after shuffled c g).
Proof.
  intros Hok. unfold after. destruct c; unfold exec.
  - by rewrite add_player_table_ok.
  - by apply start_game_table_ok.
  - by apply handle_trump_selection_table_ok.
  - by apply handle_going_alone_table_ok.
  - by apply play_card_table_ok.
Qed.

Lemma table_ok_run shuffled calls g :
  table_ok g → table_ok (run shuffled calls g).
Proof.
  revert g. induction calls as [|c calls IH]; intros g Hok; [done|].
  apply IH. by apply table_ok_after.
Qed.

(** In a game under way the players that [complete_round] looks up are in
    [self.players]: the winner of every archived trick, and the trump maker
    once there is a trump suit. *)
Lemma table_ok_round_lookups g :
  table_ok g →
  Forall (fun t => is_Some (players g !! winner t)) (completed_tricks g) ∧
  (is_Some (trump_suit g) → is_Some (trump_maker g ≫= team_of g)) ∧
  (∀ p, p ∈ (cards (current_trick g)).*1 → p ∈ player_order g).
Proof.
  intros (Hseats & Hall & Htrick & Hdone & Hmaker).
  destruct Hseats as (_ & _ & Hseated).
  split; [|split].
  - eapply Forall_impl; [exact Hdone|]. intros t Ht. simpl in Ht.
    by apply (proj1 (Forall_forall _ _) Hseated).
  - intros Hsuit. destruct (Hmaker Hsuit) as (maker & -> & Hin).
    cbn [mbind option_bind]. unfold team_of.
    apply fmap_is_Some. by apply (proj1 (Forall_forall _ _) Hseated).
  - intros p Hp. apply list_elem_of_fmap in Hp as (pc & -> & Hpc).
    by apply (proj1 (Forall_forall _ _) Htrick).
Qed.

(** A new player takes the next seat; the fourth one starts the game. *)
Lemma add_player_seat shuffled player_id name is_ai g :
  size (players g) < 3 → players g !! player_id = None →
  state_of (add_player shuffled player_id name is_ai g) =
    set_player_order (player_order g ++ [player_id])
      (set_players
         (<[player_id := mkPlayer player_id name [] (size (players g)) true is_ai]>
            (players g)) g).
Proof.
  intros Hsize Hnew. rewrite add_player_eq. py_step.
  destruct (4 <=? size (players g)) eqn:Hfull;
    [apply Nat.leb_le in Hfull; lia|].
  cbv zeta. py_step. game_simpl. rewrite map_size_insert_None by done.
  destruct (S (size (players g)) =? 4) eqn:Hfour;
    [apply Nat.eqb_eq in Hfour; lia|].
  by py_step.
Qed.

Lemma add_player_last_seat shuffled player_id name is_ai g :
  size (players g) = 3 → players g !! player_id = None →
  state_of (add_player shuffled player_id name is_ai g) =
    state_of
      (deal_cards shuffled
         (set_phase DEALING
            (set_player_order (player_order g ++ [player_id])
               (set_players
                  (<[player_id := mkPlayer player_id name [] 3 true is_ai]>
                     (players g)) g)))).
Proof.
  intros Hsize Hnew. rewrite add_player_eq. py_step. rewrite Hsize.
  cbn [Nat.leb]. cbv zeta. py_step. game_simpl.
  rewrite map_size_insert_None, Hsize by done. cbn [Nat.eqb].
  rewrite start_game_eq. py_step. game_simpl.
  rewrite map_size_insert_None, Hsize by done. cbn [Nat.eqb negb].
  py_step. apply bind_state_of. intros a g'. by py_step.
Qed.

(** Four players with distinct ids, added to a new game, are seated in the
    order they came, and the cards are dealt with seat 0 as the dealer. *)
Lemma four_players_seated shuffled room a b c d na nb nc nd ia ib ic id :
  NoDup [a; b; c; d] →
  ∃ g1, table_ok g1 ∧ dealer_index g1 = 0 ∧ player_order g1 = [a; b; c; d] ∧
    (position <$> players g1 !! a = Some 0 ∧ position <$> players g1 !! b = Some 1 ∧
     position <$> players g1 !! c = Some 2 ∧ position <$> players g1 !! d = Some 3 ∧
     current_player_index g1 = 0) ∧
    run shuffled
      [AddPlayer a na ia; AddPlayer b nb ib; AddPlayer c nc ic; AddPlayer d nd id]
      (new_game room) = state_of (deal_cards shuffled g1).
Proof.
  intros Hnodup. pose proof Hnodup as Hdistinct.
  apply NoDup_cons in Hnodup as [Ha Hnodup].
  apply NoDup_cons in Hnodup as [Hb Hnodup].
  apply NoDup_cons in Hnodup as [Hc _].
  repeat setoid_rewrite not_elem_of_cons in Ha.
  repeat setoid_rewrite not_elem_of_cons in Hb.
  repeat setoid_rewrite not_elem_of_cons in Hc.
  destruct Ha as (Hab & Hac & Had & _), Hb as (Hbc & Hbd & _), Hc as (Hcd & _).
  unfold run. cbn [foldl]. unfold after, exec.
  rewrite (add_player_seat _ a);
    [|cbn [players new_game]; rewrite map_size_empty; lia|done].
  cbn [players new_game player_order app]. rewrite map_size_empty.
  rewrite (add_player_seat _ b); game_simpl;
    [|rewrite map_size_insert_None, map_size_empty by done; lia
     |by rewrite lookup_insert_ne].
  rewrite map_size_insert_None, map_size_empty by done.
  rewrite (add_player_seat _ c); game_simpl;
    [|rewrite !map_size_insert_None, map_size_empty
        by (by rewrite ?lookup_insert_ne); lia
     |by rewrite !lookup_insert_ne].
  rewrite !map_size_insert_None, map_size_empty by (by rewrite ?lookup_insert_ne).
  rewrite (add_player_last_seat _ d); game_simpl;
    [|by rewrite !map_size_insert_None, map_size_empty
        by (by rewrite ?lookup_insert_ne)
     |by rewrite !lookup_insert_ne].
  eexists. split; [|split; [|split; [|split; [|reflexivity]]]]; game_simpl;
    [|done|done|].
  2: { rewrite lookup_insert_eq.
       rewrite !(lookup_insert_ne _ d), !(lookup_insert_ne _ c) by done.
       rewrite !lookup_insert_eq, lookup_insert_ne, lookup_insert_eq by done.
       done. }
  unfold table_ok, seats_filled. game_simpl.
  cbn [app]. split; [split; [done|split]|split; [|split; [|split]]].
  - done.
  - repeat constructor; rewrite !lookup_insert_is_Some; naive_solver.
  - intros q. rewrite !lookup_insert_is_Some, !elem_of_cons.
    intros [->|[_ [->|[_ [->|[_ [->|[_ Hq]]]]]]]]; auto.
    rewrite lookup_empty in Hq. by destruct Hq.
  - constructor.
  - constructor.
  - by intros [? ?].
Qed.

(** Four players with distinct ids, added to a new game, make a game under
    way; so does every run of calls after them. *)
Lemma four_players_table_ok shuffled room ids names ais calls :
  NoDup [ids.1.1; ids.1.2; ids.2.1; ids.2.2] →
  table_ok
    (run shuffled
       (AddPlayer ids.1.1 names.1.1 ais.1.1 :: AddPlayer ids.1.2 names.1.2 ais.1.2 ::
        AddPlayer ids.2.1 names.2.1 ais.2.1 :: AddPlayer ids.2.2 names.2.2 ais.2.2 ::
        calls)
       (new_game room)).
Proof.
  destruct ids as [[a b] [c d]], names as [[na nb] [nc nd]],
    ais as [[ia ib] [ic id]]. cbn [fst snd]. intros Hnodup.
  destruct (four_players_seated shuffled room a b c d na nb nc nd ia ib ic id Hnodup)
    as (g1 & Hok & _ & _ & _ & Hrun).
  change (table_ok (run shuffled calls
    (run shuffled
       [AddPlayer a na ia; AddPlayer b nb ib; AddPlayer c nc ic; AddPlayer d nd id]
       (new_game room)))).
  rewrite Hrun. by apply table_ok_run, deal_cards_table_ok.
Qed.

(** * Further properties *)

(** ** Trump cards and card values *)

(** X1: the AI's [is_trump] and [get_effective_suit] compute what the
    engine's compute, and a card is trump exactly when its effective suit
    is the trump suit; with no trump suit no card is trump and every card
    keeps its own suit. *)
Theorem trump_tests_agree card t :
  EuchreAI.is_trump card t = is_trump (Some t) card ∧
  EuchreAI.get_effective_suit card (Some t) = get_effective_suit (Some t) card ∧
  (is_trump (Some t) card = true ↔ get_effective_suit (Some t) card = t) ∧
  is_trump None card = false ∧
  get_effective_suit None card = suit card.
Proof.
  destruct card as [s r].
  repeat split; destruct s, r, t; try reflexivity; try discriminate.
Qed.

(** X2: [get_card_value] ranks the right bower (100) over the left bower
    (99) over the other trump cards (59 to 64); a card that is not trump is
    worth its rank (9 to 14) when it follows the leading suit and 0 when it
    does not. *)
Theorem get_card_value_ranking card t lead :
  (get_card_value card t lead = 100 ↔ card = right_bower t) ∧
  (get_card_value card t lead = 99 ↔ card = left_bower t) ∧
  (is_trump (Some t) card = true → 59 ≤ get_card_value card t lead ≤ 100) ∧
  (is_trump (Some t) card = false →
     get_card_value card t lead =
       if bool_decide (suit card = lead) then rank_value (rank card) else 0).
Proof.
  destruct card as [s r].
  repeat split; destruct s, r, t; try discriminate; try reflexivity;
    try (destruct lead; vm_compute; first [reflexivity | discriminate | lia]).
Qed.

Lemma trump_card_value card t lead :
  is_trump (Some t) card = true → 59 ≤ get_card_value card t lead.
Proof.
  destruct card as [s r]. destruct s, r, t; try discriminate; intros _;
    destruct lead; vm_compute; lia.
Qed.

Lemma plain_card_value card t lead :
  is_trump (Some t) card = false →
  get_card_value card t lead =
    if bool_decide (suit card = lead) then rank_value (rank card) else 0.
Proof.
  destruct card as [s r]. destruct s, r, t; try discriminate; intros _;
    destruct lead; reflexivity.
Qed.

(** The values along a trick, as the loop of [complete_trick] sees them. *)
Lemma trick_winner_value trump lead (first : string * Card) rest :
  let w := winner_index trump lead (first :: rest) first.2 in
  ∃ p c, (first :: rest) !! w = Some (p, c) ∧
    get_card_value first.2 trump lead ≤ get_card_value c trump lead ∧
    ∀ j q d, (first :: rest) !! j = Some (q, d) →
      get_card_value d trump lead ≤ get_card_value c trump lead.
Proof.
  cbv zeta. destruct (winner_index_max trump lead first rest) as (v & Hv & Hfirst & Hmax).
  rewrite list_lookup_fmap in Hv.
  destruct ((first :: rest) !! winner_index trump lead (first :: rest) first.2)
    as [[p c]|] eqn:Hw; [|done].
  injection Hv as <-. exists p, c. split; [done|]. split; [done|].
  intros j q d Hj. apply (Hmax j). by rewrite list_lookup_fmap, Hj.
Qed.

(** X3: a card that neither follows the leading suit nor is trump never
    wins the trick, wherever it is played. *)
Theorem off_suit_card_never_wins trump (first : string * Card) rest i p c :
  (first :: rest) !! i = Some (p, c) →
  is_trump (Some trump) c = false →
  suit c ≠ get_effective_suit (Some trump) first.2 →
  winner_index trump (get_effective_suit (Some trump) first.2)
    (first :: rest) first.2 ≠ i.
Proof.
  intros Hi Htrump Hsuit Hw.
  destruct (trick_winner_value trump (get_effective_suit (Some trump) first.2)
              first rest) as (q & d & Hq & Hfirst & _).
  rewrite Hw, Hi in Hq. injection Hq as <- <-.
  pose proof (leading_card_value_pos first.2 trump) as Hpos.
  rewrite (plain_card_value c trump _ Htrump), bool_decide_false in Hfirst by done.
  lia.
Qed.

Lemma off_suit_card_never_wins_witness :
  winner_index HEARTS SPADES
    [("p0", mkCard SPADES NINE); ("p1", mkCard CLUBS ACE)] (mkCard SPADES NINE) ≠ 1.
Proof.
  apply (off_suit_card_never_wins HEARTS ("p0", mkCard SPADES NINE)
           [("p1", mkCard CLUBS ACE)] 1 "p1" (mkCard CLUBS ACE));
    [reflexivity|reflexivity|discriminate].
Defined.

(** X4: when a trump card is in the trick, the trick goes to a trump card. *)
Theorem trump_in_trick_wins trump (first : string * Card) rest i p c :
  (first :: rest) !! i = Some (p, c) →
  is_trump (Some trump) c = true →
  ∃ q d,
    (first :: rest) !!
      winner_index trump (get_effective_suit (Some trump) first.2)
        (first :: rest) first.2 = Some (q, d) ∧
    is_trump (Some trump) d = true.
Proof.
  intros Hi Htrump.
  destruct (trick_winner_value trump (get_effective_suit (Some trump) first.2)
              first rest) as (q & d & Hq & _ & Hmax).
  exists q, d. split; [done|].
  specialize (Hmax i p c Hi).
  pose proof (trump_card_value c trump
                (get_effective_suit (Some trump) first.2) Htrump) as Hc.
  destruct (is_trump (Some trump) d) eqn:Hdt; [done|].
  rewrite (plain_card_value d trump _ Hdt) in Hmax.
  pose proof (rank_value_bounds (rank d)).
  case_bool_decide; lia.
Qed.

Lemma trump_in_trick_wins_witness :
  ∃ q d,
    [("p0", mkCard SPADES ACE); ("p1", mkCard HEARTS NINE)] !!
      winner_index HEARTS (get_effective_suit (Some HEARTS) (mkCard SPADES ACE))
        [("p0", mkCard SPADES ACE); ("p1", mkCard HEARTS NINE)] (mkCard SPADES ACE)
      = Some (q, d) ∧
    is_trump (Some HEARTS) d = true.
Proof.
  apply (trump_in_trick_wins HEARTS ("p0", mkCard SPADES ACE)
           [("p1", mkCard HEARTS NINE)] 1 "p1" (mkCard HEARTS NINE));
    reflexivity.
Defined.

(** ** Legal cards *)

Lemma legal_card_exists g player_id player :
  players g !! player_id = Some player → hand player ≠ [] →
  ∃ card, card ∈ hand player ∧ can_play_card g player_id card = true.
Proof.
  intros Hplayer Hhand.
  assert (Hfree : ∀ card, card ∈ hand player →
            (∀ first rest, cards (current_trick g) = first :: rest →
               existsb (fun c => bool_decide
                 (get_effective_suit (trump_suit g) c =
                  get_effective_suit (trump_suit g) first.2)) (hand player) = true →
               get_effective_suit (trump_suit g) card =
               get_effective_suit (trump_suit g) first.2) →
            can_play_card g player_id card = true).
  { intros card Hin Hfollow. unfold can_play_card. rewrite Hplayer.
    rewrite bool_decide_true by done. cbn [negb].
    destruct (cards (current_trick g)) as [|first rest]; [done|]. cbv zeta.
    destruct (existsb _ _) eqn:Hsuit; [|done].
    apply bool_decide_eq_true_2. by eapply Hfollow. }
  destruct (cards (current_trick g)) as [|first rest] eqn:Htrick.
  - destruct (hand player) as [|card hand'] eqn:Hh; [done|].
    exists card. split; [left|]. apply Hfree; [left|done].
  - destruct (existsb (fun c => bool_decide
               (get_effective_suit (trump_suit g) c =
                get_effective_suit (trump_suit g) first.2)) (hand player)) eqn:Hsuit.
    + pose proof Hsuit as Hsome. apply has_suit_true in Hsome as (card & Hin & Heff).
      exists card. split; [done|]. apply Hfree; [done|].
      intros first' rest' [= <- <-] _. done.
    + destruct (hand player) as [|card hand'] eqn:Hh; [done|].
      exists card. split; [left|]. apply Hfree; [left|].
      intros first' rest' [= <- <-] Hsome. congruence.
Qed.

(** X5: a player who holds a card always holds a card that
    [can_play_card] accepts. *)
Theorem hand_has_legal_card g player_id player :
  players g !! player_id = Some player → hand player ≠ [] →
  ∃ card, card ∈ hand player ∧ can_play_card g player_id card = true.
Proof. apply legal_card_exists. Qed.

Lemma hand_has_legal_card_witness :
  ∃ card,
    card ∈ [mkCard HEARTS NINE; mkCard CLUBS ACE] ∧
    can_play_card legality_example "p1" card = true.
Proof.
  apply (hand_has_legal_card legality_example "p1"
           (mkPlayer "p1" "B" [mkCard HEARTS NINE; mkCard CLUBS ACE] 1 true false));
    [reflexivity|discriminate].
Defined.

(** ** No call raises in a game under way *)

Lemma deal_cards_game_ok shuffled g :
  table_ok g → dealer_index g < 4 → create_deck ≡ₚ shuffled →
  ∃ g', deal_cards shuffled g = (g', Returned tt) ∧ game_ok g'.
Proof.
  intros Hok Hdealer Hperm.
  assert (Hlen : length shuffled = 24) by (by rewrite <- Hperm).
  destruct (lookup_lt_is_Some_2 shuffled 20) as [turned Hturned]; [lia|].
  pose proof (deal_cards_table_ok shuffled g Hok) as Hok'.
  rewrite (deal_cards_returns shuffled g turned (proj1 Hok) Hturned) in Hok' |- *.
  rewrite state_of_pair in Hok'. eexists. split; [done|]. split; [done|].
  unfold indices_ok. game_simpl. split; [done|]. split; [|by eexists].
  by apply Nat.mod_upper_bound.
Qed.

Lemma start_next_round_game_ok shuffled g :
  table_ok g → create_deck ≡ₚ shuffled →
  ∃ g', start_next_round shuffled g = (g', Returned tt) ∧ game_ok g'.
Proof.
  intros (Hseats & Hall & Htrick & Hdone & Hmaker) Hperm.
  rewrite start_next_round_eq. py_step. apply deal_cards_game_ok; [|game_simpl|done].
  - unfold table_ok. game_simpl. split; [|split; [done|split; [done|split]]].
    + eapply seats_filled_frame; [| |exact Hseats]; by game_simpl.
    + constructor.
    + by intros [? ?].
  - by apply Nat.mod_upper_bound.
Qed.

Lemma complete_round_game_ok shuffled g :
  table_ok g → is_Some (trump_suit g) →
  dealer_index g < 4 → trump_selection_player_index g < 4 →
  create_deck ≡ₚ shuffled →
  ∃ g', complete_round shuffled g = (g', Returned tt) ∧ game_ok g'.
Proof.
  intros Hok Htrump Hdealer Hbidder Hperm.
  pose proof (complete_round_table_ok shuffled g Hok) as Hok'.
  destruct (table_ok_round_lookups g Hok) as (Hwinners & Hmaker & _).
  destruct (Hmaker Htrump) as [team Hteam].
  assert (∃ maker, (trump_maker g ≫= fun id => players g !! id) = Some maker)
    as [maker Hlookup].
  { destruct (trump_maker g) as [id|]; [|done]. cbn [mbind option_bind] in *.
    unfold team_of in Hteam. destruct (players g !! id); [by eexists|done]. }
  revert Hok'. rewrite complete_round_eq. py_step.
  rewrite (bind_returned _ _ _ _ _
             (count_team_tricks_returns g (completed_tricks g) (0, 0) Hwinners)).
  rewrite Hlookup. py_step. cbv zeta. game_simpl.
  match goal with |- context [set_team_scores ?v g] =>
    assert (Hok1 : table_ok (set_team_scores v g))
      by (eapply table_ok_frame; [| | | | |exact Hok];
          [same_roster_tac|by game_simpl..])
  end.
  destruct (10 <=? _).
  - py_step. intros Hok'. eexists. split; [done|]. split; [done|].
    unfold indices_ok. by game_simpl.
  - intros _.
    match goal with |- context [start_next_round shuffled ?g1] =>
      destruct (start_next_round_game_ok shuffled g1 Hok1 Hperm) as (g' & -> & Hg')
    end.
    by exists g'.
Qed.

Lemma table_ok_archived g g1 won :
  table_ok g → won ∈ cards (current_trick g) → same_roster g g1 →
  trump_suit g1 = trump_suit g → trump_maker g1 = trump_maker g →
  current_trick g1 = empty_trick →
  completed_tricks g1 =
    completed_tricks g ++ [set_winner won.1 (current_trick g)] →
  table_ok g1.
Proof.
  intros (Hseats & Hall & Htrick & Hdone & Hmaker) Hwon [Ho Hp] Hs Hm Ht Hc.
  unfold table_ok. rewrite Ho, Hs, Hm, Ht, Hc.
  split; [by eapply seats_filled_frame|].
  split; [intros q Hq; by apply Hall, Hp|].
  split; [constructor|]. split; [|done].
  apply Forall_app. split; [done|]. constructor; [|constructor]. simpl.
  by apply (proj1 (Forall_forall _ _) Htrick).
Qed.

Lemma indices_ok_frame g g' :
  dealer_index g' = dealer_index g →
  trump_selection_player_index g' = trump_selection_player_index g →
  phase g' = phase g → trump_card g' = trump_card g →
  indices_ok g → indices_ok g'.
Proof. intros Hd Ht Hp Hc. unfold indices_ok. by rewrite Hd, Ht, Hp, Hc. Qed.

Ltac indices_ok_tac H :=
  eapply indices_ok_frame; [| | | |exact H]; by game_simpl.

Lemma complete_trick_game_ok shuffled g :
  game_ok g → create_deck ≡ₚ shuffled →
  ∃ g', complete_trick shuffled g = (g', Returned tt) ∧ game_ok g'.
Proof.
  intros [Hok Hidx] Hperm. rewrite complete_trick_eq. py_step.
  destruct (trump_suit g) as [trump|] eqn:Htrump; py_step; [|by eexists].
  destruct (negb _) eqn:Hfour; py_step; [by eexists|].
  apply negb_false_iff, Nat.eqb_eq in Hfour.
  destruct (cards (current_trick g)) as [|first rest] eqn:Hcards; [done|].
  cbn [lookup list_lookup]. py_step. cbv zeta.
  destruct (trick_winner_value trump (get_effective_suit (Some trump) first.2)
              first rest) as (p & c & Hwon & _).
  rewrite Hwon. py_step. game_simpl. cbn [fst].
  assert (Hin : (p, c) ∈ cards (current_trick g))
    by (rewrite Hcards; by eapply list_elem_of_lookup_2).
  assert (Hseat : p ∈ player_order g).
  { destruct Hok as (_ & _ & Htrick & _).
    by apply (proj1 (Forall_forall _ _) Htrick (p, c)). }
  destruct (list_index_elem p (player_order g) Hseat) as [seat ->]. py_step.
  game_simpl.
  match goal with |- context [set_current_player_index seat ?g0] =>
    set (g1 := set_current_player_index seat g0)
  end.
  assert (Hok1 : table_ok g1).
  { apply (table_ok_archived g g1 (p, c) Hok Hin); subst g1;
      [same_roster_tac|by game_simpl..]. }
  assert (Hidx1 : indices_ok g1) by (subst g1; indices_ok_tac Hidx).
  destruct (_ =? 5).
  - apply complete_round_game_ok; try done; apply Hidx1.
  - py_step. by exists g1.
Qed.

Lemma play_card_game_ok shuffled player_id card g :
  game_ok g → create_deck ≡ₚ shuffled →
  ∃ g' b, play_card shuffled player_id card g = (g', Returned b) ∧ game_ok g'.
Proof.
  intros [Hok Hidx] Hperm. rewrite play_card_eq. py_step.
  destruct (negb _) eqn:Hlegal; py_step; [by exists g, false|].
  apply negb_false_iff in Hlegal.
  destruct (can_play_card_true g player_id card Hlegal) as (player & Hplayer & Hin).
  rewrite Hplayer. py_step.
  destruct (list_remove_first_elem card (hand player) Hin) as [hand' ->]. py_step.
  assert (Hroster : same_roster g
            (set_players (<[player_id:=set_hand hand' player]> (players g)) g))
    by (by eapply same_roster_insert).
  assert (Hplayed : ∀ g1,
    same_roster g g1 → trump_suit g1 = trump_suit g →
    trump_maker g1 = trump_maker g → completed_tricks g1 = completed_tricks g →
    cards (current_trick g1) = cards (current_trick g) ++ [(player_id, card)] →
    table_ok g1).
  { intros g1 [Ho Hp] Hs Hm Hc Ht.
    destruct Hok as (Hseats & Hall & Htrick & Hdone & Hmaker).
    unfold table_ok. rewrite Ho, Hs, Hm, Hc, Ht.
    split; [by eapply seats_filled_frame|].
    split; [intros q Hq; by apply Hall, Hp|]. split; [|done].
    apply Forall_app. split; [done|]. constructor; [|constructor]. simpl.
    apply Hall. by eexists. }
  game_simpl. rewrite bind_unfold.
  destruct (length (cards (current_trick g)) =? 0); py_step; game_simpl;
    (match goal with |- context [if ?b then _ else _] => destruct b end;
     [match goal with |- context [bind (complete_trick shuffled) _ ?g1] =>
        destruct (complete_trick_game_ok shuffled g1) as (g' & Hrun & Hg');
        [split;
         [apply Hplayed; try (by game_simpl);
          (eapply same_roster_trans; [exact Hroster|same_roster_tac])
         |indices_ok_tac Hidx]
        |done
        |rewrite (bind_returned _ _ _ _ _ Hrun); py_step; by exists g', true]
      end
     |py_step; eexists _, true; split; [done|]; split;
      [apply Hplayed; try (by game_simpl);
       (eapply same_roster_trans; [exact Hroster|same_roster_tac])
      |indices_ok_tac Hidx]]).
Qed.

Lemma handle_trump_selection_game_ok shuffled player_id action suit_arg g :
  game_ok g → create_deck ≡ₚ shuffled →
  ∃ g' b, handle_trump_selection shuffled player_id action suit_arg g =
            (g', Returned b) ∧ game_ok g'.
Proof.
  intros [Hok Hidx] Hperm.
  pose proof (handle_trump_selection_table_ok shuffled player_id action suit_arg g Hok)
    as Hok'.
  revert Hok'. rewrite handle_trump_selection_eq. py_step.
  destruct (negb _) eqn:Hphase; py_step; [by exists g, false|].
  apply negb_false_iff, bool_decide_eq_true_1 in Hphase.
  destruct Hidx as (Hdealer & Hbidder & Hturned).
  destruct (Hturned Hphase) as [turned Hcard].
  destruct Hok as (Hseats & Hrest). destruct Hseats as (Hlen & Hnodup & Hseated).
  destruct (lookup_lt_is_Some_2 (player_order g) (trump_selection_player_index g))
    as [current Hcurrent]; [lia|].
  destruct (lookup_lt_is_Some_2 (player_order g) (dealer_index g))
    as [dealer_id Hdealer_id]; [lia|].
  destruct (proj1 (Forall_forall _ _) Hseated dealer_id) as [dealer Hdealer_p];
    [by eapply list_elem_of_lookup_2|].
  rewrite Hcurrent. py_step.
  destruct (negb _); py_step; [by exists g, false|].
  destruct (_ && _).
  { rewrite Hcard. py_step. rewrite Hdealer_id. py_step. rewrite Hdealer_p.
    py_step. rewrite start_playing_phase_eq. py_step. game_simpl.
    intros Hok'. eexists _, true. split; [done|]. split; [done|].
    unfold indices_ok. game_simpl. by rewrite Hcard. }
  destruct (_ && _).
  { rewrite Hcard. py_step.
    destruct (negb _); py_step; [|by exists g, false].
    rewrite start_playing_phase_eq. py_step. game_simpl.
    intros Hok'. eexists _, true. split; [done|]. split; [done|].
    unfold indices_ok. game_simpl. by rewrite Hcard. }
  destruct (bool_decide (action = "pass")); py_step; [|by exists g, false].
  game_simpl.
  assert (Hnext : (trump_selection_player_index g + 1) mod 4 < 4)
    by (by apply Nat.mod_upper_bound).
  destruct (_ && _); [py_step|destruct (_ && _); [|py_step]].
  - intros Hok'. eexists _, true. split; [done|]. split; [done|].
    unfold indices_ok. game_simpl. by rewrite Hcard.
  - intros _.
    match goal with |- context [bind (deal_cards shuffled) _ ?g1] =>
      destruct (deal_cards_game_ok shuffled g1) as (g' & Hrun & Hg');
      [eapply table_ok_frame; [| | | | |exact (conj (conj Hlen (conj Hnodup Hseated)) Hrest)];
       [same_roster_tac|by game_simpl..]
      |by game_simpl|done|]
    end.
    rewrite (bind_returned _ _ _ _ _ Hrun). py_step. by exists g', true.
  - intros Hok'. eexists _, true. split; [done|]. split; [done|].
    unfold indices_ok. game_simpl. by rewrite Hcard.
Qed.

Lemma handle_going_alone_game_ok player_id alone g :
  game_ok g →
  ∃ g' b, handle_going_alone player_id alone g = (g', Returned b) ∧ game_ok g'.
Proof.
  intros [Hok Hidx].
  pose proof (handle_going_alone_table_ok player_id alone g Hok) as Hok'.
  revert Hok'. rewrite handle_going_alone_eq. py_step.
  destruct (bool_decide _); py_step; [|by exists g, false].
  intros Hok'. eexists _, true. split; [done|]. split; [done|].
  indices_ok_tac Hidx.
Qed.

Lemma start_game_game_ok shuffled g :
  game_ok g → create_deck ≡ₚ shuffled →
  ∃ g' b, start_game shuffled g = (g', Returned b) ∧ game_ok g'.
Proof.
  intros [Hok Hidx] Hperm. rewrite start_game_eq. py_step.
  destruct (negb _); py_step; [by exists g, false|].
  destruct (deal_cards_game_ok shuffled (set_phase DEALING g)) as (g' & Hrun & Hg');
    [eapply table_ok_frame; [| | | | |exact Hok]; [same_roster_tac|by game_simpl..]
    |game_simpl; apply Hidx|done|].
  rewrite (bind_returned _ _ _ _ _ Hrun). py_step. by exists g', true.
Qed.

Lemma add_player_game_ok shuffled player_id name is_ai g :
  game_ok g → add_player shuffled player_id name is_ai g = (g, Returned false).
Proof.
  intros [[Hseats _] _]. apply seats_filled_size in Hseats.
  rewrite add_player_eq. py_step.
  destruct (4 <=? size (players g)) eqn:Hfull; py_step; [done|].
  apply Nat.leb_gt in Hfull. lia.
Qed.

Lemma exec_game_ok shuffled c g :
  game_ok g → create_deck ≡ₚ shuffled →
  ∃ g' b, exec shuffled c g = (g', Returned b) ∧ game_ok g'.
Proof.
  intros Hok Hperm. destruct c; unfold exec.
  - exists g, false. split; [by apply add_player_game_ok|done].
  - by apply start_game_game_ok.
  - by apply handle_trump_selection_game_ok.
  - by apply handle_going_alone_game_ok.
  - by apply play_card_game_ok.
Qed.

Lemma run_game_ok shuffled calls g :
  game_ok g → create_deck ≡ₚ shuffled → game_ok (run shuffled calls g).
Proof.
  intros Hok Hperm. revert g Hok.
  induction calls as [|c calls IH]; intros g Hok; [done|].
  cbn [run foldl]. apply IH. unfold after.
  destruct (exec_game_ok shuffled c g Hok Hperm) as (g' & b & -> & Hg'). done.
Qed.

(** Four players with distinct ids start a game under way. *)
Lemma four_players_game_ok shuffled room a b c d na nb nc nd ia ib ic id :
  NoDup [a; b; c; d] → create_deck ≡ₚ shuffled →
  game_ok (run shuffled
             [AddPlayer a na ia; AddPlayer b nb ib; AddPlayer c nc ic;
              AddPlayer d nd id] (new_game room)).
Proof.
  intros Hnodup Hperm.
  destruct (four_players_seated shuffled room a b c d na nb nc nd ia ib ic id Hnodup)
    as (g1 & Hok & Hdealer & _ & _ & ->).
  destruct (deal_cards_game_ok shuffled g1) as (g' & -> & Hg'); [done|lia|done|].
  done.
Qed.

(** ** Calls that are turned down *)

Lemma bind_ret_true_outcome {A} (m : M A) g :
  outcome_of (bind m (fun _ => ret true) g) ≠ Returned false.
Proof. rewrite bind_unfold. by destruct (m g) as [g' [a|e]]. Qed.

Lemma add_player_rejected shuffled player_id name is_ai g :
  outcome_of (add_player shuffled player_id name is_ai g) = Returned false →
  state_of (add_player shuffled player_id name is_ai g) = g.
Proof.
  rewrite add_player_eq. py_step.
  destruct (4 <=? _); py_step; [done|].
  cbv zeta. py_step. intros H. by apply bind_ret_true_outcome in H.
Qed.

Lemma start_game_rejected shuffled g :
  outcome_of (start_game shuffled g) = Returned false →
  state_of (start_game shuffled g) = g.
Proof.
  rewrite start_game_eq. py_step.
  destruct (negb _); py_step; [done|].
  intros H. by apply bind_ret_true_outcome in H.
Qed.

Lemma play_card_rejected shuffled player_id card g :
  outcome_of (play_card shuffled player_id card g) = Returned false →
  state_of (play_card shuffled player_id card g) = g.
Proof.
  rewrite play_card_eq. py_step.
  destruct (negb _); py_step; [done|].
  destruct (players g !! player_id) as [player|]; py_step; [|done].
  destruct (list_remove_first card (hand player)) as [hand'|]; py_step; [|done].
  rewrite bind_unfold.
  destruct (length (cards (current_trick g)) =? 0); py_step;
    intros H; by apply bind_ret_true_outcome in H.
Qed.

Lemma handle_trump_selection_rejected shuffled player_id action suit_arg g :
  outcome_of (handle_trump_selection shuffled player_id action suit_arg g)
    = Returned false →
  state_of (handle_trump_selection shuffled player_id action suit_arg g) = g.
Proof.
  rewrite handle_trump_selection_eq. py_step.
  destruct (negb _); py_step; [done|].
  destruct (player_order g !! _) as [current|]; py_step; [|done].
  destruct (negb _); py_step; [done|].
  destruct (_ && _).
  { destruct (trump_card g) as [turned|]; py_step; [|done].
    destruct (player_order g !! _) as [dealer_id|]; py_step; [|done].
    destruct (players g !! _) as [dealer|]; py_step; [|done].
    rewrite start_playing_phase_eq. py_step. done. }
  destruct (_ && _).
  { destruct (trump_card g) as [turned|]; py_step; [|done].
    destruct (negb _); py_step; [|done].
    rewrite start_playing_phase_eq. py_step. done. }
  destruct (bool_decide _); py_step; [|done].
  intros H. by apply bind_ret_true_outcome in H.
Qed.

Lemma handle_going_alone_rejected player_id alone g :
  outcome_of (handle_going_alone player_id alone g) = Returned false →
  state_of (handle_going_alone player_id alone g) = g.
Proof.
  rewrite handle_going_alone_eq. py_step.
  destruct (bool_decide _); py_step; done.
Qed.

(** X6: a call that returns [False] has changed nothing: a player who is
    turned away, a bid or a card that is refused leave the game as it
    was. *)
Theorem rejected_call_changes_nothing shuffled c g :
  outcome_of (exec shuffled c g) = Returned false → after shuffled c g = g.
Proof.
  unfold after. destruct c; unfold exec.
  - apply add_player_rejected.
  - apply start_game_rejected.
  - apply handle_trump_selection_rejected.
  - apply handle_going_alone_rejected.
  - apply play_card_rejected.
Qed.

Lemma rejected_call_changes_nothing_witness :
  after create_deck (HandleTrumpSelection "p2" "order_up" None) seated = seated.
Proof.
  apply (rejected_call_changes_nothing create_deck
           (HandleTrumpSelection "p2" "order_up" None) seated).
  vm_compute. reflexivity.
Defined.

(** ** Games under way *)

(** X7: four players with distinct ids who join a new game start a game
    under way, and that is what the game stays under any calls: the same
    four seats filled, every trick card and every archived winner a seated
    player's, a seated trump maker with every trump suit, dealer and bidder
    among the seats, a card turned up during trump selection. *)
Theorem four_players_start_a_game shuffled room a b c d na nb nc nd ia ib ic id calls :
  NoDup [a; b; c; d] → create_deck ≡ₚ shuffled →
  game_ok (run shuffled
             (AddPlayer a na ia :: AddPlayer b nb ib :: AddPlayer c nc ic ::
              AddPlayer d nd id :: calls) (new_game room)).
Proof.
  intros Hnodup Hperm.
  change (game_ok (run shuffled calls
    (run shuffled
       [AddPlayer a na ia; AddPlayer b nb ib; AddPlayer c nc ic; AddPlayer d nd id]
       (new_game room)))).
  apply run_game_ok; [|done]. by apply four_players_game_ok.
Qed.

Lemma game_ok_seated : game_ok seated.
Proof.
  apply four_players_game_ok; [|done].
  apply (bool_decide_unpack _). vm_compute. exact I.
Qed.

Lemma four_players_start_a_game_witness :
  game_ok (run create_deck
             [AddPlayer "p0" "North" false; AddPlayer "p1" "East" false;
              AddPlayer "p2" "South" false; AddPlayer "p3" "West" false;
              HandleTrumpSelection "p1" "order_up" None] (new_game "ROOM")).
Proof.
  apply (four_players_start_a_game create_deck "ROOM" "p0" "p1" "p2" "p3"
           "North" "East" "South" "West" false false false false
           [HandleTrumpSelection "p1" "order_up" None]).
  - apply (bool_decide_unpack _). vm_compute. exact I.
  - reflexivity.
Defined.

(** X8: in a game under way no call raises an exception, whatever its
    arguments, and the game is still under way after it. *)
Theorem game_under_way_never_raises shuffled c g :
  game_ok g → create_deck ≡ₚ shuffled →
  (∃ b, outcome_of (exec shuffled c g) = Returned b) ∧
  game_ok (after shuffled c g).
Proof.
  intros Hok Hperm. unfold after.
  destruct (exec_game_ok shuffled c g Hok Hperm) as (g' & b & -> & Hg').
  split; [by exists b|done].
Qed.

Lemma game_under_way_never_raises_witness :
  (∃ b, outcome_of (exec create_deck (PlayCard "p1" (mkCard HEARTS TEN)) seated)
        = Returned b) ∧
  game_ok (after create_deck (PlayCard "p1" (mkCard HEARTS TEN)) seated).
Proof.
  apply (game_under_way_never_raises create_deck
           (PlayCard "p1" (mkCard HEARTS TEN)) seated).
  - apply game_ok_seated.
  - reflexivity.
Defined.

(** ** Final scores *)

Lemma round_points_for_le winning_team trump_making_team n alone :
  round_points_for winning_team trump_making_team n alone ≤ 4.
Proof.
  unfold round_points_for.
  destruct (_ =? _), alone, (n =? 5); lia.
Qed.

Lemma max_score_team_add team points g g' :
  team_scores g' = team_add team points (team_scores g) →
  max_score g ≤ max_score g' ≤ max_score g + points.
Proof.
  unfold max_score, team_add. intros ->.
  destruct (team =? 0); simpl; lia.
Qed.

Lemma same_round_refl g : same_round g g.
Proof. done. Qed.

Lemma same_round_trans g1 g2 g3 :
  same_round g1 g2 → same_round g2 g3 → same_round g1 g3.
Proof. intros [? ?] [? ?]. split; congruence. Qed.

Lemma scores_settled_frame g g' :
  same_round g g' → scores_settled g → scores_settled g'.
Proof. intros [Hs Hc]. unfold scores_settled, max_score. by rewrite Hs, Hc. Qed.

Ltac same_round_tac := split; by game_simpl.

Lemma deal_cards_same_round shuffled g :
  same_round g (state_of (deal_cards shuffled g)).
Proof.
  destruct (deal_cards_frame shuffled g)
    as [(_ & _ & _ & _ & _ & _ & Hc & _ & _ & Hs & _) _].
  by split.
Qed.

(** [complete_round] either stops before it scores, or adds at most 4
    points to one team; when that ends the game the archived tricks stay. *)
Lemma complete_round_scores shuffled g :
  let g' := state_of (complete_round shuffled g) in
  same_round g g' ∨
  ∃ team points,
    points ≤ 4 ∧ team_scores g' = team_add team points (team_scores g) ∧
    (10 ≤ max_score g' → completed_tricks g' = completed_tricks g).
Proof.
  cbv zeta. rewrite complete_round_eq. py_step.
  destruct (count_team_tricks_pure (completed_tricks g) (0, 0) g) as [o Ho].
  rewrite bind_unfold, Ho. destruct o as [team_tricks|e];
    [|left; py_step; apply same_round_refl].
  destruct (trump_maker g ≫= _) as [maker|]; py_step;
    [|left; apply same_round_refl].
  cbv zeta. game_simpl.
  match goal with |- context [set_team_scores (team_add ?team ?points _) g] =>
    set (g1 := set_team_scores (team_add team points (team_scores g)) g);
    assert (Hs1 : team_scores g1 = team_add team points (team_scores g))
      by (subst g1; by game_simpl);
    assert (Hc1 : completed_tricks g1 = completed_tricks g)
      by (subst g1; by game_simpl);
    right; exists team, points
  end.
  split; [apply round_points_for_le|].
  change (team_add _ _ (team_scores g)) with (team_scores g1) at 2 3.
  rewrite <- Hs1.
  destruct (10 <=? _) eqn:Hend; nat_tests.
  - py_step. game_simpl. by rewrite Hc1.
  - destruct (start_next_round_frame shuffled g1) as (Hs & _).
    split; [done|]. unfold max_score. rewrite Hs. lia.
Qed.

Lemma complete_trick_settled shuffled g :
  scores_settled g →
  scores_settled (state_of (complete_trick shuffled g)) ∧
  (10 ≤ max_score g →
   team_scores (state_of (complete_trick shuffled g)) = team_scores g).
Proof.
  intros Hsettled. rewrite complete_trick_eq. py_step.
  destruct (trump_suit g) as [trump|]; py_step; [|done].
  destruct (negb _); py_step; [done|].
  destruct (cards (current_trick g) !! 0) as [first|]; py_step; [|done].
  cbv zeta.
  destruct (cards (current_trick g) !! _) as [won|]; py_step; [|done].
  game_simpl.
  assert (Harchived : ∀ g1,
    team_scores g1 = team_scores g →
    length (completed_tricks g1) = S (length (completed_tricks g)) →
    scores_settled g1).
  { intros g1 Hs Hc. destruct Hsettled as [Hmax Hfive].
    unfold scores_settled, max_score in *. rewrite Hs, Hc. split; [done|].
    intros H. apply Hfive in H. lia. }
  assert (Hlen : ∀ t : Trick, length (completed_tricks g ++ [t]) =
                              S (length (completed_tricks g)))
    by (intros t; rewrite length_app; simpl; lia).
  destruct (list_index _ _) as [seat|]; py_step;
    [|split; [apply Harchived|]; by game_simpl].
  game_simpl.
  match goal with |- context [set_current_player_index seat ?g0] =>
    set (g1 := set_current_player_index seat g0)
  end.
  assert (Hs1 : team_scores g1 = team_scores g) by (subst g1; by game_simpl).
  assert (Hc1 : length (completed_tricks g1) = S (length (completed_tricks g)))
    by (subst g1; by game_simpl).
  rewrite Hlen. destruct (_ =? 5) eqn:Hfive; nat_tests.
  - assert (Hlow : max_score g < 10).
    { destruct Hsettled as [_ H]. destruct (decide (10 ≤ max_score g)) as [H10|]; [|lia].
      apply H in H10. lia. }
    split; [|lia].
    destruct (complete_round_scores shuffled g1)
      as [Hsame|(team & points & Hpoints & Hs & Hc)].
    + eapply scores_settled_frame; [exact Hsame|]. by apply Harchived.
    + pose proof (max_score_team_add team points g1 _ Hs) as Hmax.
      assert (Hm1 : max_score g1 = max_score g)
        by (unfold max_score; by rewrite Hs1).
      split; [lia|]. intros H10. apply Hc in H10. rewrite H10, Hc1. lia.
  - py_step. split; [by apply Harchived|done].
Qed.

Lemma play_card_settled shuffled player_id card g :
  scores_settled g →
  scores_settled (state_of (play_card shuffled player_id card g)) ∧
  (10 ≤ max_score g →
   team_scores (state_of (play_card shuffled player_id card g)) = team_scores g).
Proof.
  intros Hsettled. rewrite play_card_eq. py_step.
  destruct (negb _); py_step; [done|].
  destruct (players g !! player_id) as [player|]; py_step; [|done].
  destruct (list_remove_first card (hand player)) as [hand'|]; py_step; [|done].
  game_simpl. rewrite bind_unfold.
  destruct (length (cards (current_trick g)) =? 0); py_step; game_simpl;
    rewrite bind_ret_state;
    (match goal with |- context [if ?b then _ else _] => destruct b end;
     [match goal with |- context [complete_trick shuffled ?g1] =>
        destruct (complete_trick_settled shuffled g1) as [Hs' Hfinal];
        [eapply scores_settled_frame; [|exact Hsettled]; same_round_tac|];
        split; [done|];
        intros H10; rewrite Hfinal; [by game_simpl|];
        unfold max_score in *; by game_simpl
      end
     |py_step; split;
      [eapply scores_settled_frame; [|exact Hsettled]; same_round_tac
      |by game_simpl]]).
Qed.

Lemma start_game_same_round shuffled g :
  same_round g (state_of (start_game shuffled g)).
Proof.
  rewrite start_game_eq. py_step.
  destruct (negb _); py_step; [done|].
  rewrite bind_ret_state.
  eapply same_round_trans; [|apply deal_cards_same_round]. same_round_tac.
Qed.

Lemma add_player_same_round shuffled player_id name is_ai g :
  same_round g (state_of (add_player shuffled player_id name is_ai g)).
Proof.
  rewrite add_player_eq. py_step.
  destruct (4 <=? _); py_step; [done|].
  cbv zeta. py_step. rewrite bind_ret_state.
  match goal with |- context [if ?b then _ else _] => destruct b end.
  - rewrite bind_ret_state.
    eapply same_round_trans; [|apply start_game_same_round]. same_round_tac.
  - py_step. same_round_tac.
Qed.

Lemma handle_going_alone_same_round player_id alone g :
  same_round g (state_of (handle_going_alone player_id alone g)).
Proof.
  rewrite handle_going_alone_eq. py_step.
  destruct (bool_decide _); py_step; [|done]. same_round_tac.
Qed.

Lemma handle_trump_selection_same_round shuffled player_id action suit_arg g :
  same_round g
    (state_of (handle_trump_selection shuffled player_id action suit_arg g)).
Proof.
  rewrite handle_trump_selection_eq. py_step.
  destruct (negb _); py_step; [done|].
  destruct (player_order g !! _) as [current|]; py_step; [|done].
  destruct (negb _); py_step; [done|].
  destruct (_ && _).
  { destruct (trump_card g) as [turned|]; py_step; [|done].
    destruct (player_order g !! _) as [dealer_id|]; py_step; [|same_round_tac].
    destruct (players g !! _) as [dealer|]; py_step; [|same_round_tac].
    rewrite start_playing_phase_eq. py_step. same_round_tac. }
  destruct (_ && _).
  { destruct (trump_card g) as [turned|]; py_step; [|done].
    destruct (negb _); py_step; [|done].
    rewrite start_playing_phase_eq. py_step. same_round_tac. }
  destruct (bool_decide _); py_step; [|done].
  rewrite bind_ret_state. game_simpl.
  destruct (_ && _); [py_step; same_round_tac|].
  destruct (_ && _); [|py_step; same_round_tac].
  eapply same_round_trans; [|apply deal_cards_same_round]. same_round_tac.
Qed.

Lemma exec_settled shuffled c g :
  scores_settled g →
  scores_settled (after shuffled c g) ∧
  (10 ≤ max_score g → team_scores (after shuffled c g) = team_scores g).
Proof.
  intros Hsettled. unfold after.
  assert (Hsame : ∀ g', same_round g g' →
            scores_settled g' ∧ (10 ≤ max_score g → team_scores g' = team_scores g)).
  { intros g' Hsame. split; [by eapply scores_settled_frame|]. intros _. apply Hsame. }
  destruct c; unfold exec.
  - apply Hsame, add_player_same_round.
  - apply Hsame, start_game_same_round.
  - apply Hsame, handle_trump_selection_same_round.
  - apply Hsame, handle_going_alone_same_round.
  - by apply play_card_settled.
Qed.

Lemma reachable_settled g : reachable g → scores_settled g.
Proof.
  induction 1 as [room|g shuffled c Hg IH Hperm].
  - split; [vm_compute; lia|]. vm_compute. lia.
  - by apply exec_settled.
Qed.

(** X9: no team ever holds more than 13 points, and once a team has reached
    10 the scores are final: no further call changes them. *)
Theorem scores_are_final g shuffled c :
  reachable g →
  max_score g ≤ 13 ∧
  (10 ≤ max_score g → team_scores (after shuffled c g) = team_scores g).
Proof.
  intros Hg. pose proof (reachable_settled g Hg) as Hsettled.
  split; [apply Hsettled|]. by apply exec_settled.
Qed.

Lemma scores_are_final_witness :
  max_score seated ≤ 13 ∧
  (10 ≤ max_score seated →
   team_scores (after create_deck StartGame seated) = team_scores seated).
Proof.
  apply (scores_are_final seated create_deck StartGame reachable_seated).
Defined.

(** ** Cards played out of turn or before trump is made *)

(** An accepted card leaves the hand and joins the trick; what follows is
    [complete_trick] when the trick then holds four cards, and the move to
    the next seat otherwise. *)
Lemma play_card_accepted shuffled g player_id player card :
  players g !! player_id = Some player →
  can_play_card g player_id card = true →
  ∃ hand' g1,
    list_remove_first card (hand player) = Some hand' ∧
    players g1 = <[player_id := set_hand hand' player]> (players g) ∧
    cards (current_trick g1) = cards (current_trick g) ++ [(player_id, card)] ∧
    leader (current_trick g1) =
      (if length (cards (current_trick g)) =? 0 then player_id
       else leader (current_trick g)) ∧
    trump_suit g1 = trump_suit g ∧ completed_tricks g1 = completed_tricks g ∧
    current_player_index g1 = current_player_index g ∧ phase g1 = phase g ∧
    team_scores g1 = team_scores g ∧
    play_card shuffled player_id card g =
      bind (if length (cards (current_trick g1)) =? 4
            then complete_trick shuffled
            else modify (fun g => set_current_player_index
                                    ((current_player_index g + 1) mod 4) g))
           (fun _ => ret true) g1.
Proof.
  intros Hplayer Hlegal.
  destruct (can_play_card_true g player_id card Hlegal) as (player' & Hplayer' & Hin).
  assert (player' = player) as -> by congruence.
  destruct (list_remove_first_elem card (hand player) Hin) as [hand' Hhand].
  exists hand'. rewrite play_card_eq. py_step. rewrite Hlegal. cbn [negb].
  rewrite Hplayer. py_step. rewrite Hhand. py_step. game_simpl. rewrite bind_unfold.
  destruct (length (cards (current_trick g)) =? 0); py_step; game_simpl;
    match goal with |- context [bind _ _ ?g1] => exists g1 end;
    game_simpl; repeat split; try done;
    match goal with |- bind (if ?b then _ else _) _ _ = bind (if ?b' then _ else _) _ _ =>
      replace b' with b; [done|by game_simpl]
    end.
Qed.

(** X10: [play_card] takes a legal card from whoever holds it, in any
    phase and whatever [current_player_index] says: unless the card is the
    fourth of the trick, the call returns [True], the card leaves the hand
    and joins the trick, and the turn moves one seat on. *)
Theorem play_card_accepts_any_holder shuffled g player_id player card :
  players g !! player_id = Some player →
  can_play_card g player_id card = true →
  length (cards (current_trick g)) ≠ 3 →
  let r := play_card shuffled player_id card g in
  outcome_of r = Returned true ∧
  (∃ hand', hand player ≡ₚ card :: hand' ∧
     players (state_of r) = <[player_id := set_hand hand' player]> (players g)) ∧
  cards (current_trick (state_of r)) =
    cards (current_trick g) ++ [(player_id, card)] ∧
  leader (current_trick (state_of r)) =
    (if length (cards (current_trick g)) =? 0 then player_id
     else leader (current_trick g)) ∧
  current_player_index (state_of r) = (current_player_index g + 1) mod 4 ∧
  phase (state_of r) = phase g ∧
  completed_tricks (state_of r) = completed_tricks g.
Proof.
  intros Hplayer Hlegal Hthree.
  destruct (play_card_accepted shuffled g player_id player card Hplayer Hlegal)
    as (hand' & g1 & Hhand & Hps & Hcards & Hleader & _ & Hdone & Hturn & Hphase
        & _ & Hrun).
  cbv zeta. rewrite Hrun, Hcards, length_app. clear Hrun. cbn [length].
  destruct (_ =? 4) eqn:Hfour; nat_tests; [lia|]. py_step. game_simpl.
  rewrite Hps, Hcards, Hleader, Hturn, Hphase, Hdone.
  repeat split; try done. exists hand'. split; [|done].
  by apply list_remove_first_perm.
Qed.

Lemma play_card_accepts_any_holder_witness :
  phase seated = TRUMP_SELECTION ∧
  player_order seated !! current_player_index seated = Some "p0" ∧
  outcome_of (play_card create_deck "p2" (mkCard HEARTS JACK) seated)
    = Returned true.
Proof.
  split; [reflexivity|]. split; [reflexivity|].
  apply (play_card_accepts_any_holder create_deck seated "p2"
           (mkPlayer "p2" "South"
              [mkCard HEARTS JACK; mkCard DIAMONDS NINE; mkCard DIAMONDS KING;
               mkCard CLUBS JACK; mkCard SPADES NINE] 2 true false)
           (mkCard HEARTS JACK)).
  - vm_compute. reflexivity.
  - vm_compute. reflexivity.
  - vm_compute. discriminate.
Defined.

(** X11: while no trump suit is set a trick is never completed: the fourth
    card joins the trick like any other, nothing is archived and the turn
    stays where it was; a fifth card is added to the same trick. *)
Theorem no_trump_no_trick shuffled g player_id player card :
  trump_suit g = None →
  players g !! player_id = Some player →
  can_play_card g player_id card = true →
  let r := play_card shuffled player_id card g in
  outcome_of r = Returned true ∧
  cards (current_trick (state_of r)) =
    cards (current_trick g) ++ [(player_id, card)] ∧
  completed_tricks (state_of r) = completed_tricks g ∧
  trump_suit (state_of r) = None ∧
  current_player_index (state_of r) =
    (if length (cards (current_trick g)) =? 3 then current_player_index g
     else (current_player_index g + 1) mod 4).
Proof.
  intros Htrump Hplayer Hlegal.
  destruct (play_card_accepted shuffled g player_id player card Hplayer Hlegal)
    as (hand' & g1 & _ & _ & Hcards & _ & Htrump1 & Hdone & Hturn & _ & _ & Hrun).
  cbv zeta. rewrite Hrun, Hcards, length_app. clear Hrun. cbn [length].
  replace (length (cards (current_trick g)) + 1 =? 4)
    with (length (cards (current_trick g)) =? 3)
    by (destruct (_ =? 3) eqn:H3, (_ =? 4) eqn:H4; nat_tests; (done || lia)).
  destruct (_ =? 3).
  - rewrite complete_trick_eq. py_step. rewrite Htrump1, Htrump. py_step.
    by rewrite Hcards, Hdone, Htrump1, Htrump, Hturn.
  - py_step. game_simpl. by rewrite Hcards, Hdone, Htrump1, Htrump, Hturn.
Qed.

Lemma no_trump_no_trick_witness :
  let g3 := run create_deck
              [PlayCard "p0" (mkCard HEARTS NINE); PlayCard "p1" (mkCard HEARTS TEN);
               PlayCard "p2" (mkCard HEARTS JACK)] seated in
  let r := play_card create_deck "p3" (mkCard HEARTS QUEEN) g3 in
  length (cards (current_trick (state_of r))) = 4 ∧
  completed_tricks (state_of r) = [].
Proof.
  intros g3 r.
  destruct (no_trump_no_trick create_deck g3 "p3"
              (mkPlayer "p3" "West"
                 [mkCard HEARTS QUEEN; mkCard DIAMONDS TEN; mkCard DIAMONDS ACE;
                  mkCard CLUBS QUEEN; mkCard SPADES TEN] 3 true false)
              (mkCard HEARTS QUEEN)) as (_ & Hcards & Hdone & _).
  - vm_compute. reflexivity.
  - vm_compute. reflexivity.
  - vm_compute. reflexivity.
  - fold r in Hcards, Hdone. rewrite Hcards, Hdone. split; reflexivity.
Defined.

(** ** Passing in the first round *)

(** What an accepted pass does in the first round: the turn moves on, and
    when it comes back to the seat left of the dealer the second round
    begins; nothing else changes. *)
Lemma pass_in_round_one shuffled g player_id :
  phase g = TRUMP_SELECTION → trump_selection_round g = 1 →
  player_order g !! trump_selection_player_index g = Some player_id →
  handle_trump_selection shuffled player_id "pass" None g =
    (if (trump_selection_player_index g + 1) mod 4 =? (dealer_index g + 1) mod 4
     then set_trump_selection_round 2
            (set_trump_selection_player_index
               ((trump_selection_player_index g + 1) mod 4) g)
     else set_trump_selection_player_index
            ((trump_selection_player_index g + 1) mod 4) g,
     Returned true).
Proof.
  intros Hphase Hround Hplayer.
  rewrite handle_trump_selection_eq. py_step.
  rewrite Hphase, Hplayer, Hround. rewrite bool_decide_true by done.
  cbn [negb]. py_step. rewrite bool_decide_true by done. cbn [negb].
  rewrite (bool_decide_false ("pass" = "order_up")) by done.
  rewrite (bool_decide_false ("pass" = "name_trump")) by done.
  rewrite (bool_decide_true ("pass" = "pass")) by done.
  cbn [andb]. py_step. game_simpl. rewrite Hround.
  change (1 =? 1) with true. cbn [andb].
  destruct (_ =? _); by py_step.
Qed.

(** X12: when the four players pass in turn in the first round, starting
    left of the dealer, the second round begins with the turn back at the
    seat left of the dealer; hands, turned card and everything else are as
    before. *)
Theorem four_passes_open_round_two shuffled g first second third fourth :
  phase g = TRUMP_SELECTION → trump_selection_round g = 1 →
  trump_selection_player_index g = (dealer_index g + 1) mod 4 →
  player_order g !! ((dealer_index g + 1) mod 4) = Some first →
  player_order g !! ((dealer_index g + 2) mod 4) = Some second →
  player_order g !! ((dealer_index g + 3) mod 4) = Some third →
  player_order g !! ((dealer_index g + 4) mod 4) = Some fourth →
  run shuffled
    [HandleTrumpSelection first "pass" None; HandleTrumpSelection second "pass" None;
     HandleTrumpSelection third "pass" None; HandleTrumpSelection fourth "pass" None]
    g = set_trump_selection_round 2 g.
Proof.
  intros Hphase Hround Hturn H1 H2 H3 H4.
  assert (Hmod : ∀ k, ((dealer_index g + k) mod 4 + 1) mod 4 =
                      (dealer_index g + S k) mod 4).
  { intros k. rewrite Nat.Div0.add_mod_idemp_l. f_equal. lia. }
  assert (Hne : ∀ k, 0 < k < 4 →
                ((dealer_index g + S k) mod 4 =? (dealer_index g + 1) mod 4) = false).
  { intros k Hk. apply Nat.eqb_neq.
    pose proof (Nat.div_mod_eq (dealer_index g + S k) 4).
    pose proof (Nat.div_mod_eq (dealer_index g + 1) 4).
    pose proof (Nat.mod_upper_bound (dealer_index g + S k) 4).
    pose proof (Nat.mod_upper_bound (dealer_index g + 1) 4). lia. }
  assert (Hpass : ∀ k player_id,
    0 < k < 4 → player_order g !! ((dealer_index g + k) mod 4) = Some player_id →
    after shuffled (HandleTrumpSelection player_id "pass" None)
      (set_trump_selection_player_index ((dealer_index g + k) mod 4) g) =
    set_trump_selection_player_index ((dealer_index g + S k) mod 4) g).
  { intros k player_id Hk Hplayer. unfold after, exec.
    rewrite pass_in_round_one by (game_simpl; done). game_simpl.
    rewrite Hmod, Hne by done. by rewrite state_of_pair. }
  assert (Hg : g = set_trump_selection_player_index ((dealer_index g + 1) mod 4) g).
  { rewrite <- Hturn. by destruct g. }
  unfold run. cbn [foldl]. rewrite Hg at 1.
  rewrite (Hpass 1) by (done || lia). rewrite (Hpass 2) by (done || lia).
  rewrite (Hpass 3) by (done || lia).
  unfold after, exec. rewrite pass_in_round_one by (game_simpl; done). game_simpl.
  rewrite Hmod.
  replace ((dealer_index g + 5) mod 4) with ((dealer_index g + 1) mod 4).
  2: { replace (dealer_index g + 5) with (dealer_index g + 1 + 1 * 4) by lia.
       by rewrite Nat.Div0.mod_add. }
  rewrite Nat.eqb_refl, state_of_pair. rewrite <- Hturn. by destruct g.
Qed.

Lemma four_passes_open_round_two_witness :
  run create_deck
    [HandleTrumpSelection "p1" "pass" None; HandleTrumpSelection "p2" "pass" None;
     HandleTrumpSelection "p3" "pass" None; HandleTrumpSelection "p0" "pass" None]
    seated = set_trump_selection_round 2 seated.
Proof.
  apply (four_passes_open_round_two create_deck seated "p1" "p2" "p3" "p0");
    reflexivity.
Defined.

(** ** Seats without cards *)

Lemma bind_raised_outcome {A B} (m : M A) (k : A → M B) g e :
  outcome_of (m g) = Raised e → outcome_of (bind m k g) = Raised e.
Proof. rewrite bind_unfold. by destruct (m g) as [g' [a|?]]; intros [= ->]. Qed.

Lemma deal_pass_short order card_index g :
  Forall (fun player_id => is_Some (players g !! player_id)) order →
  card_index ≤ length (deck g) < card_index + length order →
  outcome_of (deal_pass order card_index g) = Raised IndexError.
Proof.
  revert card_index g.
  induction order as [|player_id rest IH]; intros card_index g Hall Hlen.
  - simpl in Hlen. lia.
  - apply Forall_cons in Hall as [[p Hp] Hall]. simpl in Hlen.
    rewrite deal_pass_cons. py_step. rewrite Hp. py_step.
    destruct (deck g !! card_index) as [c|] eqn:Hc; py_step; [|done].
    apply lookup_lt_Some in Hc. apply IH; game_simpl; [|lia].
    eapply Forall_impl; [exact Hall|]. intros q Hq. simpl in Hq.
    apply lookup_insert_is_Some'. by right.
Qed.

Lemma deal_passes_short n card_index g :
  Forall (fun player_id => is_Some (players g !! player_id)) (player_order g) →
  card_index ≤ length (deck g) < card_index + n * length (player_order g) →
  outcome_of (deal_passes n card_index g) = Raised IndexError.
Proof.
  revert card_index g. induction n as [|n IH]; intros card_index g Hall Hlen.
  - simpl in Hlen. lia.
  - rewrite deal_passes_succ. py_step. simpl in Hlen.
    destruct (decide (card_index + length (player_order g) ≤ length (deck g)))
      as [Hfits|Hshort].
    + rewrite (bind_returned _ _ _ _ _ (deal_pass_returns _ card_index g Hall Hfits)).
      cbv beta. apply IH; game_simpl; [|lia].
      eapply Forall_impl; [exact Hall|]. intros q Hq. simpl in Hq.
      by apply give_fold_is_Some.
    + apply bind_raised_outcome, deal_pass_short; [done|lia].
Qed.

Lemma deal_cards_outcome shuffled g :
  length shuffled = 24 →
  Forall (fun player_id => is_Some (players g !! player_id)) (player_order g) →
  outcome_of (deal_cards shuffled g) =
    if length (player_order g) <=? 4 then Returned tt else Raised IndexError.
Proof.
  intros Hlen Hall. rewrite deal_cards_eq. py_step.
  match goal with |- context [bind (deal_passes 5 0) _ ?g1] =>
    assert (H1 : Forall (fun player_id => is_Some (players g1 !! player_id))
                   (player_order g1))
  end.
  { game_simpl. eapply Forall_impl; [exact Hall|]. intros q Hq. simpl in Hq.
    by rewrite lookup_fmap, fmap_is_Some. }
  destruct (length (player_order g) <=? 4) eqn:Hseats; nat_tests.
  - match goal with |- context [bind (deal_passes 5 0) _ ?g1] =>
      assert (H2 : 0 + 5 * length (player_order g1) ≤ length (deck g1))
        by (game_simpl; lia);
      rewrite (bind_returned _ _ _ _ _ (deal_passes_returns 5 0 g1 H1 H2))
    end.
    cbv beta. py_step. game_simpl.
    destruct (lookup_lt_is_Some_2 shuffled (0 + 5 * length (player_order g)))
      as [turned ->]; [lia|].
    by py_step.
  - apply bind_raised_outcome, deal_passes_short; [done|]. game_simpl. lia.
Qed.

(** A deal that raises leaves the phase as it was. *)
Lemma deal_cards_raised_phase shuffled g e :
  outcome_of (deal_cards shuffled g) = Raised e →
  phase (state_of (deal_cards shuffled g)) = phase g.
Proof.
  rewrite deal_cards_eq. py_step.
  match goal with |- context [bind (deal_passes 5 0) _ ?g1] =>
    destruct (deal_passes_players 5 0 g1) as [ps Hps]
  end.
  rewrite bind_unfold.
  destruct (deal_passes 5 0 _) as [g' [card_index|e']];
    rewrite state_of_pair in Hps; subst g'; py_step; game_simpl; [|done].
  destruct (_ !! card_index); py_step; [done|]. by game_simpl.
Qed.

(** X13: [deal_cards] serves as many seats as [player_order] lists: with a
    deck of 24 cards and every seat taken by a player it returns for four
    seats or fewer and raises [IndexError] for five or more. *)
Theorem deal_cards_seats shuffled g :
  length shuffled = 24 →
  Forall (fun player_id => is_Some (players g !! player_id)) (player_order g) →
  outcome_of (deal_cards shuffled g) =
    if length (player_order g) <=? 4 then Returned tt else Raised IndexError.
Proof. apply deal_cards_outcome. Qed.

Lemma deal_cards_seats_witness :
  outcome_of
    (deal_cards create_deck
       (set_player_order ["p0"; "p1"; "p2"; "p3"; "p0"] seated))
  = Raised IndexError.
Proof.
  apply (deal_cards_seats create_deck
           (set_player_order ["p0"; "p1"; "p2"; "p3"; "p0"] seated)).
  - reflexivity.
  - repeat constructor; vm_compute; by eexists.
Defined.

(** [add_player] does not look for the id among the players: for a player
    who is seated already it makes a new [Player] under the old key and
    appends the id to [player_order] once more. *)
Lemma add_player_again shuffled player_id name is_ai g p :
  players g !! player_id = Some p → size (players g) < 4 →
  add_player shuffled player_id name is_ai g =
    (set_player_order (player_order g ++ [player_id])
       (set_players
          (<[player_id := mkPlayer player_id name [] (size (players g)) true is_ai]>
             (players g)) g),
     Returned true).
Proof.
  intros Hseated Hsize. rewrite add_player_eq. py_step.
  destruct (4 <=? size (players g)) eqn:Hfull; nat_tests; [lia|].
  cbv zeta. py_step. game_simpl. rewrite map_size_insert_Some by done.
  destruct (size (players g) =? 4) eqn:Hfour; nat_tests; [lia|].
  by py_step.
Qed.

Lemma add_player_fourth shuffled player_id name is_ai g :
  size (players g) = 3 → players g !! player_id = None →
  add_player shuffled player_id name is_ai g =
    bind (deal_cards shuffled) (fun _ => ret true)
      (set_phase DEALING
         (set_player_order (player_order g ++ [player_id])
            (set_players
               (<[player_id := mkPlayer player_id name [] 3 true is_ai]>
                  (players g)) g))).
Proof.
  intros Hsize Hnew. rewrite add_player_eq. py_step. rewrite Hsize.
  cbn [Nat.leb]. cbv zeta. py_step. game_simpl.
  rewrite map_size_insert_None, Hsize by done. cbn [Nat.eqb].
  rewrite start_game_eq. py_step. game_simpl.
  rewrite map_size_insert_None, Hsize by done. cbn [Nat.eqb negb].
  py_step. rewrite !bind_unfold.
  by destruct (deal_cards _ _) as [g' [[]|e]].
Qed.

(** X14: a player who joins twice takes two seats.  The second
    [add_player] returns [True], gives the player a new, empty-handed
    [Player] with the next position and lists the id a second time; when
    three more players have joined, the deal finds five seats and a deck of
    24 cards, and the fourth player's [add_player] raises [IndexError]
    with the game left in the [DEALING] phase. *)
Theorem joining_twice_breaks_the_deal shuffled room a b c d na na' nb nc nd
    ia ia' ib ic id :
  NoDup [a; b; c; d] → length shuffled = 24 →
  let g2 := run shuffled [AddPlayer a na ia; AddPlayer a na' ia'] (new_game room) in
  let g4 := run shuffled [AddPlayer b nb ib; AddPlayer c nc ic] g2 in
  let r := add_player shuffled d nd id g4 in
  player_order g2 = [a; a] ∧
  players g2 = {[ a := mkPlayer a na' [] 1 true ia' ]} ∧
  outcome_of r = Raised IndexError ∧
  phase (state_of r) = DEALING ∧
  player_order (state_of r) = [a; a; b; c; d].
Proof.
  intros Hnodup Hlen.
  apply NoDup_cons in Hnodup as [Ha Hnodup].
  apply NoDup_cons in Hnodup as [Hb Hnodup].
  apply NoDup_cons in Hnodup as [Hc _].
  repeat setoid_rewrite not_elem_of_cons in Ha.
  repeat setoid_rewrite not_elem_of_cons in Hb.
  repeat setoid_rewrite not_elem_of_cons in Hc.
  destruct Ha as (Hab & Hac & Had & _), Hb as (Hbc & Hbd & _), Hc as (Hcd & _).
  intros g2.
  assert (Hg2 : g2 = set_player_order [a; a]
                       (set_players {[ a := mkPlayer a na' [] 1 true ia' ]}
                          (new_game room))).
  { subst g2. unfold run. cbn [foldl]. unfold after, exec.
    rewrite (add_player_seat shuffled a na ia (new_game room));
      [|cbn [players new_game]; rewrite map_size_empty; lia|done].
    cbn [players new_game player_order app]. rewrite map_size_empty.
    erewrite (add_player_again _ a); game_simpl;
      [|by rewrite lookup_insert_eq|rewrite map_size_insert_None, map_size_empty by done; lia].
    rewrite state_of_pair, map_size_insert_None, map_size_empty by done.
    rewrite insert_insert_eq, insert_empty. done. }
  clearbody g2. subst g2. intros g4.
  assert (Hg4 : g4 = set_player_order [a; a; b; c]
                       (set_players
                          (<[c := mkPlayer c nc [] 2 true ic]>
                             (<[b := mkPlayer b nb [] 1 true ib]>
                                {[ a := mkPlayer a na' [] 1 true ia' ]}))
                          (new_game room))).
  { subst g4. unfold run. cbn [foldl]. unfold after, exec.
    rewrite (add_player_seat _ b); game_simpl;
      [|rewrite map_size_singleton; lia|by rewrite lookup_singleton_ne].
    rewrite map_size_singleton.
    rewrite (add_player_seat _ c); game_simpl;
      [|rewrite map_size_insert_None, map_size_singleton
          by (by rewrite lookup_singleton_ne); lia
       |by rewrite lookup_insert_ne, lookup_singleton_ne].
    rewrite map_size_insert_None, map_size_singleton
      by (by rewrite lookup_singleton_ne).
    done. }
  clearbody g4. subst g4. intros r. game_simpl.
  split; [done|]. split; [done|].
  assert (Hsize : size (<[c := mkPlayer c nc [] 2 true ic]>
                          (<[b := mkPlayer b nb [] 1 true ib]>
                             ({[ a := mkPlayer a na' [] 1 true ia' ]}
                                : gmap string Player))) = 3).
  { rewrite !map_size_insert_None, map_size_singleton; [done|..];
      by rewrite ?lookup_insert_ne, ?lookup_singleton_ne. }
  subst r. rewrite add_player_fourth; game_simpl;
    [|done|by rewrite !lookup_insert_ne, lookup_singleton_ne].
  cbn [app].
  match goal with |- context [bind (deal_cards shuffled) _ ?g1] =>
    set (g5 := g1);
    assert (Hdeal : outcome_of (deal_cards shuffled g5) = Raised IndexError)
  end.
  { rewrite deal_cards_outcome; [by subst g5; game_simpl|done|].
    subst g5. game_simpl.
    repeat constructor; rewrite !lookup_insert_is_Some, ?lookup_singleton_is_Some;
      naive_solver. }
  split; [by apply bind_raised_outcome|].
  destruct (deal_cards_frame shuffled g5) as [(_ & Horder & _) _].
  pose proof (deal_cards_raised_phase shuffled g5 _ Hdeal) as Hphase.
  rewrite bind_unfold. destruct (deal_cards shuffled g5) as [g' [[]|e]] eqn:Hrun;
    [by rewrite outcome_of_pair in Hdeal|].
  rewrite state_of_pair in Horder. rewrite state_of_pair in Hphase.
  rewrite state_of_pair, Horder, Hphase. subst g5. by game_simpl.
Qed.

Lemma joining_twice_breaks_the_deal_witness :
  outcome_of
    (add_player create_deck "p3" "West" false
       (run create_deck
          [AddPlayer "p0" "North" false; AddPlayer "p0" "North" false;
           AddPlayer "p1" "East" false; AddPlayer "p2" "South" false]
          (new_game "ROOM")))
  = Raised IndexError.
Proof.
  apply (joining_twice_breaks_the_deal create_deck "ROOM" "p0" "p1" "p2" "p3"
           "North" "North" "East" "South" "West" false false false false false).
  - apply (bool_decide_unpack _). vm_compute. exact I.
  - reflexivity.
Defined.

(** ** The end of a round *)

(** X15: in a game under way with a trump suit, [complete_round] returns;
    when a score has reached 10 the game is complete and the round stays as
    it was played; otherwise the next seat deals: the round's trump suit,
    trump maker, lone hand and tricks are cleared, every player holds five
    new cards, a card is turned up and the first round of trump selection
    begins left of the new dealer. *)
Theorem complete_round_next_deal shuffled g :
  game_ok g → is_Some (trump_suit g) → create_deck ≡ₚ shuffled →
  let r := complete_round shuffled g in
  outcome_of r = Returned tt ∧
  if 10 <=? max_score (state_of r)
  then
    phase (state_of r) = GAME_COMPLETE ∧
    dealer_index (state_of r) = dealer_index g ∧
    players (state_of r) = players g ∧
    completed_tricks (state_of r) = completed_tricks g
  else
    dealer_index (state_of r) = (dealer_index g + 1) mod 4 ∧
    phase (state_of r) = TRUMP_SELECTION ∧
    trump_selection_round (state_of r) = 1 ∧
    trump_selection_player_index (state_of r) = (dealer_index g + 2) mod 4 ∧
    trump_suit (state_of r) = None ∧ trump_maker (state_of r) = None ∧
    going_alone (state_of r) = None ∧ completed_tricks (state_of r) = [] ∧
    is_Some (trump_card (state_of r)) ∧
    (∀ player_id, player_id ∈ player_order g →
       ∃ p, players (state_of r) !! player_id = Some p ∧ length (hand p) = 5).
Proof.
  intros [Hok Hidx] Htrump Hperm.
  destruct (table_ok_round_lookups g Hok) as (Hwinners & Hmaker & _).
  destruct (Hmaker Htrump) as [team Hteam].
  assert (∃ maker, (trump_maker g ≫= fun id => players g !! id) = Some maker)
    as [maker Hlookup].
  { destruct (trump_maker g) as [id|]; [|done]. cbn [mbind option_bind] in *.
    unfold team_of in Hteam. destruct (players g !! id); [by eexists|done]. }
  cbv zeta. rewrite complete_round_eq. py_step.
  rewrite (bind_returned _ _ _ _ _
             (count_team_tricks_returns g (completed_tricks g) (0, 0) Hwinners)).
  rewrite Hlookup. py_step. cbv zeta. game_simpl.
  match goal with |- context [set_team_scores ?v g] =>
    set (g1 := set_team_scores v g);
    assert (Hs1 : team_scores g1 = v) by (subst g1; by game_simpl)
  end.
  rewrite <- Hs1. fold (max_score g1).
  destruct (10 <=? max_score g1) eqn:Hend.
  - py_step. unfold max_score at 1. game_simpl. fold (max_score g1).
    rewrite Hend. subst g1. by game_simpl.
  - rewrite start_next_round_eq. py_step.
    match goal with |- context [deal_cards shuffled ?g0] => set (g2 := g0) end.
    assert (Hseats2 : seats_filled g2).
    { eapply seats_filled_frame; [| |exact (proj1 Hok)]; subst g2 g1; by game_simpl. }
    destruct (deal_cards_partition shuffled g2 Hseats2 Hperm)
      as (Hret & Hhands & Hturned & _).
    destruct (deal_cards_frame shuffled g2)
      as [(_ & _ & Hsuit & Hdealer & _ & _ & Hdone & Hmade & Halone & Hscores & _) _].
    destruct (deal_cards shuffled g2) as [g' o] eqn:Hdeal.
    rewrite outcome_of_pair in Hret. subst o.
    destruct (deal_cards_returns_phase _ _ _ Hdeal) as (Hp' & Hr' & Ht' & _).
    rewrite state_of_pair in *. split; [done|].
    assert (Hmax : max_score g' = max_score g1).
    { unfold max_score. rewrite Hscores. subst g2. by game_simpl. }
    rewrite Hmax, Hend, Hdealer, Hp', Hr', Ht', Hsuit, Hdone, Hmade, Halone.
    assert (Hg2 : dealer_index g2 = (dealer_index g + 1) mod 4 ∧
                  trump_suit g2 = None ∧ trump_maker g2 = None ∧
                  going_alone g2 = None ∧ completed_tricks g2 = [] ∧
                  player_order g2 = player_order g)
      by (subst g2 g1; by game_simpl).
    destruct Hg2 as (-> & -> & -> & -> & -> & Horder).
    repeat split; try done.
    rewrite Nat.Div0.add_mod_idemp_l. f_equal. lia.
Qed.

Lemma game_ok_after shuffled c g :
  game_ok g → create_deck ≡ₚ shuffled → game_ok (after shuffled c g).
Proof.
  intros Hok Hperm. unfold after.
  by destruct (exec_game_ok shuffled c g Hok Hperm) as (g' & b & -> & Hg').
Qed.

Lemma complete_round_next_deal_witness :
  outcome_of
    (complete_round create_deck
       (after create_deck (HandleTrumpSelection "p1" "order_up" None) seated))
  = Returned tt.
Proof.
  assert (Hok : game_ok (after create_deck
                           (HandleTrumpSelection "p1" "order_up" None) seated))
    by (apply (game_ok_after create_deck _ seated game_ok_seated); reflexivity).
  assert (Htrump : is_Some (trump_suit
                              (after create_deck
                                 (HandleTrumpSelection "p1" "order_up" None) seated)))
    by (vm_compute; by eexists).
  assert (Hperm : create_deck ≡ₚ create_deck) by reflexivity.
  pose proof (complete_round_next_deal create_deck _ Hok Htrump Hperm) as H.
  cbv zeta in H. destruct H as [H _]. exact H.
Defined.

(** * The AI's choices *)

(** ** Python's [max], [min] and [random.choice] *)

Lemma py_max_fold {A} (key : A → nat) (l : list A) (x : A) :
  let r := foldl (fun best y => if key best <? key y then y else best) x l in
  r ∈ x :: l ∧ key x ≤ key r ∧ ∀ y, y ∈ l → key y ≤ key r.
Proof.
  revert x. induction l as [|z l IH]; intros x; cbn [foldl].
  - split; [left|]. split; [done|]. intros y Hy. by apply elem_of_nil in Hy.
  - destruct (key x <? key z) eqn:Hlt; nat_tests.
    + destruct (IH z) as (Hin & Hle & Hmax). split; [by right|].
      split; [lia|]. intros y [->|Hy]%elem_of_cons; auto.
    + destruct (IH x) as (Hin & Hle & Hmax). split.
      * apply elem_of_cons in Hin as [->|Hin]; [left|right; by right].
      * split; [done|]. intros y [->|Hy]%elem_of_cons; [lia|auto].
Qed.

Lemma py_min_fold {A} (key : A → nat) (l : list A) (x : A) :
  let r := foldl (fun best y => if key y <? key best then y else best) x l in
  r ∈ x :: l ∧ key r ≤ key x ∧ ∀ y, y ∈ l → key r ≤ key y.
Proof.
  revert x. induction l as [|z l IH]; intros x; cbn [foldl].
  - split; [left|]. split; [done|]. intros y Hy. by apply elem_of_nil in Hy.
  - destruct (key z <? key x) eqn:Hlt; nat_tests.
    + destruct (IH z) as (Hin & Hle & Hmin). split; [by right|].
      split; [lia|]. intros y [->|Hy]%elem_of_cons; auto.
    + destruct (IH x) as (Hin & Hle & Hmin). split.
      * apply elem_of_cons in Hin as [->|Hin]; [left|right; by right].
      * split; [done|]. intros y [->|Hy]%elem_of_cons; [lia|auto].
Qed.

Lemma py_max_spec {A} (key : A → nat) (l : list A) :
  l ≠ [] → ∃ x, py_max key l = Some x ∧ x ∈ l ∧ ∀ y, y ∈ l → key y ≤ key x.
Proof.
  destruct l as [|x l]; [done|]. intros _.
  destruct (py_max_fold key l x) as (Hin & Hle & Hmax).
  eexists. split; [done|]. split; [done|].
  intros y [->|Hy]%elem_of_cons; auto.
Qed.

Lemma py_min_spec {A} (key : A → nat) (l : list A) :
  l ≠ [] → ∃ x, py_min key l = Some x ∧ x ∈ l ∧ ∀ y, y ∈ l → key x ≤ key y.
Proof.
  destruct l as [|x l]; [done|]. intros _.
  destruct (py_min_fold key l x) as (Hin & Hle & Hmin).
  eexists. split; [done|]. split; [done|].
  intros y [->|Hy]%elem_of_cons; auto.
Qed.

Lemma random_choice_elem {A} pick (l : list A) :
  l ≠ [] → ∃ x, random_choice pick l = Returned x ∧ x ∈ l.
Proof.
  intros Hl. unfold random_choice. destruct l as [|a l'] eqn:El; [done|].
  rewrite <- El.
  destruct (lookup_lt_is_Some_2 l (pick mod length l)) as [x Hx].
  { apply Nat.mod_upper_bound. subst l. simpl. lia. }
  exists x. rewrite Hx. split; [done|]. by eapply list_elem_of_lookup_2.
Qed.

Lemma filter_ext_elem {A} (P Q : A → Prop) `{∀ x, Decision (P x)}
    `{∀ x, Decision (Q x)} (l : list A) :
  (∀ x, x ∈ l → (P x ↔ Q x)) → filter P l = filter Q l.
Proof.
  induction l as [|a l IH]; intros Hext; [done|].
  rewrite !filter_cons.
  destruct (decide (P a)) as [HP|HP], (decide (Q a)) as [HQ|HQ].
  - f_equal. apply IH. intros x Hx. apply Hext. by right.
  - exfalso. apply HQ, Hext; [left|done].
  - exfalso. apply HP, Hext; [left|done].
  - apply IH. intros x Hx. apply Hext. by right.
Qed.

Lemma filter_all {A} (P : A → Prop) `{∀ x, Decision (P x)} (l : list A) :
  (∀ x, x ∈ l → P x) → filter P l = l.
Proof.
  induction l as [|a l IH]; intros Hall; [done|].
  rewrite filter_cons, decide_True by (apply Hall; left).
  f_equal. apply IH. intros x Hx. apply Hall. by right.
Qed.

(** ** The cards the AI considers *)

Lemma get_playable_cards_filter g player_id player :
  players g !! player_id = Some player →
  get_playable_cards (hand player) (cards (current_trick g)) (trump_suit g) =
    filter (fun card => can_play_card g player_id card = true) (hand player).
Proof.
  intros Hplayer. unfold get_playable_cards.
  assert (Hlegal : ∀ card, card ∈ hand player →
    can_play_card g player_id card =
      match cards (current_trick g) with
      | [] => true
      | first :: _ =>
          if existsb (fun c => bool_decide
                       (get_effective_suit (trump_suit g) c =
                        get_effective_suit (trump_suit g) first.2)) (hand player)
          then bool_decide (get_effective_suit (trump_suit g) card =
                            get_effective_suit (trump_suit g) first.2)
          else true
      end).
  { intros card Hin. unfold can_play_card. rewrite Hplayer.
    by rewrite bool_decide_true by done. }
  destruct (cards (current_trick g)) as [|first rest] eqn:Htrick.
  - symmetry. apply filter_all. intros card Hin. by rewrite Hlegal.
  - cbv zeta.
    destruct (existsb _ (hand player)) eqn:Hsuit.
    + assert (Hsame : filter (fun card => EuchreAI.get_effective_suit card (trump_suit g) =
                         EuchreAI.get_effective_suit first.2 (trump_suit g))
                        (hand player) =
                      filter (fun card => can_play_card g player_id card = true)
                        (hand player)).
      { apply filter_ext_elem. intros card Hin.
        rewrite Hlegal, !ai_effective_suit_agrees by done.
        by rewrite bool_decide_eq_true. }
      rewrite Hsame.
      apply has_suit_true in Hsuit as (c & Hc & Heff).
      assert (Hc' : c ∈ filter (fun card => can_play_card g player_id card = true)
                         (hand player)).
      { apply list_elem_of_filter. split; [|done].
        rewrite Hlegal by done. by apply bool_decide_eq_true_2. }
      revert Hc'. generalize (filter (fun card => can_play_card g player_id card = true)
                                (hand player)).
      intros [|x l'] Hc'; [by apply elem_of_nil in Hc'|done].
    + assert (Hnone : filter (fun card => EuchreAI.get_effective_suit card (trump_suit g) =
                         EuchreAI.get_effective_suit first.2 (trump_suit g))
                        (hand player) = []).
      { pose proof (proj1 (has_suit_false g _ _) Hsuit) as Hvoid. clear Hsuit Hlegal.
        induction (hand player) as [|a l IH]; [done|].
        rewrite filter_cons, decide_False.
        - apply IH. intros c Hc. apply Hvoid. by right.
        - rewrite !ai_effective_suit_agrees. apply Hvoid. left. }
      rewrite Hnone. symmetry. apply filter_all. intros card Hin. by rewrite Hlegal.
Qed.

(** X16: the cards [get_playable_cards] offers the AI are the cards of the
    hand that the engine's [can_play_card] accepts, in hand order. *)
Theorem playable_cards_are_the_legal_cards g player_id player :
  players g !! player_id = Some player →
  get_playable_cards (hand player) (cards (current_trick g)) (trump_suit g) =
    filter (fun card => can_play_card g player_id card = true) (hand player).
Proof. apply get_playable_cards_filter. Qed.

Lemma playable_cards_are_the_legal_cards_witness :
  get_playable_cards [mkCard HEARTS NINE; mkCard CLUBS ACE]
    [("p0", mkCard DIAMONDS JACK)] (Some HEARTS) = [mkCard HEARTS NINE].
Proof.
  apply (playable_cards_are_the_legal_cards legality_example "p1"
           (mkPlayer "p1" "B" [mkCard HEARTS NINE; mkCard CLUBS ACE] 1 true false)).
  reflexivity.
Defined.

(** ** The card the AI plays *)

Lemma Suit_of_value_suit_value s : Suit_of_value (PStr (suit_value s)) = Returned s.
Proof. by destruct s. Qed.

Lemma py_truthy_suit_value s : py_truthy (PStr (suit_value s)) = true.
Proof. by destruct s. Qed.

(** What the AI reads of the game state: the trump suit. *)
Lemma game_state_trump_suit keys g player_id player :
  players g !! player_id = Some player →
  dict_get "trump_suit" (get_game_state keys g player_id) =
    Some match trump_suit g with
         | Some s => PStr (suit_value s)
         | None => PNone
         end.
Proof. intros Hplayer. unfold get_game_state. by rewrite Hplayer. Qed.

Lemma choose_lead_card_elem personality rnd pick playable trump_suit :
  playable ≠ [] →
  ∃ card, choose_lead_card personality rnd pick playable trump_suit = Returned card ∧
          card ∈ playable.
Proof.
  intros Hne. unfold choose_lead_card.
  destruct trump_suit as [t|]; [|by apply random_choice_elem].
  set (trump_cards := filter (fun card => EuchreAI.is_trump card t = true) playable).
  set (non_trump_cards :=
         filter (fun card => EuchreAI.is_trump card t = false) playable).
  cbv zeta.
  destruct (negb (bool_decide (trump_cards = [])) && _) eqn:Hlead.
  - apply andb_true_iff in Hlead as [Htrump _].
    apply negb_true_iff, bool_decide_eq_false in Htrump.
    destruct (py_max_spec (fun c => EuchreAI.get_card_value c t) trump_cards Htrump)
      as (card & -> & Hin & _).
    exists card. split; [done|]. by apply list_elem_of_filter in Hin as [_ Hin].
  - destruct non_trump_cards as [|c rest] eqn:Hnon.
    + destruct playable as [|card playable']; [done|].
      exists card. split; [done|]. left.
    + rewrite <- Hnon.
      destruct (filter (fun card => rank card = ACE) non_trump_cards)
        as [|ace aces] eqn:Haces.
      * destruct (py_max_spec (fun c => rank_value (rank c)) non_trump_cards)
          as (card & -> & Hin & _); [by rewrite Hnon|].
        exists card. split; [done|].
        by apply list_elem_of_filter in Hin as [_ Hin].
      * exists ace. split; [done|].
        assert (Hin : ace ∈ filter (fun card => rank card = ACE) non_trump_cards)
          by (rewrite Haces; left).
        apply list_elem_of_filter in Hin as [_ Hin].
        by apply list_elem_of_filter in Hin as [_ Hin].
Qed.

(** The card [get_winning_card] returns holds the highest AI value of the
    trick. *)
Lemma get_winning_card_max trick t :
  trick ≠ [] →
  ∃ best, get_winning_card trick t = Some best ∧ best ∈ trick.*2 ∧
    ∀ c, c ∈ trick.*2 → EuchreAI.get_card_value c t ≤ EuchreAI.get_card_value best t.
Proof.
  destruct trick as [|first rest]; [done|]. intros _.
  unfold get_winning_card. cbv zeta.
  assert (Hfold : ∀ (l : list (string * Card)) (acc : Card * nat),
    acc.2 = EuchreAI.get_card_value acc.1 t →
    let r := foldl (fun best entry =>
                      if best.2 <? EuchreAI.get_card_value entry.2 t
                      then (entry.2, EuchreAI.get_card_value entry.2 t) else best)
                   acc l in
    r.2 = EuchreAI.get_card_value r.1 t ∧ r.1 ∈ acc.1 :: l.*2 ∧ acc.2 ≤ r.2 ∧
    ∀ c, c ∈ l.*2 → EuchreAI.get_card_value c t ≤ r.2).
  { induction l as [|entry l IH]; intros acc Hacc; cbn [foldl fmap list_fmap].
    - split; [done|]. split; [left|]. split; [done|].
      intros c Hc. by apply elem_of_nil in Hc.
    - destruct (acc.2 <? _) eqn:Hlt; nat_tests.
      + destruct (IH (entry.2, EuchreAI.get_card_value entry.2 t) eq_refl)
          as (Hv & Hin & Hle & Hmax). cbn [fst snd] in *.
        split; [done|]. split; [by right|]. split; [lia|].
        intros c [->|Hc]%elem_of_cons; auto.
      + destruct (IH acc Hacc) as (Hv & Hin & Hle & Hmax).
        split; [done|]. split.
        * apply elem_of_cons in Hin as [->|Hin]; [left|right; by right].
        * split; [done|]. intros c [->|Hc]%elem_of_cons; [lia|auto]. }
  destruct (Hfold rest (first.2, EuchreAI.get_card_value first.2 t) eq_refl)
    as (Hv & Hin & Hle & Hmax). cbn [fst snd] in *.
  eexists. split; [done|]. split; [done|].
  intros c [->|Hc]%elem_of_cons; rewrite <- Hv; auto.
Qed.

(** X18: following in a trick with a trump suit, the AI compares the cards
    it may play with the card that holds the highest AI value in the trick
    so far: when some of them beat it, the AI plays the lowest of those;
    when none does, the AI plays its lowest card. *)
Theorem choose_follow_card_choice pick playable trick t :
  playable ≠ [] → trick ≠ [] →
  ∃ best card,
    get_winning_card trick t = Some best ∧ best ∈ trick.*2 ∧
    (∀ c, c ∈ trick.*2 →
       EuchreAI.get_card_value c t ≤ EuchreAI.get_card_value best t) ∧
    choose_follow_card pick playable trick (Some t) = Returned card ∧
    card ∈ playable ∧
    ((∃ c, c ∈ playable ∧
           EuchreAI.get_card_value best t < EuchreAI.get_card_value c t) →
     EuchreAI.get_card_value best t < EuchreAI.get_card_value card t ∧
     ∀ c, c ∈ playable →
          EuchreAI.get_card_value best t < EuchreAI.get_card_value c t →
          EuchreAI.get_card_value card t ≤ EuchreAI.get_card_value c t) ∧
    ((∀ c, c ∈ playable →
           EuchreAI.get_card_value c t ≤ EuchreAI.get_card_value best t) →
     ∀ c, c ∈ playable →
          EuchreAI.get_card_value card t ≤ EuchreAI.get_card_value c t).
Proof.
  intros Hplayable Htrick.
  destruct (get_winning_card_max trick t Htrick) as (best & Hbest & Hin & Hmax).
  exists best. unfold choose_follow_card. rewrite Hbest.
  cbn [mbind outcome_bind].
  set (winning := filter (fun card => EuchreAI.get_card_value best t
                                      < EuchreAI.get_card_value card t) playable).
  destruct winning as [|w winning'] eqn:Hwinning.
  - destruct (py_min_spec (fun c => EuchreAI.get_card_value c t) playable Hplayable)
      as (card & -> & Hcard & Hmin).
    exists card. repeat split; try done.
    + destruct H as (c & Hc & Hlt).
      assert (c ∈ winning) as Hw by (by apply list_elem_of_filter).
      rewrite Hwinning in Hw. by apply elem_of_nil in Hw.
    + destruct H as (c & Hc & Hlt).
      assert (c ∈ winning) as Hw by (by apply list_elem_of_filter).
      rewrite Hwinning in Hw. by apply elem_of_nil in Hw.
  - rewrite <- Hwinning.
    destruct (py_min_spec (fun c => EuchreAI.get_card_value c t) winning)
      as (card & -> & Hcard & Hmin); [by rewrite Hwinning|].
    apply list_elem_of_filter in Hcard as [Hbeats Hcard].
    exists card. repeat split; try done.
    + intros c Hc Hlt. apply Hmin. by apply list_elem_of_filter.
    + intros Hnone c Hc. specialize (Hnone card Hcard). lia.
Qed.

Lemma choose_follow_card_choice_witness :
  ∃ best card,
    get_winning_card [("p0", mkCard SPADES NINE); ("p1", mkCard SPADES KING)] HEARTS
      = Some best ∧
    choose_follow_card 0 [mkCard SPADES TEN; mkCard SPADES ACE]
      [("p0", mkCard SPADES NINE); ("p1", mkCard SPADES KING)] (Some HEARTS)
      = Returned card ∧
    card ∈ [mkCard SPADES TEN; mkCard SPADES ACE].
Proof.
  destruct (choose_follow_card_choice 0 [mkCard SPADES TEN; mkCard SPADES ACE]
              [("p0", mkCard SPADES NINE); ("p1", mkCard SPADES KING)] HEARTS)
    as (best & card & Hbest & _ & _ & Hcard & Hin & _); [done|done|].
  by exists best, card.
Defined.

Lemma choose_follow_card_elem pick playable trick trump_suit :
  playable ≠ [] → trick ≠ [] →
  ∃ card, choose_follow_card pick playable trick trump_suit = Returned card ∧
          card ∈ playable.
Proof.
  intros Hplayable Htrick. destruct trump_suit as [t|].
  - destruct (get_winning_card_max trick t Htrick) as (best & Hbest & _).
    unfold choose_follow_card. rewrite Hbest. cbn [mbind outcome_bind].
    destruct (filter _ playable) as [|w winning'] eqn:Hwinning.
    + destruct (py_min_spec (fun c => EuchreAI.get_card_value c t) playable Hplayable)
        as (card & -> & Hcard & _). by exists card.
    + rewrite <- Hwinning.
      destruct (py_min_spec (fun c => EuchreAI.get_card_value c t)
                  (filter (fun card => EuchreAI.get_card_value best t
                                       < EuchreAI.get_card_value card t) playable))
        as (card & -> & Hcard & _); [by rewrite Hwinning|].
      apply list_elem_of_filter in Hcard as [_ Hcard]. by exists card.
  - by apply random_choice_elem.
Qed.

(** X17: the AI never chooses a card the engine refuses.  For a player who
    holds a card, [choose_card_to_play], given the player's hand, the game
    state [get_game_state] makes for the player and the cards of the
    current trick, returns a card of the hand that [can_play_card] accepts,
    whatever the personality and the random draws. *)
Theorem ai_plays_a_legal_card personality rnd pick keys g player_id player :
  players g !! player_id = Some player → hand player ≠ [] →
  ∃ card,
    choose_card_to_play personality rnd pick (hand player)
      (get_game_state keys g player_id) (cards (current_trick g)) = Returned card ∧
    card ∈ hand player ∧ can_play_card g player_id card = true.
Proof.
  intros Hplayer Hhand. unfold choose_card_to_play.
  rewrite (game_state_trump_suit keys g player_id player Hplayer).
  cbn [or_raise mbind outcome_bind].
  assert (Htrump :
    (if py_truthy match trump_suit g with
                  | Some s => PStr (suit_value s)
                  | None => PNone
                  end
     then suit ← Suit_of_value match trump_suit g with
                               | Some s => PStr (suit_value s)
                               | None => PNone
                               end; mret (Some suit)
     else Returned None) = Returned (trump_suit g)).
  { destruct (trump_suit g) as [s|]; [|done].
    by rewrite py_truthy_suit_value, Suit_of_value_suit_value. }
  rewrite Htrump. cbn [mbind outcome_bind]. cbv zeta.
  rewrite (get_playable_cards_filter g player_id player Hplayer).
  destruct (legal_card_exists g player_id player Hplayer Hhand) as (c & Hc & Hlegal).
  assert (Hplayable : filter (fun card => can_play_card g player_id card = true)
                        (hand player) ≠ []).
  { intros Hnil. assert (c ∈ filter (fun card => can_play_card g player_id card = true)
                                (hand player)) as Hin by (by apply list_elem_of_filter).
    rewrite Hnil in Hin. by apply elem_of_nil in Hin. }
  destruct (filter _ (hand player)) as [|x playable'] eqn:Hfilter; [done|].
  rewrite <- Hfilter.
  assert (Hchosen : ∀ card,
    card ∈ filter (fun card => can_play_card g player_id card = true) (hand player) →
    card ∈ hand player ∧ can_play_card g player_id card = true).
  { intros card Hin. by apply list_elem_of_filter in Hin as [? ?]. }
  destruct (length (cards (current_trick g)) =? 0) eqn:Hlead; nat_tests.
  - destruct (choose_lead_card_elem personality rnd pick
                (filter (fun card => can_play_card g player_id card = true)
                   (hand player)) (trump_suit g)) as (card & -> & Hin);
      [by rewrite Hfilter|].
    exists card. split; [done|]. by apply Hchosen.
  - destruct (choose_follow_card_elem pick
                (filter (fun card => can_play_card g player_id card = true)
                   (hand player)) (cards (current_trick g)) (trump_suit g))
      as (card & -> & Hin); [by rewrite Hfilter| |].
    + by destruct (cards (current_trick g)).
    + exists card. split; [done|]. by apply Hchosen.
Qed.

Lemma ai_plays_a_legal_card_witness :
  ∃ card,
    choose_card_to_play (EuchreAI.mkPersonality "Ada" 0.7 0.3 0.8 0.6) 0.5 0
      [mkCard HEARTS NINE; mkCard CLUBS ACE]
      (get_game_state ["p1"] legality_example "p1")
      [("p0", mkCard DIAMONDS JACK)] = Returned card ∧
    card ∈ [mkCard HEARTS NINE; mkCard CLUBS ACE] ∧
    can_play_card legality_example "p1" card = true.
Proof.
  apply (ai_plays_a_legal_card (EuchreAI.mkPersonality "Ada" 0.7 0.3 0.8 0.6) 0.5 0
           ["p1"] legality_example "p1"
           (mkPlayer "p1" "B" [mkCard HEARTS NINE; mkCard CLUBS ACE] 1 true false));
    [reflexivity|discriminate].
Defined.

(** ** The card the AI discards *)

(** X19: [choose_discard] raises [ValueError] on an empty hand; otherwise
    it returns a card of the hand: while the hand holds a card that is not
    trump, a card that is not trump and of the lowest rank among those;
    when every card is trump, the card of the lowest AI value. *)
Theorem choose_discard_choice hand t :
  (hand = [] → choose_discard hand t = Raised ValueError) ∧
  (hand ≠ [] →
   ∃ card,
     choose_discard hand t = Returned card ∧ card ∈ hand ∧
     ((∃ c, c ∈ hand ∧ EuchreAI.is_trump c t = false) →
      EuchreAI.is_trump card t = false ∧
      ∀ c, c ∈ hand → EuchreAI.is_trump c t = false →
           rank_value (rank card) ≤ rank_value (rank c)) ∧
     ((∀ c, c ∈ hand → EuchreAI.is_trump c t = true) →
      ∀ c, c ∈ hand →
           EuchreAI.get_card_value card t ≤ EuchreAI.get_card_value c t)).
Proof.
  split; [by intros ->|]. intros Hhand. unfold choose_discard. cbv zeta.
  set (plain := filter (fun card => EuchreAI.is_trump card t = false) hand).
  destruct plain as [|p plain'] eqn:Hplain.
  - destruct (py_min_spec (fun c => EuchreAI.get_card_value c t) hand Hhand)
      as (card & -> & Hcard & Hmin).
    exists card. split; [done|]. split; [done|]. split; [|done].
    intros (c & Hc & Hnot).
    assert (c ∈ plain) as Hin by (by apply list_elem_of_filter).
    rewrite Hplain in Hin. by apply elem_of_nil in Hin.
  - rewrite <- Hplain.
    destruct (py_min_spec (fun c => rank_value (rank c)) plain)
      as (card & -> & Hcard & Hmin); [by rewrite Hplain|].
    apply list_elem_of_filter in Hcard as [Hnot Hcard].
    exists card. split; [done|]. split; [done|]. split.
    + intros _. split; [done|]. intros c Hc Hc'. apply Hmin.
      by apply list_elem_of_filter.
    + intros Hall. specialize (Hall card Hcard). congruence.
Qed.

(** ** The AI's bid *)

(** The second-round loop never settles on the suit that was turned down. *)
Lemma best_suit_fold hand turned_suit suits acc :
  (∀ s, acc.1 = Some s → s ≠ turned_suit) →
  ∀ s, (foldl (best_suit_step hand turned_suit) acc suits).1 = Some s →
       s ≠ turned_suit.
Proof.
  revert acc. induction suits as [|x suits IH]; intros acc Hacc; [done|].
  cbn [foldl]. apply IH. unfold best_suit_step.
  case_bool_decide as Hx; [done|]. cbv zeta.
  destruct (_ <? _)%float; [|done]. cbn [fst]. by intros s [= <-].
Qed.

(** X20: [should_call_trump] names a suit only with a call: without a call
    the suit is [None]; a first-round call names the suit of the turned
    card; a suit named in the second round is never the suit of the turned
    card. *)
Theorem should_call_trump_suit personality hand turned is_dealer round_num :
  let r := should_call_trump personality hand turned is_dealer round_num in
  (r.1 = false → r.2 = None) ∧
  (round_num = 1 → r.1 = true → r.2 = Some (suit turned)) ∧
  (round_num ≠ 1 → ∀ s, r.2 = Some s → s ≠ suit turned).
Proof.
  cbv zeta. unfold should_call_trump.
  destruct (round_num =? 1) eqn:Hround; nat_tests.
  - cbv zeta. cbn [fst snd]. repeat split; [by intros ->|by intros _ ->|done].
  - pose proof (best_suit_fold hand (suit turned) all_suits (None, 0.0%float)) as Hbest.
    destruct (foldl _ _ all_suits) as [best_suit best_strength].
    cbv zeta. cbn [fst snd] in *. repeat split; [by intros ->|done|].
    intros _ s. destruct (_ <=? _)%float; [|done]. by apply Hbest.
Qed.

(** What a valid [name_trump] does in the second round. *)
Lemma name_trump_accepted shuffled g player_id turned s :
  phase g = TRUMP_SELECTION → trump_selection_round g = 2 →
  trump_card g = Some turned →
  player_order g !! trump_selection_player_index g = Some player_id →
  s ≠ suit turned →
  handle_trump_selection shuffled player_id "name_trump" (Some s) g =
    (set_current_player_index ((dealer_index g + 1) mod 4)
       (set_phase PLAYING
          (set_trump_maker (Some player_id) (set_trump_suit (Some s) g))),
     Returned true).
Proof.
  intros Hphase Hround Hturned Hplayer Hsuit.
  rewrite handle_trump_selection_eq. py_step.
  rewrite Hphase, Hplayer, Hround, Hturned. rewrite bool_decide_true by done.
  cbn [negb]. py_step. rewrite bool_decide_true by done. cbn [negb].
  rewrite (bool_decide_false ("name_trump" = "order_up")) by done.
  rewrite (bool_decide_true ("name_trump" = "name_trump")) by done.
  rewrite (bool_decide_true (is_Some (Some s))) by (by eexists).
  cbn [andb Nat.eqb]. py_step.
  rewrite (bool_decide_false (Some s = Some (suit turned))) by congruence.
  cbn [negb]. py_step. rewrite start_playing_phase_eq. py_step. by game_simpl.
Qed.

(** X21: the suit the AI names in the second round is one the engine
    accepts: when it is the bidder's turn, [handle_trump_selection] with
    [name_trump] and the suit [should_call_trump] returned makes that suit
    trump, the bidder the trump maker, and starts play left of the
    dealer; the bidder's [handle_going_alone] is then accepted as well. *)
Theorem ai_named_suit_is_accepted shuffled personality g player_id hand turned
    is_dealer s :
  phase g = TRUMP_SELECTION → trump_selection_round g = 2 →
  trump_card g = Some turned →
  player_order g !! trump_selection_player_index g = Some player_id →
  should_call_trump personality hand turned is_dealer 2 = (true, Some s) →
  let r := handle_trump_selection shuffled player_id "name_trump" (Some s) g in
  outcome_of r = Returned true ∧
  trump_suit (state_of r) = Some s ∧
  trump_maker (state_of r) = Some player_id ∧
  phase (state_of r) = PLAYING ∧
  current_player_index (state_of r) = (dealer_index g + 1) mod 4 ∧
  handle_going_alone player_id true (state_of r) =
    (set_going_alone (Some player_id) (state_of r), Returned true).
Proof.
  intros Hphase Hround Hturned Hplayer Hcall.
  assert (Hsuit : s ≠ suit turned).
  { pose proof (best_suit_fold hand (suit turned) all_suits (None, 0.0%float)) as Hbest.
    unfold should_call_trump in Hcall. cbn [Nat.eqb] in Hcall.
    destruct (foldl _ _ all_suits) as [best_suit best_strength].
    cbv zeta in Hcall. cbn [fst] in Hbest.
    destruct (_ <=? _)%float; [|done]. injection Hcall as ->. by apply Hbest. }
  cbv zeta. rewrite (name_trump_accepted shuffled g player_id turned s) by done.
  rewrite state_of_pair, outcome_of_pair. game_simpl. repeat split; try done.
  rewrite handle_going_alone_eq. py_step. game_simpl.
  rewrite bool_decide_true by done. by py_step.
Qed.

Lemma ai_named_suit_is_accepted_witness :
  trump_suit
    (state_of (handle_trump_selection create_deck "p1" "name_trump" (Some HEARTS)
                 second_round)) = Some HEARTS.
Proof.
  assert (Hcall : should_call_trump (EuchreAI.mkPersonality "Clara" 0.8 0.2 0.5 0.8)
                    [mkCard HEARTS TEN; mkCard HEARTS ACE; mkCard DIAMONDS QUEEN;
                     mkCard CLUBS TEN; mkCard CLUBS ACE]
                    (mkCard SPADES JACK) false 2 = (true, Some HEARTS))
    by (vm_compute; reflexivity).
  assert (Hphase : phase second_round = TRUMP_SELECTION) by (vm_compute; reflexivity).
  assert (Hround : trump_selection_round second_round = 2)
    by (vm_compute; reflexivity).
  assert (Hturned : trump_card second_round = Some (mkCard SPADES JACK))
    by (vm_compute; reflexivity).
  assert (Hplayer : player_order second_round
                      !! trump_selection_player_index second_round = Some "p1")
    by (vm_compute; reflexivity).
  pose proof (ai_named_suit_is_accepted create_deck _ second_round "p1" _ _ _ _
                Hphase Hround Hturned Hplayer Hcall) as H.
  cbv zeta in H. destruct H as (_ & H & _). exact H.
Defined.

(** * What is sent to the players *)

(** ** Cards *)

Lemma Suit_of_value_inv v s : Suit_of_value v = Returned s → v = PStr (suit_value s).
Proof.
  destruct v as [| | |str| | |]; try done. unfold Suit_of_value.
  destruct (head _) as [m|] eqn:Hhead; [|done]. intros [= ->].
  apply head_Some_elem_of, list_elem_of_filter in Hhead as [<- _]. done.
Qed.

Lemma Rank_of_value_inv v r :
  Rank_of_value v = Returned r → v = PInt (Z.of_nat (rank_value r)).
Proof.
  destruct v as [| |n| | | |]; try done. unfold Rank_of_value.
  destruct (head _) as [m|] eqn:Hhead; [|done]. intros [= ->].
  apply head_Some_elem_of, list_elem_of_filter in Hhead as [<- _]. done.
Qed.

Lemma Rank_of_value_rank_value r :
  Rank_of_value (PInt (Z.of_nat (rank_value r))) = Returned r.
Proof. by destruct r. Qed.

(** X22: the server reads back the card that [to_dict] wrote.  Building a
    card from a dictionary succeeds exactly when the dictionary holds a
    suit value under [suit] and a rank value under [rank], and yields the
    card of that suit and rank; so [to_dict] followed by the server's
    reading is the identity, and two cards with the same display name are
    the same card. *)
Theorem card_dict_round_trip c :
  card_of_dict (card_to_dict c) = Returned c ∧
  (∀ d, card_of_dict d = Returned c ↔
        dict_get "suit" d = Some (PStr (suit_value (suit c))) ∧
        dict_get "rank" d = Some (PInt (Z.of_nat (rank_value (rank c))))) ∧
  (∀ c', card_str c' = card_str c → c' = c).
Proof.
  split; [by destruct c as [[] []]|]. split.
  - intros d. unfold card_of_dict. split.
    + destruct (dict_get "suit" d) as [suit_v|]; [|done]. cbn [or_raise mbind outcome_bind].
      destruct (Suit_of_value suit_v) as [s|] eqn:Hs; [|done].
      destruct (dict_get "rank" d) as [rank_v|]; [|done]. cbn [or_raise mbind outcome_bind].
      destruct (Rank_of_value rank_v) as [r|] eqn:Hr; [|done].
      intros [= <-]. cbn [suit rank].
      by rewrite (Suit_of_value_inv _ _ Hs), (Rank_of_value_inv _ _ Hr).
    + intros [-> ->]. cbn [or_raise mbind outcome_bind].
      rewrite Suit_of_value_suit_value. cbn [mbind outcome_bind].
      rewrite Rank_of_value_rank_value. by destruct c.
  - intros c' Hstr.
    assert (Hcheck : forallb (fun c1 => forallb (fun c2 =>
                       implb (String.eqb (card_str c1) (card_str c2))
                             (bool_decide (c1 = c2))) create_deck) create_deck = true)
      by (vm_compute; reflexivity).
    pose proof (proj1 (forallb_forall _ _) Hcheck c' (In_create_deck c')) as H1.
    pose proof (proj1 (forallb_forall _ _) H1 c (In_create_deck c)) as H2.
    simpl in H2. rewrite (proj2 (String.eqb_eq _ _) Hstr) in H2.
    by apply bool_decide_eq_true_1 in H2.
Qed.

(** ** The game state of a player *)

Lemma player_entry_public p p' : same_public p p' → player_entry p' = player_entry p.
Proof.
  intros (Hid & Hname & Hpos & Hconn & Hai & Hlen). unfold player_entry.
  by rewrite Hid, Hname, Hpos, Hconn, Hai, Hlen.
Qed.

(** X23: the state [get_game_state] makes for a player shows the player's
    own cards and, of the other players, only how many cards they hold: it
    is the same for two games that differ only in the deck and in the cards
    held by the others.  For an id that is not a player's it is the empty
    dictionary. *)
Theorem game_state_hides_other_hands keys player_id g g' :
  same_view player_id g g' →
  get_game_state keys g' player_id = get_game_state keys g player_id ∧
  (players g !! player_id = None → get_game_state keys g player_id = []).
Proof.
  intros (Hself & Hothers & Hroom & _ & Hphase & Hsuit & Hcard & Hdealer & Hturn &
          Htrick & Hdone & Hmaker & Halone & Hscores & _ & Hround & Hbidder).
  split; [|intros Hnone; unfold get_game_state; by rewrite Hnone].
  unfold get_game_state. rewrite Hself.
  destruct (players g !! player_id) as [player|]; [|done].
  rewrite Hroom, Hphase, Hsuit, Hcard, Hdealer, Hturn, Htrick, Hdone, Hmaker,
    Halone, Hscores, Hround, Hbidder.
  assert (Hlist : player_entry <$> omap (fun id => players g' !! id) keys =
                  player_entry <$> omap (fun id => players g !! id) keys).
  { induction keys as [|id keys IH]; [done|]. cbn [omap list_omap].
    destruct (Hothers id) as [p p' Hp|]; [|done].
    cbn [fmap list_fmap]. by rewrite IH, (player_entry_public p p'). }
  by rewrite Hlist.
Qed.

Lemma game_state_hides_other_hands_witness :
  get_game_state ["p0"; "p1"; "p2"; "p3"] seated_other_cards "p1" =
  get_game_state ["p0"; "p1"; "p2"; "p3"] seated "p1".
Proof.
  apply (game_state_hides_other_hands ["p0"; "p1"; "p2"; "p3"] "p1" seated
           seated_other_cards).
  split; [vm_compute; reflexivity|]. split; [|vm_compute; repeat split].
  intros id. unfold seated_other_cards.
  change (players (set_deck _ (set_players ?ps _))) with ps.
  destruct (decide (id = "p0")) as [->|Hne].
  - rewrite lookup_insert_eq. vm_compute. by constructor.
  - rewrite lookup_insert_ne by done.
    destruct (players seated !! id); by constructor.
Defined.

(** * Seats, positions and teams *)

Lemma same_seats_refl g : same_seats g g.
Proof. by repeat split. Qed.

Lemma same_seats_trans g1 g2 g3 :
  same_seats g1 g2 → same_seats g2 g3 → same_seats g1 g3.
Proof.
  intros (Ho & Hp & Ht) (Ho' & Hp' & Ht'). split; [congruence|]. split.
  - intros id. by rewrite Hp', Hp.
  - auto.
Qed.

Lemma same_seats_insert g player_id p p' :
  players g !! player_id = Some p → position p' = position p →
  same_seats g (set_players (<[player_id := p']> (players g)) g).
Proof.
  intros Hp Hpos. split; [by game_simpl|]. split; [|by game_simpl].
  intros id. game_simpl. destruct (decide (player_id = id)) as [<-|Hne].
  - rewrite lookup_insert_eq, Hp. simpl. by rewrite Hpos.
  - by rewrite lookup_insert_ne.
Qed.

Ltac same_seats_tac :=
  split; [by game_simpl|split; [intros ?; by game_simpl|by game_simpl]].

Lemma list_index_lt x l i : list_index x l = Some i → i < length l.
Proof.
  revert i. induction l as [|y l IH]; intros i; [done|]. simpl.
  case_bool_decide; [intros [= <-]; lia|].
  destruct (list_index x l) as [k|]; [|done]. intros [= <-].
  specialize (IH k eq_refl). lia.
Qed.

Lemma deal_pass_seats order card_index g :
  same_seats g (state_of (deal_pass order card_index g)).
Proof.
  revert card_index g. induction order as [|player_id rest IH]; intros card_index g.
  - apply same_seats_refl.
  - rewrite deal_pass_cons. py_step.
    destruct (players g !! player_id) as [player|] eqn:Hp; py_step;
      [|apply same_seats_refl].
    destruct (deck g !! card_index) as [card|]; py_step; [|apply same_seats_refl].
    eapply same_seats_trans; [|apply IH]. by eapply same_seats_insert.
Qed.

Lemma deal_passes_seats n card_index g :
  same_seats g (state_of (deal_passes n card_index g)).
Proof.
  revert card_index g. induction n as [|n IH]; intros card_index g.
  - apply same_seats_refl.
  - rewrite deal_passes_succ. py_step. rewrite bind_unfold.
    pose proof (deal_pass_seats (player_order g) card_index g) as H1.
    destruct (deal_pass (player_order g) card_index g) as [g1 [i|e]];
      rewrite state_of_pair in H1; [|by rewrite state_of_pair].
    eapply same_seats_trans; [exact H1|apply IH].
Qed.

Lemma deal_cards_seats_kept shuffled g :
  same_seats g (state_of (deal_cards shuffled g)).
Proof.
  rewrite deal_cards_eq. py_step. rewrite bind_unfold.
  match goal with |- context [deal_passes 5 0 ?g1] =>
    assert (H0 : same_seats g g1);
    [|pose proof (deal_passes_seats 5 0 g1) as H1;
      destruct (deal_passes 5 0 g1) as [g2 [i|e]]; rewrite state_of_pair in H1;
      pose proof (same_seats_trans _ _ _ H0 H1) as H2]
  end.
  - split; [by game_simpl|]. split; [|by game_simpl]. intros id. game_simpl.
    rewrite lookup_fmap. by destruct (players g !! id).
  - py_step. destruct (deck g2 !! i); py_step; [|done].
    eapply same_seats_trans; [exact H2|]. same_seats_tac.
  - by py_step.
Qed.

Lemma start_next_round_seats shuffled g :
  same_seats g (state_of (start_next_round shuffled g)).
Proof.
  rewrite start_next_round_eq. py_step.
  eapply same_seats_trans; [|apply deal_cards_seats_kept]. same_seats_tac.
Qed.

Lemma complete_round_seats shuffled g :
  same_seats g (state_of (complete_round shuffled g)).
Proof.
  rewrite complete_round_eq. py_step.
  destruct (count_team_tricks_pure (completed_tricks g) (0, 0) g) as [o Ho].
  rewrite bind_unfold, Ho. destruct o as [team_tricks|e];
    [|py_step; apply same_seats_refl].
  destruct (trump_maker g ≫= _) as [maker|]; py_step; [|apply same_seats_refl].
  cbv zeta. game_simpl.
  destruct (10 <=? _).
  - py_step. same_seats_tac.
  - eapply same_seats_trans; [|apply start_next_round_seats]. same_seats_tac.
Qed.

Lemma complete_trick_seats shuffled g :
  length (player_order g) ≤ 4 →
  same_seats g (state_of (complete_trick shuffled g)).
Proof.
  intros Hlen. rewrite complete_trick_eq. py_step.
  destruct (trump_suit g) as [trump|]; py_step; [|apply same_seats_refl].
  destruct (negb _); py_step; [apply same_seats_refl|].
  destruct (cards (current_trick g) !! 0) as [first|]; py_step;
    [|apply same_seats_refl].
  cbv zeta.
  destruct (cards (current_trick g) !! _) as [won|]; py_step;
    [|apply same_seats_refl].
  game_simpl.
  destruct (list_index _ _) as [seat|] eqn:Hseat; py_step; [|same_seats_tac].
  apply list_index_lt in Hseat. game_simpl.
  match goal with |- context [set_current_player_index seat ?g0] =>
    assert (Hg1 : same_seats g (set_current_player_index seat g0))
      by (split; [by game_simpl|split; [intros ?; by game_simpl|]];
          game_simpl; lia)
  end.
  match goal with |- context [if ?b then _ else _] => destruct b end.
  - eapply same_seats_trans; [exact Hg1|apply complete_round_seats].
  - by py_step.
Qed.

Lemma play_card_seats shuffled player_id card g :
  length (player_order g) ≤ 4 →
  same_seats g (state_of (play_card shuffled player_id card g)).
Proof.
  intros Hlen. rewrite play_card_eq. py_step.
  destruct (negb _); py_step; [apply same_seats_refl|].
  destruct (players g !! player_id) as [player|] eqn:Hplayer; py_step;
    [|apply same_seats_refl].
  destruct (list_remove_first card (hand player)) as [hand'|]; py_step;
    [|apply same_seats_refl].
  assert (Hseats : same_seats g
            (set_players (<[player_id:=set_hand hand' player]> (players g)) g))
    by (by eapply same_seats_insert).
  assert (Hmod : (current_player_index g + 1) mod 4 < 4)
    by (by apply Nat.mod_upper_bound).
  game_simpl. rewrite bind_unfold.
  destruct (length (cards (current_trick g)) =? 0); py_step; game_simpl;
    rewrite bind_ret_state;
    (match goal with |- context [if ?b then _ else _] => destruct b end;
     [match goal with |- context [complete_trick shuffled ?g1] =>
        apply (same_seats_trans g g1);
        [eapply same_seats_trans; [exact Hseats|same_seats_tac]
        |apply complete_trick_seats; by game_simpl]
      end
     |py_step; eapply same_seats_trans; [exact Hseats|];
      split; [by game_simpl|split; [intros ?; by game_simpl|by game_simpl]]]).
Qed.

Lemma start_game_seats shuffled g :
  same_seats g (state_of (start_game shuffled g)).
Proof.
  rewrite start_game_eq. py_step.
  destruct (negb _); py_step; [apply same_seats_refl|].
  rewrite bind_ret_state.
  eapply same_seats_trans; [|apply deal_cards_seats_kept]. same_seats_tac.
Qed.

Lemma handle_going_alone_seats player_id alone g :
  same_seats g (state_of (handle_going_alone player_id alone g)).
Proof.
  rewrite handle_going_alone_eq. py_step.
  destruct (bool_decide _); py_step; [|apply same_seats_refl]. same_seats_tac.
Qed.

Lemma handle_trump_selection_seats shuffled player_id action suit_arg g :
  same_seats g
    (state_of (handle_trump_selection shuffled player_id action suit_arg g)).
Proof.
  assert (Hmod : (dealer_index g + 1) mod 4 < 4) by (by apply Nat.mod_upper_bound).
  rewrite handle_trump_selection_eq. py_step.
  destruct (negb _); py_step; [apply same_seats_refl|].
  destruct (player_order g !! _) as [current|]; py_step; [|apply same_seats_refl].
  destruct (negb _); py_step; [apply same_seats_refl|].
  destruct (_ && _).
  { destruct (trump_card g) as [turned|]; py_step; [|apply same_seats_refl].
    destruct (player_order g !! _) as [dealer_id|]; py_step; [|same_seats_tac].
    destruct (players g !! _) as [dealer|] eqn:Hdealer; py_step; [|same_seats_tac].
    rewrite start_playing_phase_eq. py_step. game_simpl.
    split; [by game_simpl|]. split; [|by game_simpl].
    intros id. game_simpl. destruct (decide (dealer_id = id)) as [<-|Hne].
    - by rewrite lookup_insert_eq, Hdealer.
    - by rewrite lookup_insert_ne. }
  destruct (_ && _).
  { destruct (trump_card g) as [turned|]; py_step; [|apply same_seats_refl].
    destruct (negb _); py_step; [|apply same_seats_refl].
    rewrite start_playing_phase_eq. py_step. game_simpl.
    split; [by game_simpl|]. split; [intros ?; by game_simpl|by game_simpl]. }
  destruct (bool_decide _); py_step; [|apply same_seats_refl].
  rewrite bind_ret_state. game_simpl.
  destruct (_ && _); [py_step; same_seats_tac|].
  destruct (_ && _); [|py_step; same_seats_tac].
  eapply same_seats_trans; [|apply deal_cards_seats_kept]. same_seats_tac.
Qed.

Lemma exec_seats shuffled c g :
  table_ok g → same_seats g (after shuffled c g).
Proof.
  intros Hok. assert (Hlen : length (player_order g) ≤ 4).
  { destruct Hok as [(Hlen & _) _]. lia. }
  unfold after. destruct c; unfold exec.
  - rewrite add_player_table_ok by done. apply same_seats_refl.
  - apply start_game_seats.
  - apply handle_trump_selection_seats.
  - apply handle_going_alone_seats.
  - by apply play_card_seats.
Qed.

Lemma run_seats shuffled calls g :
  table_ok g → same_seats g (run shuffled calls g).
Proof.
  revert g. induction calls as [|c calls IH]; intros g Hok;
    [apply same_seats_refl|].
  cbn [run foldl]. eapply same_seats_trans; [by apply exec_seats|].
  apply IH. by apply table_ok_after.
Qed.

Lemma fmap_position_mod (o : option Player) :
  (fun p => position p mod 2) <$> o = (fun n => n mod 2) <$> (position <$> o).
Proof. by destruct o. Qed.

(** X24: the seats of a game are fixed when it starts.  After four players
    with distinct ids have joined, and after any calls, [player_order]
    lists them in the order they joined, each player's position is the
    index of the seat (so the teams of [complete_round] are the first with
    the third player and the second with the fourth), and
    [current_player_index] is a seat. *)
Theorem seats_are_fixed shuffled room a b c d na nb nc nd ia ib ic id calls :
  NoDup [a; b; c; d] →
  let g := run shuffled
             (AddPlayer a na ia :: AddPlayer b nb ib :: AddPlayer c nc ic ::
              AddPlayer d nd id :: calls) (new_game room) in
  player_order g = [a; b; c; d] ∧
  position <$> players g !! a = Some 0 ∧ position <$> players g !! b = Some 1 ∧
  position <$> players g !! c = Some 2 ∧ position <$> players g !! d = Some 3 ∧
  team_of g a = Some 0 ∧ team_of g b = Some 1 ∧
  team_of g c = Some 0 ∧ team_of g d = Some 1 ∧
  current_player_index g < 4.
Proof.
  intros Hnodup g.
  destruct (four_players_seated shuffled room a b c d na nb nc nd ia ib ic id Hnodup)
    as (g1 & Hok & _ & Horder & (Ha & Hb & Hc & Hd & Hturn) & Hrun).
  assert (Hseats : same_seats g1 g).
  { subst g.
    change (same_seats g1 (run shuffled calls
      (run shuffled
         [AddPlayer a na ia; AddPlayer b nb ib; AddPlayer c nc ic; AddPlayer d nd id]
         (new_game room)))).
    rewrite Hrun. eapply same_seats_trans; [apply deal_cards_seats_kept|].
    apply run_seats. by apply deal_cards_table_ok. }
  clearbody g. destruct Hseats as (Ho & Hp & Ht).
  unfold team_of. rewrite !fmap_position_mod, Ho, !Hp, Ha, Hb, Hc, Hd, Horder.
  repeat split; try done. apply Ht. lia.
Qed.

Lemma seats_are_fixed_witness :
  player_order
    (run create_deck
       [AddPlayer "p0" "North" false; AddPlayer "p1" "East" false;
        AddPlayer "p2" "South" false; AddPlayer "p3" "West" false;
        HandleTrumpSelection "p1" "order_up" None; PlayCard "p1" (mkCard HEARTS TEN)]
       (new_game "ROOM"))
  = ["p0"; "p1"; "p2"; "p3"].
Proof.
  assert (Hnodup : NoDup ["p0"; "p1"; "p2"; "p3"])
    by (apply (bool_decide_unpack _); vm_compute; exact I).
  pose proof (seats_are_fixed create_deck "ROOM" "p0" "p1" "p2" "p3"
                "North" "East" "South" "West" false false false false
                [HandleTrumpSelection "p1" "order_up" None;
                 PlayCard "p1" (mkCard HEARTS TEN)] Hnodup) as H.
  cbv zeta in H. destruct H as [H _]. exact H.
Defined.

(** * The deck *)

(** X25: [create_deck] builds the 24 cards of Euchre: every card of the
    four suits and six ranks, each once, suit by suit in rank order. *)
Theorem create_deck_is_the_euchre_deck :
  length create_deck = 24 ∧ NoDup create_deck ∧ (∀ c, c ∈ create_deck) ∧
  (∀ i j c1 c2, create_deck !! i = Some c1 → create_deck !! j = Some c2 →
     suit c1 = suit c2 → i < j → rank_value (rank c1) < rank_value (rank c2)).
Proof.
  split; [done|]. split; [apply create_deck_NoDup|]. split.
  - intros c. apply list_elem_of_In, In_create_deck.
  - intros i j c1 c2 Hi Hj Hsuit Hlt.
    assert (Hj' : j < 24) by (apply lookup_lt_Some in Hj; exact Hj).
    do 24 (destruct j as [|j]; [
      do 24 (destruct i as [|i]; [
        injection Hi as <-; injection Hj as <-;
        first [discriminate Hsuit | simpl; lia | lia]|]); lia|]).
    lia.
Qed.

(** * Rooms *)

Lemma add_player_new shuffled player_id name is_ai g :
  size (players g) < 3 → players g !! player_id = None →
  add_player shuffled player_id name is_ai g =
    (set_player_order (player_order g ++ [player_id])
       (set_players
          (<[player_id := mkPlayer player_id name [] (size (players g)) true is_ai]>
             (players g)) g),
     Returned true).
Proof.
  intros Hsize Hnew. rewrite add_player_eq. py_step.
  destruct (4 <=? size (players g)) eqn:Hfull;
    [apply Nat.leb_le in Hfull; lia|].
  cbv zeta. py_step. game_simpl. rewrite map_size_insert_None by done.
  destruct (S (size (players g)) =? 4) eqn:Hfour;
    [apply Nat.eqb_eq in Hfour; lia|].
  by py_step.
Qed.

(** The four calls of [add_player] that fill a new game return [True]. *)
Lemma four_adds_return shuffled room a b c d na nb nc nd ia ib ic id :
  NoDup [a; b; c; d] → create_deck ≡ₚ shuffled →
  let g1 := after shuffled (AddPlayer a na ia) (new_game room) in
  let g2 := after shuffled (AddPlayer b nb ib) g1 in
  let g3 := after shuffled (AddPlayer c nc ic) g2 in
  outcome_of (add_player shuffled a na ia (new_game room)) = Returned true ∧
  outcome_of (add_player shuffled b nb ib g1) = Returned true ∧
  outcome_of (add_player shuffled c nc ic g2) = Returned true ∧
  outcome_of (add_player shuffled d nd id g3) = Returned true.
Proof.
  intros Hnodup Hperm.
  destruct (four_players_seated shuffled room a b c d na nb nc nd ia ib ic id Hnodup)
    as (g0 & Hok & Hdealer & _ & _ & Hrun).
  apply NoDup_cons in Hnodup as [Ha Hnodup].
  apply NoDup_cons in Hnodup as [Hb Hnodup].
  apply NoDup_cons in Hnodup as [Hc _].
  repeat setoid_rewrite not_elem_of_cons in Ha.
  repeat setoid_rewrite not_elem_of_cons in Hb.
  repeat setoid_rewrite not_elem_of_cons in Hc.
  destruct Ha as (Hab & Hac & Had & _), Hb as (Hbc & Hbd & _), Hc as (Hcd & _).
  unfold after, exec. cbv zeta.
  rewrite (add_player_new shuffled a na ia (new_game room));
    [|cbn [players new_game]; rewrite map_size_empty; lia|done].
  rewrite state_of_pair.
  cbn [players new_game player_order app]. rewrite map_size_empty.
  rewrite (add_player_new _ b); game_simpl;
    [|rewrite map_size_insert_None, map_size_empty by done; lia
     |by rewrite lookup_insert_ne].
  rewrite state_of_pair, map_size_insert_None, map_size_empty by done.
  rewrite (add_player_new _ c); game_simpl;
    [|rewrite !map_size_insert_None, map_size_empty
        by (by rewrite ?lookup_insert_ne); lia
     |by rewrite !lookup_insert_ne].
  rewrite state_of_pair.
  rewrite !map_size_insert_None, map_size_empty by (by rewrite ?lookup_insert_ne).
  rewrite !outcome_of_pair. repeat split.
  rewrite (add_player_fourth _ d); game_simpl;
    [|by rewrite !map_size_insert_None, map_size_empty
        by (by rewrite ?lookup_insert_ne)
     |by rewrite !lookup_insert_ne].
  match goal with |- context [bind (deal_cards shuffled) _ ?g5] =>
    pose proof (deal_cards_outcome shuffled g5) as Hdeal;
    rewrite bind_unfold; destruct (deal_cards shuffled g5) as [g' [[]|e]]
  end; [by py_step|].
  game_simpl_in Hdeal. cbn [app length Nat.leb] in Hdeal.
  rewrite outcome_of_pair in Hdeal. exfalso.
  assert (Raised e = Returned tt) as Habs; [|done].
  apply Hdeal; [by rewrite <- Hperm|].
  repeat constructor; rewrite !lookup_insert_is_Some; naive_solver.
Qed.

(** What [join_room] does for a newcomer to a room that is not full. *)
Lemma join_room_newcomer shuffled room_code player_id player_name m room game :
  rooms m !! room_code = Some room → length (room_players room) < 4 →
  player_id ∉ room_players room → games m !! room_code = Some game →
  join_room shuffled room_code player_id player_name m =
    (mkManager (active_connections m)
       (<[room_code := mkRoom (room_players room ++ [player_id]) (created_at room)
                         (creator room)]> (rooms m))
       (<[room_code := state_of (add_player shuffled player_id player_name false game)]>
          (games m))
       (<[player_id := room_code]> (player_rooms m))
       (<[player_id := player_name]> (player_names m)),
     match outcome_of (add_player shuffled player_id player_name false game) with
     | Returned _ => Returned true
     | Raised e => Raised e
     end).
Proof.
  intros Hroom Hlen Hnew Hgame. unfold join_room. rewrite Hroom.
  destruct (4 <=? _) eqn:Hfull; nat_tests; [lia|].
  rewrite bool_decide_false, Hgame by done. cbv zeta.
  by destruct (outcome_of _).
Qed.

(** X26: a room filled through the manager holds a game under way.  When
    a player creates a room and three other players join it, every call
    returns [True]; the room then lists the four players in the order they
    came, its game is under way with the four in the same seats and the
    cards dealt, and [join_room] turns everyone else away without changing
    anything. *)
Theorem room_of_four_starts_a_game shuffled now m0 code a b c d na nb nc nd :
  NoDup [a; b; c; d] → create_deck ≡ₚ shuffled →
  let r1 := create_room shuffled now code a na m0 in
  let r2 := join_room shuffled code b nb r1.1 in
  let r3 := join_room shuffled code c nc r2.1 in
  let r4 := join_room shuffled code d nd r3.1 in
  r1.2 = Returned true ∧ r2.2 = Returned true ∧
  r3.2 = Returned true ∧ r4.2 = Returned true ∧
  room_players <$> rooms r4.1 !! code = Some [a; b; c; d] ∧
  (∃ g, get_game r4.1 code = Some g ∧ get_player_game r4.1 d = Some g ∧
        game_ok g ∧ player_order g = [a; b; c; d] ∧ phase g = TRUMP_SELECTION) ∧
  (∀ e ne, join_room shuffled code e ne r4.1 = (r4.1, Returned false)).
Proof.
  intros Hnodup Hperm.
  destruct (four_adds_return shuffled code a b c d na nb nc nd false false false false
              Hnodup Hperm) as (H1 & H2 & H3 & H4).
  pose proof (four_players_game_ok shuffled code a b c d na nb nc nd
                false false false false Hnodup Hperm) as Hok.
  destruct (four_players_seated shuffled code a b c d na nb nc nd
              false false false false Hnodup) as (g0 & Hok0 & Hd0 & Horder0 & _ & Hrun).
  pose proof Hnodup as Hdistinct.
  apply NoDup_cons in Hnodup as [Ha Hnodup].
  apply NoDup_cons in Hnodup as [Hb Hnodup].
  apply NoDup_cons in Hnodup as [Hc _].
  repeat setoid_rewrite not_elem_of_cons in Ha.
  repeat setoid_rewrite not_elem_of_cons in Hb.
  repeat setoid_rewrite not_elem_of_cons in Hc.
  destruct Ha as (Hab & Hac & Had & _), Hb as (Hbc & Hbd & _), Hc as (Hcd & _).
  cbv zeta in H1, H2, H3, H4.
  set (g1 := after shuffled (AddPlayer a na false) (new_game code)) in *.
  set (g2 := after shuffled (AddPlayer b nb false) g1) in *.
  set (g3 := after shuffled (AddPlayer c nc false) g2) in *.
  set (g4 := after shuffled (AddPlayer d nd false) g3).
  assert (Hfinal : g4 = run shuffled
                          [AddPlayer a na false; AddPlayer b nb false;
                           AddPlayer c nc false; AddPlayer d nd false]
                          (new_game code)) by done.
  intros r1.
  assert (Hr1 : r1 =
    (mkManager (active_connections m0)
       (<[code := mkRoom [a] now a]> (rooms m0))
       (<[code := g1]> (games m0))
       (<[a := code]> (player_rooms m0))
       (<[a := na]> (player_names m0)), Returned true)).
  { subst r1. unfold create_room. cbv zeta.
    destruct (add_player shuffled a na false (new_game code)) as [g o] eqn:Hadd.
    assert (g = g1) as -> by (subst g1; unfold after, exec; by rewrite Hadd).
    rewrite outcome_of_pair in H1. by subst o. }
  clearbody r1. subst r1. intros r2.
  assert (Hr2 : r2 =
    (mkManager (active_connections m0)
       (<[code := mkRoom [a; b] now a]> (rooms m0))
       (<[code := g2]> (games m0))
       (<[b := code]> (<[a := code]> (player_rooms m0)))
       (<[b := nb]> (<[a := na]> (player_names m0))), Returned true)).
  { subst r2. cbn [fst]. erewrite join_room_newcomer;
      [|cbn [rooms]; apply lookup_insert_eq|cbn; lia|cbn [room_players];
         repeat (apply not_elem_of_cons; split; [congruence|]); apply not_elem_of_nil
       |cbn [games]; apply lookup_insert_eq].
    fold (after shuffled (AddPlayer b nb false) g1). fold g2. rewrite H2.
    cbn [active_connections rooms games player_rooms player_names room_players
         created_at creator app]. by rewrite !insert_insert_eq. }
  clearbody r2. subst r2. intros r3.
  assert (Hr3 : r3 =
    (mkManager (active_connections m0)
       (<[code := mkRoom [a; b; c] now a]> (rooms m0))
       (<[code := g3]> (games m0))
       (<[c := code]> (<[b := code]> (<[a := code]> (player_rooms m0))))
       (<[c := nc]> (<[b := nb]> (<[a := na]> (player_names m0)))), Returned true)).
  { subst r3. cbn [fst]. erewrite join_room_newcomer;
      [|cbn [rooms]; apply lookup_insert_eq|cbn; lia|cbn [room_players];
         repeat (apply not_elem_of_cons; split; [congruence|]); apply not_elem_of_nil
       |cbn [games]; apply lookup_insert_eq].
    fold (after shuffled (AddPlayer c nc false) g2). fold g3. rewrite H3.
    cbn [active_connections rooms games player_rooms player_names room_players
         created_at creator app]. by rewrite !insert_insert_eq. }
  clearbody r3. subst r3. intros r4.
  assert (Hr4 : r4 =
    (mkManager (active_connections m0)
       (<[code := mkRoom [a; b; c; d] now a]> (rooms m0))
       (<[code := g4]> (games m0))
       (<[d := code]> (<[c := code]> (<[b := code]> (<[a := code]> (player_rooms m0)))))
       (<[d := nd]> (<[c := nc]> (<[b := nb]> (<[a := na]> (player_names m0))))),
     Returned true)).
  { subst r4. cbn [fst]. erewrite join_room_newcomer;
      [|cbn [rooms]; apply lookup_insert_eq|cbn; lia|cbn [room_players];
         repeat (apply not_elem_of_cons; split; [congruence|]); apply not_elem_of_nil
       |cbn [games]; apply lookup_insert_eq].
    fold (after shuffled (AddPlayer d nd false) g3). fold g4. rewrite H4.
    cbn [active_connections rooms games player_rooms player_names room_players
         created_at creator app]. by rewrite !insert_insert_eq. }
  clearbody r4. subst r4. cbn [fst snd rooms].
  repeat split; try done.
  - by rewrite lookup_insert_eq.
  - exists g4. unfold get_game, get_player_game. cbn [games player_rooms].
    rewrite !lookup_insert_eq. split; [done|]. split; [done|].
    rewrite Hfinal. split; [done|].
    rewrite Hrun.
    destruct (deal_cards_game_ok shuffled g0) as (g' & Hdeal & _); [done|lia|done|].
    destruct (deal_cards_frame shuffled g0) as [(_ & Ho & _) _].
    destruct (deal_cards_returns_phase _ _ _ Hdeal) as (Hp & _).
    rewrite Hdeal, state_of_pair in *. by rewrite Ho.
  - intros e ne. unfold join_room. cbn [rooms]. by rewrite lookup_insert_eq.
Qed.

Lemma room_of_four_starts_a_game_witness :
  (create_room create_deck 0 "ROOM" "p0" "North" new_manager).2 = Returned true.
Proof.
  assert (Hnodup : NoDup ["p0"; "p1"; "p2"; "p3"])
    by (apply (bool_decide_unpack _); vm_compute; exact I).
  assert (Hperm : create_deck ≡ₚ create_deck) by reflexivity.
  pose proof (room_of_four_starts_a_game create_deck 0 new_manager "ROOM"
                "p0" "p1" "p2" "p3" "North" "East" "South" "West" Hnodup Hperm) as H.
  cbv zeta in H. destruct H as [H _]. exact H.
Defined.

(** * The strength of a hand *)

Lemma strength_step_category t acc card :
  EuchreAI.strength_step t acc card = category_step acc (card_category t card).
Proof.
  destruct acc as [[strength trump_count] off_aces], card as [s r].
  destruct s, r, t; reflexivity.
Qed.

Lemma strength_fold_category t hand acc :
  foldl (EuchreAI.strength_step t) acc hand =
  foldl category_step acc (card_category t <$> hand).
Proof.
  revert acc. induction hand as [|card hand IH]; intros acc; [done|].
  cbn [foldl fmap list_fmap]. by rewrite strength_step_category, IH.
Qed.

Lemma evaluate_hand_strength_category hand t :
  EuchreAI.evaluate_hand_strength hand (Some t) =
  category_strength (card_category t <$> hand).
Proof.
  unfold EuchreAI.evaluate_hand_strength, category_strength.
  by rewrite strength_fold_category.
Qed.

Lemma category_lists_complete n l : length l ≤ n → l ∈ category_lists n.
Proof.
  revert l. induction n as [|n IH]; intros l Hlen.
  - destruct l; [left|simpl in Hlen; lia].
  - destruct l as [|c l]; [left|]. right. simpl in Hlen.
    apply list_elem_of_bind. exists l. split; [|apply IH; lia].
    apply list_elem_of_bind. exists c. split; [left|].
    destruct c; unfold all_categories; repeat (first [left|right]).
Qed.

(** X27: for a hand of at most six cards (the five dealt and the card the
    dealer picks up) [evaluate_hand_strength] returns a number between 0.0
    and 1.0, as its documentation says, and 0.0 without a trump suit. *)
Theorem evaluate_hand_strength_bounds hand trump_suit :
  length hand ≤ 6 →
  (0.0 <=? EuchreAI.evaluate_hand_strength hand trump_suit)%float = true ∧
  (EuchreAI.evaluate_hand_strength hand trump_suit <=? 1.0)%float = true ∧
  (trump_suit = None → EuchreAI.evaluate_hand_strength hand trump_suit = 0.0%float).
Proof.
  intros Hlen. destruct trump_suit as [t|]; [|by vm_compute].
  rewrite evaluate_hand_strength_category.
  assert (Hcheck : strength_bounds_check = true) by (vm_compute; reflexivity).
  unfold strength_bounds_check in Hcheck.
  assert (Hin : In (card_category t <$> hand) (category_lists 6)).
  { apply list_elem_of_In, category_lists_complete. by rewrite length_fmap. }
  pose proof (proj1 (forallb_forall _ _) Hcheck (card_category t <$> hand) Hin) as H.
  cbv beta in H. apply andb_true_iff in H as [H0 H1].
  split; [exact H0|]. split; [exact H1|]. intros [=].
Qed.

Lemma evaluate_hand_strength_bounds_witness :
  (EuchreAI.evaluate_hand_strength both_bowers_hand (Some HEARTS) <=? 1.0)%float = true.
Proof.
  assert (Hlen : length both_bowers_hand ≤ 6) by (vm_compute; lia).
  pose proof (evaluate_hand_strength_bounds both_bowers_hand (Some HEARTS) Hlen) as H.
  destruct H as (_ & H & _). exact H.
Defined.

(** * Starting a game that is under way *)

Lemma table_ok_size g : table_ok g → size (players g) = 4.
Proof.
  intros Hok. pose proof (seats_filled_size g (proj1 Hok)) as Hge.
  destruct Hok as ((Hlen & Hnodup & _) & Hall & _).
  assert (Hle : size (players g) ≤ 4); [|lia].
  rewrite <- Hlen, <- (size_list_to_set (C := gset string)) by done.
  rewrite <- size_dom. apply subseteq_size. intros q Hq.
  apply elem_of_dom in Hq. apply elem_of_list_to_set. by apply Hall.
Qed.

(** X28: [start_game] does not look at the phase.  In a game under way it
    returns [True] and deals again: every player holds five new cards and
    the first round of trump selection begins left of the dealer, while the
    trump suit, the trump maker, the lone hand, the tricks played, the
    scores and the dealer stay as they were. *)
Theorem start_game_deals_again shuffled g :
  game_ok g → create_deck ≡ₚ shuffled →
  let r := start_game shuffled g in
  outcome_of r = Returned true ∧
  phase (state_of r) = TRUMP_SELECTION ∧
  trump_selection_round (state_of r) = 1 ∧
  trump_selection_player_index (state_of r) = (dealer_index g + 1) mod 4 ∧
  (∀ player_id, player_id ∈ player_order g →
     ∃ p, players (state_of r) !! player_id = Some p ∧ length (hand p) = 5) ∧
  trump_suit (state_of r) = trump_suit g ∧
  trump_maker (state_of r) = trump_maker g ∧
  going_alone (state_of r) = going_alone g ∧
  completed_tricks (state_of r) = completed_tricks g ∧
  current_trick (state_of r) = current_trick g ∧
  team_scores (state_of r) = team_scores g ∧
  dealer_index (state_of r) = dealer_index g.
Proof.
  intros [Hok Hidx] Hperm. cbv zeta. rewrite start_game_eq. py_step.
  rewrite (table_ok_size g Hok). cbn [Nat.eqb negb]. py_step.
  set (g1 := set_phase DEALING g).
  assert (Hseats1 : seats_filled g1).
  { eapply seats_filled_frame; [| |exact (proj1 Hok)]; subst g1; by game_simpl. }
  destruct (deal_cards_partition shuffled g1 Hseats1 Hperm) as (Hret & Hhands & _).
  destruct (deal_cards_frame shuffled g1)
    as [(_ & _ & Hsuit & Hdealer & _ & Htrick & Hdone & Hmade & Halone & Hscores & _) _].
  destruct (deal_cards shuffled g1) as [g' o] eqn:Hdeal.
  rewrite outcome_of_pair in Hret. subst o.
  destruct (deal_cards_returns_phase _ _ _ Hdeal) as (Hp' & Hr' & Ht' & _).
  rewrite state_of_pair in *. rewrite (bind_returned _ _ _ _ _ Hdeal). py_step.
  rewrite Hp', Hr', Ht', Hsuit, Hdealer, Htrick, Hdone, Hmade, Halone, Hscores.
  subst g1. game_simpl. repeat split; try done.
Qed.

Lemma start_game_deals_again_witness :
  phase (state_of (start_game create_deck play_started)) = TRUMP_SELECTION ∧
  trump_suit (state_of (start_game create_deck play_started)) = Some SPADES.
Proof.
  assert (Hok : game_ok play_started).
  { apply (run_game_ok create_deck _ seated game_ok_seated). reflexivity. }
  assert (Hperm : create_deck ≡ₚ create_deck) by reflexivity.
  assert (Htrump : trump_suit play_started = Some SPADES) by (vm_compute; reflexivity).
  pose proof (start_game_deals_again create_deck play_started Hok Hperm) as H.
  cbv zeta in H. destruct H as (_ & Hphase & _ & _ & _ & Hsuit & _).
  split; [exact Hphase|]. rewrite Hsuit. exact Htrump.
Defined.

(** * The tricks of a game *)

Lemma same_tricks_refl g : same_tricks g g.
Proof. done. Qed.

Lemma same_tricks_trans g1 g2 g3 :
  same_tricks g1 g2 → same_tricks g2 g3 → same_tricks g1 g3.
Proof. intros [? ?] [? ?]. split; congruence. Qed.

Lemma tricks_ok_frame g g' : same_tricks g g' → tricks_ok g → tricks_ok g'.
Proof. intros [Ht Hc]. unfold tricks_ok. by rewrite Ht, Hc. Qed.

Ltac same_tricks_tac := split; by game_simpl.

Lemma deal_cards_same_tricks shuffled g :
  same_tricks g (state_of (deal_cards shuffled g)).
Proof.
  destruct (deal_cards_frame shuffled g)
    as [(_ & _ & _ & _ & _ & Ht & Hc & _) _].
  by split.
Qed.

Lemma start_game_same_tricks shuffled g :
  same_tricks g (state_of (start_game shuffled g)).
Proof.
  rewrite start_game_eq. py_step.
  destruct (negb _); py_step; [done|].
  rewrite bind_ret_state.
  eapply same_tricks_trans; [|apply deal_cards_same_tricks]. same_tricks_tac.
Qed.

Lemma add_player_same_tricks shuffled player_id name is_ai g :
  same_tricks g (state_of (add_player shuffled player_id name is_ai g)).
Proof.
  rewrite add_player_eq. py_step.
  destruct (4 <=? _); py_step; [done|].
  cbv zeta. py_step. rewrite bind_ret_state.
  match goal with |- context [if ?b then _ else _] => destruct b end.
  - rewrite bind_ret_state.
    eapply same_tricks_trans; [|apply start_game_same_tricks]. same_tricks_tac.
  - py_step. same_tricks_tac.
Qed.

Lemma handle_going_alone_same_tricks player_id alone g :
  same_tricks g (state_of (handle_going_alone player_id alone g)).
Proof.
  rewrite handle_going_alone_eq. py_step.
  destruct (bool_decide _); py_step; [|done]. same_tricks_tac.
Qed.

Lemma handle_trump_selection_same_tricks shuffled player_id action suit_arg g :
  same_tricks g
    (state_of (handle_trump_selection shuffled player_id action suit_arg g)).
Proof.
  rewrite handle_trump_selection_eq. py_step.
  destruct (negb _); py_step; [done|].
  destruct (player_order g !! _) as [current|]; py_step; [|done].
  destruct (negb _); py_step; [done|].
  destruct (_ && _).
  { destruct (trump_card g) as [turned|]; py_step; [|done].
    destruct (player_order g !! _) as [dealer_id|]; py_step; [|same_tricks_tac].
    destruct (players g !! _) as [dealer|]; py_step; [|same_tricks_tac].
    rewrite start_playing_phase_eq. py_step. same_tricks_tac. }
  destruct (_ && _).
  { destruct (trump_card g) as [turned|]; py_step; [|done].
    destruct (negb _); py_step; [|done].
    rewrite start_playing_phase_eq. py_step. same_tricks_tac. }
  destruct (bool_decide _); py_step; [|done].
  rewrite bind_ret_state. game_simpl.
  destruct (_ && _); [py_step; same_tricks_tac|].
  destruct (_ && _); [|py_step; same_tricks_tac].
  eapply same_tricks_trans; [|apply deal_cards_same_tricks]. same_tricks_tac.
Qed.

(** [complete_round] leaves the current trick, and the archived tricks too
    unless it empties them for the next round. *)
Lemma complete_round_tricks shuffled g :
  let g' := state_of (complete_round shuffled g) in
  current_trick g' = current_trick g ∧
  (completed_tricks g' = completed_tricks g ∨ completed_tricks g' = []).
Proof.
  cbv zeta. rewrite complete_round_eq. py_step.
  destruct (count_team_tricks_pure (completed_tricks g) (0, 0) g) as [o Ho].
  rewrite bind_unfold, Ho. destruct o as [team_tricks|e];
    [|py_step; split; [done|by left]].
  destruct (trump_maker g ≫= _) as [maker|]; py_step; [|split; [done|by left]].
  cbv zeta. game_simpl.
  destruct (10 <=? _).
  - py_step. game_simpl. split; [done|by left].
  - match goal with |- context [start_next_round shuffled ?g1] =>
      destruct (start_next_round_frame shuffled g1) as (_ & _ & _ & _ & Ht & Hc & _)
    end.
    rewrite Ht, Hc. game_simpl. split; [done|by right].
Qed.

Lemma complete_trick_tricks_ok shuffled g :
  tricks_ok g → tricks_ok (state_of (complete_trick shuffled g)).
Proof.
  intros [Hcurrent Harchived]. rewrite complete_trick_eq. py_step.
  destruct (trump_suit g) as [trump|]; py_step; [|done].
  destruct (negb _) eqn:Hfour; py_step; [done|].
  apply negb_false_iff, Nat.eqb_eq in Hfour.
  destruct (cards (current_trick g) !! 0) as [first|]; py_step; [|done].
  cbv zeta.
  destruct (cards (current_trick g) !! _) as [won|] eqn:Hwon; py_step; [|done].
  game_simpl.
  assert (Hnew : archived_trick_ok (set_winner won.1 (current_trick g))).
  { split; [done|]. split.
    - apply Hcurrent. intros Hnil. by rewrite Hnil in Hfour.
    - cbn [winner cards set_winner]. apply list_elem_of_fmap. exists won.
      split; [done|]. by eapply list_elem_of_lookup_2. }
  assert (Hdone : ∀ g1,
    current_trick g1 = empty_trick →
    completed_tricks g1 = completed_tricks g ++ [set_winner won.1 (current_trick g)] →
    tricks_ok g1).
  { intros g1 Ht Hc. unfold tricks_ok. rewrite Ht, Hc. split; [done|].
    apply Forall_app. split; [done|]. by constructor. }
  destruct (list_index _ _) as [seat|]; py_step; [|apply Hdone; by game_simpl].
  game_simpl.
  match goal with |- context [set_current_player_index seat ?g0] =>
    set (g1 := set_current_player_index seat g0);
    assert (Hok1 : tricks_ok g1) by (apply Hdone; subst g1; by game_simpl)
  end.
  match goal with |- context [if ?b then _ else _] => destruct b end; [|by py_step].
  destruct (complete_round_tricks shuffled g1) as [Ht [Hc|Hc]].
  - apply (tricks_ok_frame g1); [by split|done].
  - unfold tricks_ok. rewrite Ht, Hc. split; [apply Hok1|constructor].
Qed.

Lemma play_card_tricks_ok shuffled player_id card g :
  tricks_ok g → tricks_ok (state_of (play_card shuffled player_id card g)).
Proof.
  intros [Hcurrent Harchived]. rewrite play_card_eq. py_step.
  destruct (negb _); py_step; [done|].
  destruct (players g !! player_id) as [player|]; py_step; [|done].
  destruct (list_remove_first card (hand player)) as [hand'|]; py_step; [|done].
  assert (Hplayed : ∀ g1,
    completed_tricks g1 = completed_tricks g →
    cards (current_trick g1) = cards (current_trick g) ++ [(player_id, card)] →
    leader (current_trick g1) =
      (if length (cards (current_trick g)) =? 0 then player_id
       else leader (current_trick g)) →
    tricks_ok g1).
  { intros g1 Hc Ht Hl. unfold tricks_ok. rewrite Hc, Ht, Hl. split; [|done].
    intros _. destruct (cards (current_trick g)) as [|first rest] eqn:Hcards; [done|].
    cbn [length Nat.eqb app fmap list_fmap head].
    apply (Hcurrent ltac:(done)). }
  game_simpl. rewrite bind_unfold.
  destruct (length (cards (current_trick g)) =? 0) eqn:Hempty; py_step; game_simpl;
    rewrite bind_ret_state;
    (match goal with |- context [if ?b then _ else _] => destruct b end;
     [apply complete_trick_tricks_ok|py_step]);
    apply Hplayed; game_simpl; try done; by rewrite Hempty.
Qed.

Lemma exec_tricks_ok shuffled c g : tricks_ok g → tricks_ok (after shuffled c g).
Proof.
  intros Hok. unfold after. destruct c; unfold exec.
  - eapply tricks_ok_frame; [apply add_player_same_tricks|done].
  - eapply tricks_ok_frame; [apply start_game_same_tricks|done].
  - eapply tricks_ok_frame; [apply handle_trump_selection_same_tricks|done].
  - eapply tricks_ok_frame; [apply handle_going_alone_same_tricks|done].
  - by apply play_card_tricks_ok.
Qed.

(** X29: in every state a game can reach, each archived trick holds four
    cards, was led by the player of its first card and won by one of the
    players who played to it, and a current trick with cards is led by the
    player of its first card. *)
Theorem tricks_are_well_formed g : reachable g → tricks_ok g.
Proof.
  induction 1 as [room|g shuffled c Hg IH Hperm].
  - split; [done|constructor].
  - by apply exec_tricks_ok.
Qed.

Lemma tricks_are_well_formed_witness : tricks_ok play_started.
Proof.
  apply (tricks_are_well_formed play_started).
  apply (reachable_run create_deck _ seated); [reflexivity|apply reachable_seated].
Defined.
